(** * Tableau automation scripts: export pipeline and account deactivation

    A shallow embedding of [exportAs 3.py] (workbook export to PPT or PDF)
    and of [text.py] (deactivation of long-inactive viewers), with the
    properties of their specification stated and proved over it.

    Conventions of the embedding.
    - Python exceptions are values of [exn]; a computation that can raise
      returns a [result].
    - Code that touches the file system, the module global [img_indexing] or
      the server session runs in the monad [M]: a state transformer over
      [world] that also returns a [result].  When a computation raises, the
      world it leaves behind is kept: that is what a later observer sees.
    - The arithmetic on [float] values (true division, the layout of a picture
      on a slide or page) is carried out in exact rationals [Q]: the
      embedding gives the real-number meaning of these expressions, and
      equalities between them are [Qeq].  What the script computes in
      floating point, and a presentation then stores in whole EMU, is this
      value up to rounding: a property that says where exactly a picture
      ends is stated to within one EMU.
    - A string holds the UTF-8 bytes of the Python text.
    - A path is the list of its components, below the working directory;
      [os_path_join d n] adds the component [n].  This is what
      [os.path.join] and [open] do with a name that is one component: the
      properties that say where a file lands, or that a file can be
      written, carry that as a hypothesis on the names ([file_name],
      [dir_name], [plain_path], [plain_names]).
    - [print] calls are not modelled. *)

From stdpp Require Import gmap strings list fin_maps pretty.
From Stdlib Require Import Ascii QArith Qminmax Lqa.

Open Scope Z_scope.

(** ** Python values shared by both scripts *)

(** The exception classes the scripts can meet. *)
Inductive exn : Type :=
| FileNotFoundError
| PermissionError
| JSONDecodeError
| KeyError (key : string)
| TypeError
| IndexError
| ZeroDivisionError
| FileExistsError (msg : string)
| IsADirectoryError
| NotADirectoryError
| OSError
| UnidentifiedImageError
| ServerResponseError
| ValueError
| UnicodeEncodeError.

Inductive result (A : Type) : Type :=
| Ok (a : A)
| Raise (e : exn).
Arguments Ok {A} a.
Arguments Raise {A} e.

Definition is_ok {A} (r : result A) : bool :=
  match r with Ok _ => true | Raise _ => false end.

(** What the server does with a session: the calls the scripts make to the
    authentication endpoint and to the render endpoints, in order. *)
Inductive event : Type :=
| SignIn
| SignOut
| PopulateImage (view_name : string)
| PopulateCsv (view_name : string)
| UpdateUser (user_name : string) (site_role : string)
| UpdateGroup (group_name : string) (minimum_site_role : option string).

(** ** The monad of the scripts

    A computation over a state of type [W] that returns a value or raises. *)

Definition M (W A : Type) : Type := W → result A * W.

Definition ret {W A} (a : A) : M W A := λ w, (Ok a, w).
Definition raise {W A} (e : exn) : M W A := λ w, (Raise e, w).
Definition bind {W A B} (m : M W A) (k : A → M W B) : M W B :=
  λ w, match m w with
       | (Ok a, w') => k a w'
       | (Raise e, w') => (Raise e, w')
       end.
Definition lift {W A} (r : result A) : M W A := λ w, (r, w).
Definition modify {W} (f : W → W) : M W unit := λ w, (Ok tt, f w).

#[global] Instance M_ret {W} : MRet (M W) := @ret W.
#[global] Instance M_bind {W} : MBind (M W) := λ A B k m, bind m k.

(** A loop that updates a local variable: [for x in l: acc = body(acc, x)]. *)
Fixpoint for_fold {W A S} (l : list A) (body : S → A → M W S) (acc : S) : M W S :=
  match l with
  | [] => mret acc
  | x :: l' => acc' ← body acc x; for_fold l' body acc'
  end.

(** [for x in l: body(x)] *)
Definition for_each {W A} (l : list A) (body : A → M W unit) : M W unit :=
  for_fold l (λ _ x, body x) tt.

(** [try: m  except Exception as e: handler(e)] *)
Definition try_except {W A} (m : M W A) (handler : exn → M W A) : M W A :=
  λ w, match m w with
       | (Ok a, w') => (Ok a, w')
       | (Raise e, w') => handler e w'
       end.

(** [try: m  finally: final] *)
Definition try_finally {W A} (m : M W A) (final : M W unit) : M W A :=
  λ w, let '(r, w') := m w in
       match final w' with
       | (Ok _, w'') => (r, w'')
       | (Raise e, w'') => (Raise e, w'')
       end.

(** ** exportAs 3.py *)

Module ExportAs.

(** *** Layout arithmetic *)

(** [pptx.util.Inches]: a length in English Metric Units. *)
Definition Inches (n : Z) : Z := n * 914400.

(** Where a picture is put on a slide or page, and at which size. *)
Record placement : Type := Placement {
  p_left : Q;
  p_top : Q;
  p_width : Q;
  p_height : Q
}.

(** Lines 206-226 of [add_image_to_ppt]: the placement of an image of
    [img_width] x [img_height] pixels on a slide of [slide_width] x
    [slide_height] EMU.  The two true divisions raise on a zero divisor. *)
Definition add_image_to_ppt_placement (slide_width slide_height : Z)
    (img_width img_height : Z) : result placement :=
  let max_width := Inches 8 in
  let max_height := Inches 6 in
  if img_width =? 0 then Raise ZeroDivisionError else
  let width_scale := (inject_Z max_width / inject_Z img_width)%Q in
  if img_height =? 0 then Raise ZeroDivisionError else
  let height_scale := (inject_Z max_height / inject_Z img_height)%Q in
  let scale := Qmin width_scale height_scale in
  let left := ((inject_Z slide_width - inject_Z img_width * scale) / 2)%Q in
  let top := ((inject_Z slide_height - inject_Z img_height * scale) / 2)%Q in
  Ok (Placement left top (inject_Z img_width * scale) (inject_Z img_height * scale)).

(** Lines 310-332 of [add_image_to_pdf]: the placement of an image on a page
    of [page_width] x [page_height] (the FPDF object's [w] and [h]). *)
Definition add_image_to_pdf_placement (page_width page_height : Q)
    (img_width img_height : Z) : result placement :=
  let size :=
    if orb (negb (Qle_bool (inject_Z img_width) page_width))
           (negb (Qle_bool (inject_Z img_height) page_height)) then
      if img_width =? 0 then Raise ZeroDivisionError else
      let ratio_width := (page_width / inject_Z img_width)%Q in
      if img_height =? 0 then Raise ZeroDivisionError else
      let ratio_height := (page_height / inject_Z img_height)%Q in
      if negb (Qle_bool ratio_height ratio_width) then
        Ok (page_width, (inject_Z img_height * ratio_width)%Q)
      else
        Ok ((inject_Z img_width * ratio_height)%Q, page_height)
    else Ok (inject_Z img_width, inject_Z img_height) in
  match size with
  | Raise e => Raise e
  | Ok (new_width, new_height) =>
      let x := ((page_width - new_width) / 2)%Q in
      let y := ((page_height - new_height) / 2)%Q in
      Ok (Placement x y new_width new_height)
  end.

(** *** Tile geometry *)

(** The crop box [(left, upper, right, lower)] of lines 380-389. *)
Definition tile_box (width height tile_width tile_height : Z) (row col : nat)
    : Z * Z * Z * Z :=
  if (row =? 0)%nat then
    let left := 0 in
    let upper := Z.of_nat row * tile_height in
    let right := width in
    let lower := upper + tile_height in
    (left, upper, right, lower)
  else
    let left := Z.of_nat col * tile_width in
    let upper := Z.of_nat row * tile_height in
    let right := left + tile_width in
    let lower := upper + tile_height in
    (left, upper, right, lower).

(** [Image.crop]: the size of the cropped image. *)
Definition crop_size (box : Z * Z * Z * Z) : Z * Z :=
  let '(x0, y0, x1, y1) := box in (x1 - x0, y1 - y0).

(** [img_file.split(".")[0]] *)
Fixpoint split_dot_0 (s : string) : string :=
  match s with
  | EmptyString => EmptyString
  | String c s' => if Ascii.eqb c "."%char then EmptyString else String c (split_dot_0 s')
  end.

(** [f"{img_name}_tile_{row}_{col}.png"] *)
Definition export_name (img_name : string) (row col : nat) : string :=
  img_name +:+ "_tile_" +:+ pretty row +:+ "_" +:+ pretty col +:+ ".png".

(** *** The local file system *)

Abbreviation path := (list string).

(** [os.path.join(d, n)] for a name [n] that is one component: a name with
    a separator, or the names "." and "..", stand for other paths. *)
Definition os_path_join (d : path) (n : string) : path := d ++ [n].

(** [os.path.dirname] *)
Definition dirname (p : path) : path := removelast p.

Inductive slide : Type :=
| TitleSlide (title : string) (subtitle : string)
| PictureSlide (img_path : path) (place : placement).

Inductive page : Type :=
| TitlePage (title : string) (subtitle : option string) (info : string)
| ImagePage (img_path : path) (place : placement).

(** What a file holds: an image (only its size matters to the script), a
    data extract, one of the two documents the script writes, or nothing
    yet, as a file that has been opened for writing. *)
Inductive content : Type :=
| Png (width height : Z)
| Csv
| Pptx (slides : list slide)
| Pdf (pages : list page)
| Empty.

Inductive node : Type :=
| File (c : content)
| Dir.

(** The state the script reads and writes: the files and directories below
    the working directory (the working directory itself is the path [[]]),
    the module global [img_indexing], the server session, and the calls
    the server has received. *)
Record world : Type := World {
  fs : gmap path node;
  img_indexing : list string;
  signed_in : bool;
  trace : list event
}.

Definition set_fs (f : gmap path node → gmap path node) (w : world) : world :=
  World (f (fs w)) (img_indexing w) (signed_in w) (trace w).
Definition set_img_indexing (l : list string) (w : world) : world :=
  World (fs w) l (signed_in w) (trace w).
Definition set_signed_in (b : bool) (w : world) : world :=
  World (fs w) (img_indexing w) b (trace w).
Definition emit (e : event) (w : world) : world :=
  World (fs w) (img_indexing w) (signed_in w) (trace w ++ [e]).

Abbreviation M := (M world).

(** *** File system calls *)

Definition is_dir (f : gmap path node) (p : path) : bool :=
  match p with
  | [] => true
  | _ => match f !! p with Some Dir => true | _ => false end
  end.

(** The non-empty prefixes of a path, shortest first. *)
Fixpoint prefixes (p : path) : list path :=
  match p with
  | [] => []
  | x :: q => [x] :: map (cons x) (prefixes q)
  end.

(** The step of [os.makedirs(p, exist_ok=True)] for the prefix [q] of [p].
    A prefix that exists is passed over, be it a file; only the path itself
    has to be a directory.  A prefix that is missing is made with [mkdir],
    which fails when a file stands in the place of its parent. *)
Definition mkdir_exist_ok (p q : path) : M unit := λ w,
  match fs w !! q with
  | None =>
      if is_dir (fs w) (removelast q) then (Ok tt, set_fs <[q := Dir]> w)
      else (Raise NotADirectoryError, w)
  | Some Dir => (Ok tt, w)
  | Some (File _) =>
      if decide (q = p) then (Raise (FileExistsError "[Errno 17] File exists"), w)
      else (Ok tt, w)
  end.

(** [os.makedirs(p, exist_ok=True)] *)
Definition makedirs (p : path) : M unit := for_each (prefixes p) (mkdir_exist_ok p).

(** [with open(p, "wb") as file: file.write(c)], and the [save] methods of
    images and documents, which open their target the same way. *)
Definition write_file (p : path) (c : content) : M unit := λ w,
  if negb (is_dir (fs w) (dirname p)) then
    (Raise (match fs w !! dirname p with
            | Some (File _) => NotADirectoryError
            | _ => FileNotFoundError
            end), w)
  else match p, fs w !! p with
       | [], _ | _, Some Dir => (Raise IsADirectoryError, w)
       | _, _ => (Ok tt, set_fs <[p := File c]> w)
       end.

(** [Image.open(p).size] *)
Definition Image_open (p : path) : M (Z * Z) := λ w,
  match p, fs w !! p with
  | [], _ | _, Some Dir => (Raise IsADirectoryError, w)
  | _, None => (Raise FileNotFoundError, w)
  | _, Some (File (Png width height)) => (Ok (width, height), w)
  | _, Some (File _) => (Raise UnidentifiedImageError, w)
  end.

(** [tile.save(p)] for an image of the given size.  The target is opened as
    by [open(p, "w+b")]; an image without pixels is then refused with
    [ValueError], and the file is removed again when the call has made it. *)
Definition Image_save (p : path) (size : Z * Z) : M unit :=
  if (0 <? size.1) && (0 <? size.2) then write_file p (Png size.1 size.2)
  else λ w,
    match write_file p Empty w with
    | (Ok _, w') => (Raise ValueError, if decide (is_Some (fs w !! p)) then w' else w)
    | (Raise e, w') => (Raise e, w')
    end.

Fixpoint strip_prefix (d p : path) : option path :=
  match d, p with
  | [], _ => Some p
  | x :: d', y :: p' => if decide (x = y) then strip_prefix d' p' else None
  | _ :: _, [] => None
  end.

Definition child_of (d p : path) : option string :=
  match strip_prefix d p with
  | Some [n] => Some n
  | _ => None
  end.

Definition children (f : gmap path node) (d : path) : list string :=
  omap (child_of d) (elements (dom f)).

(** [os.listdir(d)] *)
Definition listdir (d : path) : M (list string) := λ w,
  if is_dir (fs w) d then (Ok (children (fs w) d), w)
  else match fs w !! d with
       | Some _ => (Raise NotADirectoryError, w)
       | None => (Raise FileNotFoundError, w)
       end.

(** [os.remove(p)] *)
Definition remove (p : path) : M unit := λ w,
  match fs w !! p with
  | Some (File _) => (Ok tt, set_fs (delete p) w)
  | Some Dir => (Raise IsADirectoryError, w)
  | None => (Raise (match p with [] => IsADirectoryError | _ => FileNotFoundError end), w)
  end.

(** [os.rmdir(p)] *)
Definition rmdir (p : path) : M unit := λ w,
  match fs w !! p with
  | Some Dir =>
      match children (fs w) p with
      | [] => (Ok tt, set_fs (delete p) w)
      | _ :: _ => (Raise OSError, w)
      end
  | Some (File _) => (Raise NotADirectoryError, w)
  | None => (Raise (match p with [] => OSError | _ => FileNotFoundError end), w)
  end.

(** *** The server, as the script sees it *)

(** [TSC.ImageRequestOptions]: the view filters added with [vf].  The
    resolution ([High]) and [maxage=1] are the same in every request. *)
Abbreviation ImageRequestOptions := (list (string * string)).

(** A view of a workbook.  [view_image opts] is the size of the image the
    server renders for a request with options [opts], [None] when the request
    fails; [view_csv opts] tells whether the data extract is delivered. *)
Record view : Type := View {
  view_name : string;
  view_image : ImageRequestOptions → option (Z * Z);
  view_csv : ImageRequestOptions → bool
}.

(** A workbook with its views, as [server.workbooks.populate_views] fills
    them in. *)
Record workbook : Type := Workbook {
  wb_name : string;
  wb_project_name : string;
  wb_views : list view
}.

(** The server: whether it accepts the access token, and the pages of its
    workbook list. *)
Record server : Type := Server {
  accepts_token : bool;
  workbook_pages : list (list workbook)
}.

(** [TSC.Pager]: all items of all pages. *)
Definition Pager {A} (pages : list (list A)) : list A := concat pages.

(** *** The configuration file *)

Record filter_spec : Type := FilterSpec {
  description : string;
  values : list string
}.

(** The value under ["filters"]: [null] or an array of filter objects. *)
Inductive filters_value : Type :=
| FiltersNull
| FiltersList (l : list filter_spec).

(** A JSON object with the keys the script reads, each present or absent,
    with values of the types of the input interface. *)
Record config : Type := Config {
  c_workbook_name : option string;
  c_project_name : option string;
  c_slide_views : option (list string);
  c_filters : option filters_value
}.

Inductive json_doc : Type :=
| JObject (c : config)
| JOther.

(** What [open] and [json.load] find at the path of the configuration
    file. *)
Inductive file_state : Type :=
| Missing
| Unreadable
| Malformed
| Parsed (d : json_doc).

(** [config[key]] *)
Definition getitem {A} (key : string) (field : config → option A) (d : json_doc)
    : result A :=
  match d with
  | JOther => Raise TypeError
  | JObject c =>
      match field c with
      | Some v => Ok v
      | None => Raise (KeyError key)
      end
  end.

Inductive export_kind : Type := pdf | ppt.

(** The command line, and the values the run takes from its environment: the
    identifier [uuid.uuid4()] returns, the text of [datetime.datetime.now()],
    the slide size of the presentation template and the page size FPDF
    derives from [--page_type] and [--orientation]. *)
Record args : Type := Args {
  config_file : file_state;
  export_type : export_kind;
  export_id : string;
  now : string;
  template_slide_size : Z * Z;
  pdf_page_size : Q * Q
}.

(** *** Module globals *)

Definition ppt_location : path := [].
Definition img_export : path := ["img"].

(** *** The functions of the script *)

Definition connect_tableau (srv : server) : M unit := λ w,
  if accepts_token srv then (Ok tt, emit SignIn (set_signed_in true w))
  else (Raise ServerResponseError, w).

Definition workbook_not_found (workbook_name project_name : string) : string :=
  "Workbook '" +:+ workbook_name +:+ "' not found in project '" +:+ project_name +:+ "'.".

Definition multiple_workbooks (workbook_name project_name : string) : string :=
  "Multiple workbooks with name '" +:+ workbook_name +:+ "' found in project '"
    +:+ project_name +:+ "'.".

Definition get_workbook (srv : server) (workbook_name project_name : string)
    : result workbook :=
  let all_workbooks := Pager (workbook_pages srv) in
  let matching_workbooks :=
    filter (λ workbook, wb_name workbook = workbook_name
                        ∧ wb_project_name workbook = project_name) all_workbooks in
  if (length matching_workbooks =? 0)%nat then
    Raise (FileExistsError (workbook_not_found workbook_name project_name))
  else if (1 <? length matching_workbooks)%nat then
    Raise (FileExistsError (multiple_workbooks workbook_name project_name))
  else match matching_workbooks with
       | workbook :: _ => Ok workbook
       | [] => Raise IndexError
       end.

Definition load_config (config_file : file_state) : M json_doc :=
  match config_file with
  | Missing => raise FileNotFoundError
  | Unreadable => raise PermissionError
  | Malformed => raise JSONDecodeError
  | Parsed config => mret config
  end.

(** [image_export.vf(name, value)] *)
Definition vf (image_export : ImageRequestOptions) (name value : string)
    : ImageRequestOptions := image_export ++ [(name, value)].

Definition get_image_export (filters : filters_value) : ImageRequestOptions :=
  let image_export := [] in
  match filters with
  | FiltersList (f :: l) =>
      foldl (λ image_export filter,
               let filter_disc := description filter in
               let filter_values := String.concat "," (values filter) in
               vf image_export filter_disc filter_values)
            image_export (f :: l)
  | _ => image_export
  end.

(** The requests for the image and for the data extract of a view.  The
    client library sends them when the script reads [view.image] and
    [view.csv], not in [populate_image] and [populate_csv]. *)
Definition populate_image (v : view) (opts : ImageRequestOptions) : M (Z * Z) := λ w,
  match view_image v opts with
  | Some image => (Ok image, emit (PopulateImage (view_name v)) w)
  | None => (Raise ServerResponseError, emit (PopulateImage (view_name v)) w)
  end.

Definition populate_csv (v : view) (opts : ImageRequestOptions) : M unit := λ w,
  if view_csv v opts then (Ok tt, emit (PopulateCsv (view_name v)) w)
  else (Raise ServerResponseError, emit (PopulateCsv (view_name v)) w).

Definition export_images (wb : workbook) (image_export_option : ImageRequestOptions)
    (img_dir : path) (ppt_slides : list string) : M unit :=
  for_each (wb_views wb) (λ v,
    let view_name := view_name v in
    if negb (bool_decide (view_name ∈ ppt_slides)) then mret tt else
    '(width, height) ← populate_image v image_export_option;
    let image_path := os_path_join img_dir (view_name +:+ ".png") in
    modify (λ w, set_img_indexing (img_indexing w ++ [view_name +:+ ".png"]) w);;
    write_file image_path (Png width height);;
    let csv_path := os_path_join img_dir (view_name +:+ ".csv") in
    write_file csv_path Empty;;
    populate_csv v image_export_option;;
    modify (set_fs <[csv_path := File Csv]>)).

Definition get_images (img_dir : path) : M (list string) := λ w,
  (Ok (img_indexing w), w).

Record presentation : Type := Presentation {
  slide_width : Z;
  slide_height : Z;
  slides : list slide
}.

Definition add_slide (prs : presentation) (s : slide) : presentation :=
  Presentation (slide_width prs) (slide_height prs) (slides prs ++ [s]).

Definition newline : string := String (ascii_of_nat 10) EmptyString.

Definition add_title_slide (prs : presentation) (workbook_name project_name now : string)
    : presentation :=
  add_slide prs
    (TitleSlide workbook_name
       ("Project: " +:+ project_name +:+ newline +:+ "Exported on: " +:+ now)).

Definition add_image_to_ppt (prs : presentation) (img_dir : path) (img_file : string)
    : M presentation :=
  let img_path := os_path_join img_dir img_file in
  '(img_width, img_height) ← Image_open img_path;
  place ← lift (add_image_to_ppt_placement (slide_width prs) (slide_height prs)
                  img_width img_height);
  mret (add_slide prs (PictureSlide img_path place)).

(** [project_name] is the module global set by the main program; [size] is
    the slide size of the template [Presentation()] starts from. *)
Definition create_deck (size : Z * Z) (now project_name : string)
    (img_dir export_path : path) (workbook_name : string) : M unit :=
  let prs := Presentation size.1 size.2 [] in
  let prs := add_title_slide prs workbook_name project_name now in
  img_files ← get_images img_dir;
  prs ← for_fold img_files (λ prs img_file, add_image_to_ppt prs img_dir img_file) prs;
  write_file export_path (Pptx (slides prs)).

Record pdf_config : Type := PdfConfig {
  pc_workbook_name : string;
  pc_project_name : option string
}.

Record FPDF : Type := Fpdf {
  pdf_w : Q;
  pdf_h : Q;
  pdf_pages : list page
}.

Definition add_page (doc : FPDF) (pg : page) : FPDF :=
  Fpdf (pdf_w doc) (pdf_h doc) (pdf_pages doc ++ [pg]).

Definition add_title_page (doc : FPDF) (now : string) (cfg : pdf_config) : FPDF :=
  let title := "Tableau Workbook Export: " +:+ pc_workbook_name cfg in
  let project_subtitle := (λ project_name, "Project: " +:+ project_name) <$> pc_project_name cfg in
  let datetime_info := "Exported on: " +:+ now in
  add_page doc (TitlePage title project_subtitle datetime_info).

Definition add_image_to_pdf (doc : FPDF) (img_path : path) (cfg : pdf_config) : M FPDF :=
  '(img_width, img_height) ← Image_open img_path;
  place ← lift (add_image_to_pdf_placement (pdf_w doc) (pdf_h doc) img_width img_height);
  mret (add_page doc (ImagePage img_path place)).

(** The text is in Latin-1: its UTF-8 bytes hold no character above U+00FF,
    the first byte of which would be 0xC4 or more. *)
Fixpoint latin_1 (s : string) : bool :=
  match s with
  | EmptyString => true
  | String c s' => (nat_of_ascii c <? 196)%nat && latin_1 s'
  end.

Definition page_latin_1 (pg : page) : bool :=
  match pg with
  | TitlePage title subtitle info =>
      latin_1 title && from_option latin_1 true subtitle && latin_1 info
  | ImagePage _ _ => true
  end.

(** [pdf.output(p)]: the pages are encoded in Latin-1, the encoding of the
    built-in font, and then the file is opened and written.  A text with a
    character outside Latin-1 raises in the encoding. *)
Definition output (doc : FPDF) (p : path) : M unit :=
  if forallb page_latin_1 (pdf_pages doc) then write_file p (Pdf (pdf_pages doc))
  else raise UnicodeEncodeError.

Definition export_as_pdf (size : Q * Q) (now : string)
    (img_dir output_path : path) (cfg : pdf_config) : M unit :=
  let doc := Fpdf size.1 size.2 [] in
  let doc := add_title_page doc now cfg in
  img_files ← get_images img_dir;
  doc ← for_fold img_files (λ doc img_file,
           let img_path := os_path_join img_dir img_file in
           add_image_to_pdf doc img_path cfg) doc;
  output doc output_path.

(** [width // cols] *)
Definition floordiv (a : Z) (b : nat) : result Z :=
  if (b =? 0)%nat then Raise ZeroDivisionError else Ok (a / Z.of_nat b).

(** The list [tmp_index] is extended in place by the source; here the
    extended list is returned. *)
Definition split_image (image_path output_dir : path) (rows cols : nat)
    (img_name : string) (tmp_index : list string) : M (list string) :=
  '(width, height) ← Image_open image_path;
  tile_width ← lift (floordiv width cols);
  tile_height ← lift (floordiv height rows);
  makedirs output_dir;;
  for_fold (seq 0 rows) (λ tmp_index row,
    for_fold (seq 0 cols) (λ tmp_index col,
      if ((row =? 0) && (col =? 1))%nat then mret tmp_index else
      let tile := crop_size (tile_box width height tile_width tile_height row col) in
      let export_name := export_name img_name row col in
      let tile_path := os_path_join output_dir export_name in
      Image_save tile_path tile;;
      mret (tmp_index ++ [export_name])) tmp_index) tmp_index.

(** Reads the module global [img_indexing]. *)
Definition global_img_indexing : M (list string) := λ w, (Ok (img_indexing w), w).

Definition generate_slide_imgs (img_dir : path) : M path :=
  let tmp_index := [] in
  index ← global_img_indexing;
  tmp_index ← for_fold index (λ tmp_index img_file,
      let img_path := os_path_join img_dir img_file in
      let export_dir := os_path_join img_dir "slide_imgs" in
      let img_name := split_dot_0 img_file in
      split_image img_path export_dir 2 2 img_name tmp_index) tmp_index;
  modify (set_img_indexing tmp_index);;
  mret (os_path_join img_dir "slide_imgs").

Definition sign_out : M unit := modify (λ w, emit SignOut (set_signed_in false w)).

(** *** The main program *)

(** STEP 1 to STEP 6: from sign-in to the written document.  Returns the
    value of [img_dir] the clean-up step receives. *)
Definition pipeline (srv : server) (a : args) : M path :=
  connect_tableau srv;;
  config ← load_config (config_file a);
  workbook_name ← lift (getitem "workbook_name" c_workbook_name config);
  project_name ← lift (getitem "project_name" c_project_name config);
  ppt_slides ← lift (getitem "slide_views" c_slide_views config);
  wb ← lift (get_workbook srv workbook_name project_name);
  filters ← lift (getitem "filters" c_filters config);
  let image_export_option := get_image_export filters in
  let img_dir := os_path_join img_export (export_id a) in
  makedirs img_dir;;
  export_images wb image_export_option img_dir ppt_slides;;
  img_dir ← generate_slide_imgs img_dir;
  match export_type a with
  | ppt =>
      let ppt_location := os_path_join ppt_location "ppt" in
      makedirs ppt_location;;
      let export_path := os_path_join ppt_location (workbook_name +:+ ".pptx") in
      create_deck (template_slide_size a) (now a) project_name img_dir export_path workbook_name
  | pdf =>
      let cfg := PdfConfig workbook_name (Some project_name) in
      let pdf_dir := os_path_join ppt_location "pdf" in
      makedirs pdf_dir;;
      let output_file := os_path_join pdf_dir (workbook_name +:+ ".pdf") in
      export_as_pdf (pdf_page_size a) (now a) img_dir output_file cfg
  end;;
  mret img_dir.

(** STEP 7 *)
Definition cleanup (img_dir : path) : M unit :=
  files ← listdir img_dir;
  for_each files (λ file,
    let file_path := os_path_join img_dir file in
    remove file_path);;
  rmdir img_dir.

Definition main (srv : server) (a : args) : M unit :=
  img_dir ← pipeline srv a;
  cleanup img_dir;;
  sign_out.

(** A world before any run: a file system, no image indexed, no session,
    no call received. *)
Definition initial_world (f : gmap path node) : world := World f [] false [].

(** *** Vocabulary of the specification *)

(** The native size of an image on a slide, in EMU: python-pptx places a
    picture that carries no resolution at 72 pixels per inch. *)
Definition native_emu (pixels : Z) : Z := pixels * (914400 / 72).

(** "Scaled down, never up" for a picture on a slide: the placed picture is
    no larger than the image at its native size. *)
Definition never_enlarged (img_width img_height : Z) (p : placement) : Prop :=
  (p_width p <= inject_Z (native_emu img_width))%Q
  ∧ (p_height p <= inject_Z (native_emu img_height))%Q.

(** The workbooks of all pages that match both names exactly. *)
Definition matching_workbooks (srv : server) (workbook_name project_name : string)
    : list workbook :=
  filter (λ workbook, wb_name workbook = workbook_name
                      ∧ wb_project_name workbook = project_name)
         (Pager (workbook_pages srv)).

(** The two failures of workbook resolution.  The script raises both as
    [FileExistsError]; they differ by their message. *)
Definition NotFoundError (workbook_name project_name : string) : exn :=
  FileExistsError (workbook_not_found workbook_name project_name).
Definition AmbiguousError (workbook_name project_name : string) : exn :=
  FileExistsError (multiple_workbooks workbook_name project_name).

(** *** Vocabulary of the proofs *)

(** The effect of a stage that only writes files into the directory [D]:
    every path that is not directly inside [D] is as before, and a name
    inside [D] is as before or holds a file for which [P] holds. *)
Definition writes_into (D : path) (P : string → content → Prop)
    (f f' : gmap path node) : Prop :=
  (∀ p, (∀ n, p ≠ D ++ [n]) → f' !! p = f !! p)
  ∧ (∀ n, f' !! (D ++ [n]) = f !! (D ++ [n])
          ∨ ∃ c, f' !! (D ++ [n]) = Some (File c) ∧ P n c).

(** Every name of [index] is an image in [D], at least [lo] pixels wide and
    high. *)
Definition pngs_at (D : path) (index : list string) (lo : Z) (f : gmap path node) : Prop :=
  ∀ n, n ∈ index →
       ∃ W H, f !! (D ++ [n]) = Some (File (Png W H)) ∧ lo ≤ W ∧ lo ≤ H.

(** The size of the image at a path, and the picture a document gets of an
    image at a path once it is placed. *)
Definition size_at (f : gmap path node) (p : path) : Z * Z :=
  match f !! p with
  | Some (File (Png W H)) => (W, H)
  | _ => (0, 0)
  end.

Definition picture (r : result placement) (p : path) : option (path * placement) :=
  match r with Ok place => Some (p, place) | Raise _ => None end.

(** The files the export stage writes. *)
Definition exported_file (n : string) (c : content) : Prop :=
  (∃ s W H, n = s +:+ ".png" ∧ c = Png W H ∧ 2 ≤ W ∧ 2 ≤ H)
  ∨ (∃ s, n = s +:+ ".csv" ∧ c = Csv).

(** *** Vocabulary of the specification: views and tiles *)

(** The file name the export stage gives the image of a view. *)
Definition png (view_name : string) : string := view_name +:+ ".png".

(** The string has a ".". *)
Fixpoint has_dot (s : string) : bool :=
  match s with
  | EmptyString => false
  | String c s' => Ascii.eqb c "."%char || has_dot s'
  end.

(** The names of the views of the workbook that are requested, in the order
    of the workbook. *)
Definition exported (ppt_slides : list string) (views : list view) : list string :=
  filter (λ n, n ∈ ppt_slides) (map view_name views).

(** The requests the server receives for these views. *)
Definition render_calls (names : list string) : list event :=
  flat_map (λ n, [PopulateImage n; PopulateCsv n]) names.

(** The server renders the view with the given options: an image at least
    [lo] pixels wide and high, and the data extract. *)
Definition renders (opts : ImageRequestOptions) (lo : Z) (v : view) : Prop :=
  ∃ W H, view_image v opts = Some (W, H) ∧ lo ≤ W ∧ lo ≤ H ∧ view_csv v opts = true.

(** The cells of a grid in row-major order. *)
Definition grid (rows cols : nat) : list (nat * nat) :=
  flat_map (λ row, map (λ col, (row, col)) (seq 0 cols)) (seq 0 rows).

(** The tiles of an image: the cells of the 2 x 2 grid in row-major order,
    the cell of row 0 and column 1 left out. *)
Definition tiles_of (img_file : string) : list string :=
  map (λ cell, export_name (split_dot_0 img_file) cell.1 cell.2)
      (filter (λ cell, cell ≠ (0, 1)%nat) (grid 2 2)).

(** The tiles of the images of an index, image after image. *)
Definition tile_index (index : list string) : list string := flat_map tiles_of index.

(** The image on a slide or page, if it has one. *)
Definition slide_image (s : slide) : option path :=
  match s with PictureSlide p _ => Some p | TitleSlide _ _ => None end.
Definition page_image (pg : page) : option path :=
  match pg with ImagePage p _ => Some p | TitlePage _ _ _ => None end.

(** The images of a document, slide after slide or page after page. *)
Definition document_images (c : content) : list (option path) :=
  match c with
  | Pptx slides => map slide_image slides
  | Pdf pages => map page_image pages
  | _ => []
  end.

(** The picture on a slide or page, if it has one: the image and where it
    is placed. *)
Definition slide_picture (s : slide) : option (path * placement) :=
  match s with PictureSlide p place => Some (p, place) | TitleSlide _ _ => None end.
Definition page_picture (pg : page) : option (path * placement) :=
  match pg with ImagePage p place => Some (p, place) | TitlePage _ _ _ => None end.

(** The pictures of a document, slide after slide or page after page. *)
Definition document_pictures (c : content) : list (option (path * placement)) :=
  match c with
  | Pptx slides => map slide_picture slides
  | Pdf pages => map page_picture pages
  | _ => []
  end.

(** The tiles of an image of [W] x [H] pixels, in the order of [tiles_of],
    each with its size. *)
Definition image_tiles (img_file : string) (W H : Z) : list (string * (Z * Z)) :=
  let img_name := split_dot_0 img_file in
  [(export_name img_name 0 0, (W, H / 2));
   (export_name img_name 1 0, (W / 2, H / 2));
   (export_name img_name 1 1, (W / 2, H / 2))].

(** The tiles of the image the server renders of a view, and the tiles of
    the requested views of a workbook, view after view. *)
Definition view_tiles (opts : ImageRequestOptions) (v : view) : list (string * (Z * Z)) :=
  match view_image v opts with
  | Some (W, H) => image_tiles (png (view_name v)) W H
  | None => []
  end.

Definition requested_tiles (opts : ImageRequestOptions) (ppt_slides : list string)
    (views : list view) : list (string * (Z * Z)) :=
  flat_map (view_tiles opts) (filter (λ v, view_name v ∈ ppt_slides) views).

(** The files the split stage writes. *)
Definition tile_file (n : string) (c : content) : Prop :=
  ∃ W H, c = Png W H ∧ 1 ≤ W ∧ 1 ≤ H.

(** The effect of the split stage on the files: the tile directory [T]
    exists, tiles have been written into it, and nothing else has
    changed. *)
Definition tiles_into (T : path) (f f' : gmap path node) : Prop :=
  f' !! T = Some Dir
  ∧ (∀ p, p ≠ T → (∀ n, p ≠ T ++ [n]) → f' !! p = f !! p)
  ∧ (∀ n, f' !! (T ++ [n]) = f !! (T ++ [n])
          ∨ ∃ c, f' !! (T ++ [n]) = Some (File c) ∧ tile_file n c).

(** The three tiles of an image of [W] x [H] pixels, as [split_image] with a
    2 x 2 grid writes them into [T]. *)
Definition with_tiles (T : path) (img_name : string) (W H : Z)
    (f : gmap path node) : gmap path node :=
  <[T ++ [export_name img_name 1 1] := File (Png (W / 2) (H / 2))]>
    (<[T ++ [export_name img_name 1 0] := File (Png (W / 2) (H / 2))]>
       (<[T ++ [export_name img_name 0 0] := File (Png W (H / 2))]> f)).

(** *** Vocabulary of the specification: a run *)

(** The scratch directory of a run, and the directory of its tiles. *)
Definition scratch_dir (a : args) : path := os_path_join img_export (export_id a).
Definition tile_dir (a : args) : path := os_path_join (scratch_dir a) "slide_imgs".

(** The directory and the name of the document a run writes. *)
Definition output_dir (a : args) : path :=
  os_path_join ppt_location (match export_type a with ppt => "ppt" | pdf => "pdf" end).
Definition output_file (a : args) (workbook_name : string) : string :=
  workbook_name +:+ match export_type a with ppt => ".pptx" | pdf => ".pdf" end.

(** Where a document of the run places an image of the given size. *)
Definition placed (a : args) (size : Z * Z) : result placement :=
  match export_type a with
  | ppt => add_image_to_ppt_placement (template_slide_size a).1 (template_slide_size a).2
             size.1 size.2
  | pdf => add_image_to_pdf_placement (pdf_page_size a).1 (pdf_page_size a).2
             size.1 size.2
  end.

(** A slide or page of the document of the run shows a tile: its picture is
    the file of the tile in the tile directory, placed as an image of the
    size of the tile. *)
Definition shows (a : args) (tile : string * (Z * Z))
    (pic : option (path * placement)) : Prop :=
  ∃ place, placed a tile.2 = Ok place ∧ pic = Some (tile_dir a ++ [tile.1], place).

(** *** Names and texts

    The names a run makes file names of, and the texts it puts on the title
    of the document.  A text of printable ASCII characters can be written
    to both kinds of document.  Such a text is a file name when it has no
    separator nor any other character that file systems reserve, and leaves
    room for the longest suffix the script adds within the 255 bytes of a
    name; it is the name of a directory when it is not empty, "." or ".."
    either.  A path is plain when its components are names of directories. *)

Definition printable_char (c : ascii) : bool :=
  let n := nat_of_ascii c in ((32 <=? n) && (n <=? 126))%nat.

Fixpoint printable (s : string) : bool :=
  match s with
  | EmptyString => true
  | String c s' => printable_char c && printable s'
  end.

Definition reserved_char (c : ascii) : bool :=
  existsb (Ascii.eqb c) (ascii_of_nat 34 :: String.list_ascii_of_string "/\:*?<>|").

Fixpoint has_reserved (s : string) : bool :=
  match s with
  | EmptyString => false
  | String c s' => reserved_char c || has_reserved s'
  end.

Definition file_name (s : string) : bool :=
  printable s && negb (has_reserved s) && (String.length s <=? 240)%nat.

Definition dir_name (s : string) : bool :=
  file_name s && negb (String.eqb s "") && negb (String.eqb s ".")
  && negb (String.eqb s "..").

Definition plain_path (p : path) : bool := forallb dir_name p.

(** The conditions under which a run goes through: the server accepts the
    token; the configuration has its four keys; one workbook matches; at
    least one view is requested, and the server renders every requested
    view, with at least 2 x 2 pixels; the identifier of the run names a
    directory, the names of the workbook and of the requested views are
    file names, and the texts of the title are printable; the scratch
    directory is new, and no file stands where a directory has to be made
    nor a directory where the document is written. *)
Record run_ready (srv : server) (a : args) (f : gmap path node)
    (workbook_name project_name : string) (ppt_slides : list string)
    (filters : filters_value) (wb : workbook) : Prop := RunReady {
  ready_token : accepts_token srv = true;
  ready_config :
    config_file a = Parsed (JObject (Config (Some workbook_name) (Some project_name)
                                            (Some ppt_slides) (Some filters)));
  ready_workbook : matching_workbooks srv workbook_name project_name = [wb];
  ready_requested : exported ppt_slides (wb_views wb) ≠ [];
  ready_renders :
    ∀ v, v ∈ wb_views wb → view_name v ∈ ppt_slides →
         renders (get_image_export filters) 2 v;
  ready_img : f !! img_export = None ∨ f !! img_export = Some Dir;
  ready_scratch : ∀ p, scratch_dir a `prefix_of` p → f !! p = None;
  ready_output_dir : f !! output_dir a = None ∨ f !! output_dir a = Some Dir;
  ready_output_file :
    f !! (output_dir a ++ [output_file a workbook_name]) ≠ Some Dir;
  ready_export_id : dir_name (export_id a) = true;
  ready_workbook_name : file_name workbook_name = true;
  ready_texts : printable project_name = true ∧ printable (now a) = true;
  ready_view_names :
    ∀ v, v ∈ wb_views wb → view_name v ∈ ppt_slides → file_name (view_name v) = true
}.

(** What every step before the clean-up leaves alone: a session that is
    open stays open, the server receives no sign-out, and no file or
    directory goes away. *)
Definition session_kept (w w' : world) : Prop :=
  (signed_in w = true → signed_in w' = true)
  ∧ ∃ evs, trace w' = trace w ++ evs ∧ SignOut ∉ evs.

Definition files_kept (w w' : world) : Prop := dom (fs w) ⊆ dom (fs w').

Definition kept (w w' : world) : Prop := session_kept w w' ∧ files_kept w w'.

(** A computation all of whose runs, raising or not, are in the relation
    [R]. *)
Definition always {A} (R : world → world → Prop) (m : M A) : Prop :=
  ∀ w r w', m w = (r, w') → R w w'.

(** *** Example inputs *)

(** A view the server renders at 1601 x 901 pixels, and one it fails to
    render. *)
Definition ex_view (n : string) : view := View n (λ _, Some (1601, 901)) (λ _, true).
Definition ex_broken_view (n : string) : view := View n (λ _, None) (λ _, true).

Definition ex_workbook : workbook :=
  Workbook "Sales" "Prod" [ex_view "Overview"; ex_view "Detail"; ex_view "Notes"].
Definition ex_other_workbook : workbook := Workbook "Sales" "Dev" [].

(** Two servers that list the same workbooks, on different pages and in a
    different order. *)
Definition ex_server : server := Server true [[ex_other_workbook]; [ex_workbook]].
Definition ex_server_reordered : server := Server true [[ex_workbook; ex_other_workbook]].

(** A server whose workbook has a requested view it fails to render. *)
Definition ex_broken_server : server :=
  Server true [[Workbook "Sales" "Prod" [ex_view "Overview"; ex_broken_view "Detail"]]].

(** The views are requested in the order opposite to that of the workbook. *)
Definition ex_slide_views : list string := ["Detail"; "Overview"].

Definition ex_config : config :=
  Config (Some "Sales") (Some "Prod") (Some ex_slide_views) (Some (FiltersList [])).
Definition ex_config_without_filters : config :=
  Config (Some "Sales") (Some "Prod") (Some ex_slide_views) None.
Definition ex_config_no_view : config :=
  Config (Some "Sales") (Some "Prod") (Some ["Summary"]) (Some FiltersNull).
Definition ex_config_other_project : config :=
  Config (Some "Sales") (Some "QA") (Some ex_slide_views) (Some (FiltersList [])).

(** A workbook with two views whose names agree up to their first ".", and
    a configuration that requests both. *)
Definition ex_dotted_server : server :=
  Server true [[Workbook "Sales" "Prod"
                  [View "Q.1" (λ _, Some (1601, 901)) (λ _, true);
                   View "Q.2" (λ _, Some (800, 600)) (λ _, true)]]].
Definition ex_config_dotted : config :=
  Config (Some "Sales") (Some "Prod") (Some ["Q.1"; "Q.2"]) (Some (FiltersList [])).

(** A scratch directory that holds the image of one view. *)
Definition ex_scratch : gmap path node :=
  <[["img"; "0b5e"; "Overview.png"] := File (Png 1601 901)]>
    (<[["img"; "0b5e"] := Dir]> (<[["img"] := Dir]> ∅)).

Definition ex_args (c : config) (kind : export_kind) : args :=
  Args (Parsed (JObject c)) kind "0b5e" "2024-03-22 10:00:00"
       (9144000, 6858000) (297 # 1, 210 # 1)%Q.

(** *** Vocabulary of the further properties *)

(** The picture lies within a slide or page of the given size. *)
Definition on_page (p : placement) (width height : Q) : Prop :=
  (0 <= p_left p ∧ 0 <= p_top p
   ∧ p_left p + p_width p <= width ∧ p_top p + p_height p <= height)%Q.

(** Two lengths that differ by one unit at most, and two placements whose
    offsets and sizes do.  The script computes a placement in floating
    point, and a presentation stores it in whole EMU: what a slide holds is
    the rational value up to this. *)
Definition within_one (x y : Q) : Prop := (x - 1 <= y ∧ y <= x + 1)%Q.

Definition close_placement (p q : placement) : Prop :=
  within_one (p_left p) (p_left q) ∧ within_one (p_top p) (p_top q)
  ∧ within_one (p_width p) (p_width q) ∧ within_one (p_height p) (p_height q).

(** A number of pixels or of EMU that fits in 31 bits, as the sizes of PNG
    images and of slides do. *)
Definition int31 (z : Z) : Prop := 0 < z < 2 ^ 31.

(** The names of a run are plain: the identifier of the run names a
    directory, and the workbook name of the configuration and the names of
    the views of the workbooks on the server are file names. *)
Definition plain_names (srv : server) (a : args) : bool :=
  dir_name (export_id a)
  && match config_file a with
     | Parsed (JObject c) => from_option file_name true (c_workbook_name c)
     | _ => true
     end
  && forallb (λ wb, forallb (λ v, file_name (view_name v)) (wb_views wb))
       (Pager (workbook_pages srv)).

(** The names of the tiles of a grid of [rows] x [cols] cells: the cells in
    row-major order, the cell of row 0 and column 1 left out. *)
Definition tile_names (img_name : string) (rows cols : nat) : list string :=
  map (λ cell, export_name img_name cell.1 cell.2)
      (filter (λ cell, cell ≠ (0, 1)%nat) (grid rows cols)).

(** The request for the image or the data extract of a view named [n]. *)
Definition render_call (n : string) (e : event) : Prop :=
  e = PopulateImage n ∨ e = PopulateCsv n.

(** The paths of a run: the directory of all scratch directories, the
    scratch directory of the run with what is below it, and the output
    directory with what is below it. *)
Definition run_path (a : args) (p : path) : Prop :=
  p = img_export ∨ scratch_dir a `prefix_of` p ∨ output_dir a `prefix_of` p.

(** Every file and directory outside [S] is as before. *)
Definition unchanged_outside (S : path → Prop) (w w' : world) : Prop :=
  ∀ p, ¬ S p → fs w' !! p = fs w !! p.

End ExportAs.

(** ** text.py *)

Module DeactivateUsers.

Definition INACTIVE_THRESHOLD : Z := 500.

(** A [UserItem]; [last_login] is [None] for a user who never signed in, and
    otherwise an instant in microseconds since the epoch. *)
Record user : Type := User {
  name : string;
  site_role : string;
  last_login : option Z
}.

Record group : Type := Group {
  group_name : string;
  minimum_site_role : option string
}.

(** The server of one site: whether sign-in succeeds, the first page of
    users and of groups ([None] when the request fails), and which updates
    it accepts. *)
Record server : Type := Server {
  accepts_token : bool;
  users_get : option (list user);
  groups_get : option (list group);
  accepts_user_update : user → bool;
  accepts_group_update : group → bool
}.

(** The state of the script: the user objects [server.users.get()] returned
    (the lists the script builds hold references to them, here their
    indices), the rows of [users_info.csv], the number of times the clock
    has been read, the session and the calls the server received. *)
Record world : Type := World {
  users : list user;
  users_info_csv : option (list user);
  clock_reads : nat;
  signed_in : bool;
  trace : list event
}.

Abbreviation M := (M world).

Definition emit (e : event) (w : world) : world :=
  World (users w) (users_info_csv w) (clock_reads w) (signed_in w) (trace w ++ [e]).
Definition set_users (l : list user) (w : world) : world :=
  World l (users_info_csv w) (clock_reads w) (signed_in w) (trace w).
Definition set_signed_in (b : bool) (w : world) : world :=
  World (users w) (users_info_csv w) (clock_reads w) b (trace w).

(** [(now - last_login).days] *)
Definition days (now last_login : Z) : Z := (now - last_login) / 86400000000.

(** [datetime.now(timezone.utc)]: the [k]-th reading of the clock is
    [clock k]. *)
Definition datetime_now (clock : nat → Z) : M Z := λ w,
  (Ok (clock (clock_reads w)),
   World (users w) (users_info_csv w) (S (clock_reads w)) (signed_in w) (trace w)).

(** [user.attr] for the user object behind a reference. *)
Definition deref (r : nat) : M user := λ w,
  match users w !! r with
  | Some u => (Ok u, w)
  | None => (Raise IndexError, w)
  end.

Definition tableau_signin (srv : server) : M unit := λ w,
  if accepts_token srv then (Ok tt, emit SignIn (set_signed_in true w))
  else (Raise ServerResponseError, w).

Definition sign_out : M unit := modify (λ w, emit SignOut (set_signed_in false w)).

Definition get_users (srv : server) : M (list nat) := λ w,
  match users_get srv with
  | Some all_users => (Ok (seq 0 (length all_users)), set_users all_users w)
  | None => (Raise ServerResponseError, w)
  end.

(** TASK 2 of the main program (lines 124-127). *)
Definition viewers (user_list : list nat) : M (list nat) :=
  for_fold user_list (λ viewer_list r,
    u ← deref r;
    if decide (site_role u = "Viewer") then mret (viewer_list ++ [r])
    else mret viewer_list) [].

Definition get_inactive_users (clock : nat → Z) (viewer_list : list nat) : M (list nat) :=
  for_fold viewer_list (λ inactive_users r,
    u ← deref r;
    match last_login u with
    | Some last =>
        now ← datetime_now clock;
        let days_inactive := days now last in
        if INACTIVE_THRESHOLD <? days_inactive then mret (inactive_users ++ [r])
        else mret inactive_users
    | None => mret inactive_users
    end) [].

Definition save_info (inactive_users : list nat) : M unit :=
  parsed_users_info ← for_fold inactive_users (λ rows r,
    u ← deref r; mret (rows ++ [u])) [];
  modify (λ w, World (users w) (Some parsed_users_info) (clock_reads w)
                 (signed_in w) (trace w)).

(** [server.users.update(user)] *)
Definition users_update (srv : server) (u : user) : M unit := λ w,
  if accepts_user_update srv u then (Ok tt, emit (UpdateUser (name u) (site_role u)) w)
  else (Raise ServerResponseError, w).

Definition deactivate_users (inactive_users : list nat) (srv : server) : M unit :=
  if (length inactive_users =? 0)%nat then mret tt else
  for_each inactive_users (λ r,
    u ← deref r;
    let u' := User (name u) "Unlicensed" (last_login u) in
    modify (λ w, set_users (<[r := u']> (users w)) w);;
    users_update srv u').

(** [server.groups.update(group)] *)
Definition groups_update (srv : server) (g : group) : M unit := λ w,
  if accepts_group_update srv g
  then (Ok tt, emit (UpdateGroup (group_name g) (minimum_site_role g)) w)
  else (Raise ServerResponseError, w).

Definition set_minimum_site_role (srv : server) (role : option string) : M unit :=
  match groups_get srv with
  | None => raise ServerResponseError
  | Some all_groups =>
      for_each all_groups (λ g,
        if decide (group_name g = "All Users")
        then groups_update srv (Group (group_name g) role)
        else mret tt)
  end.

Definition disable_minimum_site_role (srv : server) : M unit :=
  set_minimum_site_role srv None.

Definition enable_minimum_site_role (srv : server) : M unit :=
  set_minimum_site_role srv (Some "Viewer").

(** Lines 116-147: the body of the inner [try].  TASK 5 calls
    [deactivate_users(inactive_users)] without the [server] argument of its
    definition, which raises [TypeError] before the body of the function
    runs. *)
Definition site_tasks (clock : nat → Z) (srv : server) : M unit :=
  disable_minimum_site_role srv;;
  user_list ← get_users srv;
  viewer_list ← viewers user_list;
  inactive_users ← get_inactive_users clock viewer_list;
  save_info inactive_users;;
  (raise TypeError : M unit);;
  enable_minimum_site_role srv.

(** Lines 111-153: the body of the loop over the sites. *)
Definition process_site (clock : nat → Z) (srv : server) : M unit :=
  tableau_signin srv;;
  try_finally
    (try_except (site_tasks clock srv) (λ e, mret tt))
    sign_out.

(** Lines 104-158: the main program.  [get_sites()] is called without the
    [server] argument of its definition, which raises [TypeError] before any
    site is processed; the outer [except] swallows it. *)
Definition main (clock : nat → Z) (sites : string → server) : M unit :=
  try_except
    (site_list ← (raise TypeError : M (list string));
     for_each site_list (λ site, process_site clock (sites site)))
    (λ e, mret tt).

(** TASK 2 to TASK 5 as the functions are defined, that is with the server
    passed to [deactivate_users]. *)
Definition deactivate_inactive_viewers (clock : nat → Z) (srv : server)
    (user_list : list nat) : M unit :=
  viewer_list ← viewers user_list;
  inactive_users ← get_inactive_users clock viewer_list;
  deactivate_users inactive_users srv.

(** A user as [deactivate_users] leaves it. *)
Definition unlicensed (u : user) : user := User (name u) "Unlicensed" (last_login u).

(** *** Example inputs *)

Definition day : Z := 86400000000.

(** A viewer last seen 600 days before the clock reading, a viewer who
    never signed in, and an explorer last seen 600 days before. *)
Definition ex_users : list user :=
  [User "ann" "Viewer" (Some 0); User "bob" "Viewer" None;
   User "cy" "Explorer" (Some 0)].

Definition ex_clock (k : nat) : Z := 600 * day.

Definition ex_server : server :=
  Server true (Some ex_users) (Some [Group "All Users" (Some "Viewer")])
         (λ _, true) (λ _, true).

Definition ex_world : world := World ex_users None 0 false [].

(** *** Vocabulary of the further properties *)

(** The update the server receives for a user that is deactivated. *)
Definition deactivation (u : user) : event := UpdateUser (name u) "Unlicensed".

(** The updates for the users behind a list of references, in order. *)
Definition deactivations (w : world) (refs : list nat) : list event :=
  omap (λ r, deactivation <$> users w !! r) refs.

(** The user behind a reference is unlicensed. *)
Definition is_unlicensed (w : world) (r : nat) : Prop :=
  site_role <$> users w !! r = Some "Unlicensed".

(** Between [w] and [w'] the server has received only calls that satisfy
    [P]. *)
Definition calls_only (P : event → Prop) (w w' : world) : Prop :=
  ∃ evs, trace w' = trace w ++ evs ∧ Forall P evs.

(** The calls of the processing of a site as it is written: sign-in,
    sign-out and the removal of the minimum site role of "All Users". *)
Definition site_call (e : event) : Prop :=
  e = SignIn ∨ e = SignOut ∨ e = UpdateGroup "All Users" None.

(** A viewer whose last sign-in is more than the threshold before a reading
    of the clock. *)
Definition inactive_viewer (clock : nat → Z) (u : user) : Prop :=
  site_role u = "Viewer"
  ∧ ∃ t k, last_login u = Some t ∧ INACTIVE_THRESHOLD < days (clock k) t.

End DeactivateUsers.

(** ** Vocabulary shared by the further properties *)

(** Every run of [m], raising or not, relates the world before to the world
    after by [R]. *)
Definition every_run {W A} (R : W → W → Prop) (m : M W A) : Prop :=
  ∀ w r w', m w = (r, w') → R w w'.

(** ** replicatePermissions 1.py *)

Module ReplicatePermissions.

(** *** Strings

    Group names are taken to be ASCII strings, on which [str.lower] changes
    the letters A to Z only. *)

Definition lower_char (c : ascii) : ascii :=
  let n := nat_of_ascii c in
  if ((65 <=? n) && (n <=? 90))%nat then ascii_of_nat (n + 32) else c.

(** [s.lower()] *)
Fixpoint lower (s : string) : string :=
  match s with
  | EmptyString => EmptyString
  | String c s' => String (lower_char c) (lower s')
  end.

(** [s.startswith(p)] *)
Definition startswith (s p : string) : bool := String.prefix p s.

(** [new] before every character of [s] and at its end: what [str.replace]
    gives for an empty pattern. *)
Fixpoint intersperse (new s : string) : string :=
  match s with
  | EmptyString => new
  | String c s' => new +:+ String c (intersperse new s')
  end.

(** The scan of [str.replace] for a pattern [old] that is not empty: the
    occurrences are found from the left, and the characters of an occurrence
    are passed over ([skip] of them are still to pass). *)
Fixpoint replace_from (old new : string) (skip : nat) (s : string) : string :=
  match s with
  | EmptyString => EmptyString
  | String c s' =>
      match skip with
      | S k => replace_from old new k s'
      | O =>
          if String.prefix old s
          then new +:+ replace_from old new (String.length old - 1) s'
          else String c (replace_from old new 0 s')
      end
  end.

(** [s.replace(old, new)] *)
Definition replace (s old new : string) : string :=
  match old with
  | EmptyString => intersperse new s
  | _ => replace_from old new 0 s
  end.

(** *** The items of the server *)

(** A [GroupItem]. *)
Record GroupItem : Type := Group {
  group_id : string;
  name : string
}.

(** The grantee of a rule: its kind (["group"] or ["user"]) and its id. *)
Record ResourceReference : Type := Grantee {
  tag_name : string;
  grantee_id : string
}.

(** The capabilities of a rule: capability and mode. *)
Abbreviation capabilities := (list (string * string)).

(** A [PermissionsRule] as the server returns it. *)
Record PermissionsRule : Type := Rule {
  perm_grantee : ResourceReference;
  perm_capabilities : capabilities
}.

(** A [ProjectItem] with the rules that its properties [permissions],
    [default_workbook_permissions] and [default_datasource_permissions] give
    after the three [populate] calls.  Reading them is taken to succeed and
    to give the same rules each time. *)
Record ProjectItem : Type := Project {
  project_id : string;
  project_name : string;
  permissions : list PermissionsRule;
  default_workbook_permissions : list PermissionsRule;
  default_datasource_permissions : list PermissionsRule
}.

(** A rule the script makes for a group: [TSC.PermissionsRule(grantee,
    capabilities)], where the capabilities are [None] when no rule was
    found to copy them from. *)
Record new_rule : Type := NewRule {
  rule_grantee : GroupItem;
  rule_capabilities : option capabilities
}.

(** The calls the script makes on the server object. *)
Inductive call : Type :=
| SignedIn
| PopulatePermissions (project_id : string)
| PopulateWorkbookDefaultPermissions (project_id : string)
| PopulateDatasourceDefaultPermissions (project_id : string)
| UpdatePermission (project_id : string) (rules : list new_rule)
| UpdateWorkbookDefaultPermissions (project_id : string) (rules : list new_rule)
| UpdateDatasourceDefaultPermissions (project_id : string) (rules : list new_rule).

(** The server as the script meets it through the client library: whether
    the sign-in is accepted, the first page of projects and of groups
    ([None] when the request fails), and whether a call returns, given the
    calls made before.  A request or call that fails raises;
    [ServerResponseError] stands for its exception, whatever the class. *)
Record server : Type := Server {
  accepts_token : bool;
  projects_get : option (list ProjectItem);
  groups_get : option (list GroupItem);
  accepts_call : list call → call → bool
}.

(** The state of the script: the session, and the sign-in and the calls
    made since, in order. *)
Record world : Type := World {
  signed_in : bool;
  trace : list call
}.

Abbreviation M := (M world).

(** *** Dictionaries

    A [dict] with string keys, in insertion order. *)

Abbreviation dict V := (list (string * V)).

(** [d[k] = v]: a key that is present keeps its place. *)
Fixpoint setitem {V} (d : dict V) (k : string) (v : V) : dict V :=
  match d with
  | [] => [(k, v)]
  | (k', v') :: d' =>
      if decide (k' = k) then (k, v) :: d' else (k', v') :: setitem d' k v
  end.

Definition lookup_key {V} (d : dict V) (k : string) : option V :=
  snd <$> List.find (λ kv, bool_decide (kv.1 = k)) d.

(** [d[k]] *)
Definition getitem {V} (d : dict V) (k : string) : result V :=
  match lookup_key d k with
  | Some v => Ok v
  | None => Raise (KeyError k)
  end.

(** [d.values()] and [d.items()] *)
Definition values {V} (d : dict V) : list V := map snd d.
Definition items {V} (d : dict V) : list (string * V) := d.

(** *** The functions of the script *)

(** A call on the server object, which returns or raises. *)
Definition server_call (srv : server) (c : call) : M unit := λ w,
  let w' := World (signed_in w) (trace w ++ [c]) in
  if accepts_call srv (trace w) c then (Ok tt, w') else (Raise ServerResponseError, w').

Definition connect_tableau (srv : server) : M unit := λ w,
  if accepts_token srv then (Ok tt, World true (trace w ++ [SignedIn]))
  else (Raise ServerResponseError, w).

Definition get_projects (srv : server) : M (dict ProjectItem) :=
  match projects_get srv with
  | None => raise ServerResponseError
  | Some all_projects =>
      for_fold all_projects (λ projects project,
        mret (setitem projects (project_id project) project)) []
  end.

Definition get_all_groups (srv : server) : M (dict GroupItem) :=
  match groups_get srv with
  | None => raise ServerResponseError
  | Some all_groups =>
      for_fold all_groups (λ groups group,
        mret (setitem groups (group_id group) group)) []
  end.

Definition check_prod_group (group : GroupItem) : bool :=
  let is_prod := false in
  if startswith (lower (name group)) "prod" then true else is_prod.

Definition get_prod_permissions (project : ProjectItem) (groups : dict GroupItem)
    : M (list PermissionsRule) :=
  for_fold (permissions project) (λ prod_permissions permission,
    if negb (bool_decide (tag_name (perm_grantee permission) = "group"))
    then mret prod_permissions else
    group ← lift (getitem groups (grantee_id (perm_grantee permission)));
    if check_prod_group group then mret (prod_permissions ++ [permission])
    else mret prod_permissions) [].

Definition get_dev_group (group : GroupItem) (group_index : dict GroupItem)
    : option GroupItem :=
  let group_name := lower (name group) in
  let group_name :=
    if startswith group_name "prod" then replace group_name "prod" "dev"
    else group_name in
  List.find (λ group, bool_decide (lower (name group) = group_name))
            (values group_index).

Definition get_default_permission (project : ProjectItem) (group_id : string)
    (permission_type : string) : option capabilities :=
  let permissions :=
    if bool_decide (permission_type = "datasource")
    then default_datasource_permissions project
    else default_workbook_permissions project in
  perm_capabilities
    <$> List.find (λ permission,
                     bool_decide (grantee_id (perm_grantee permission) = group_id))
                  permissions.

Definition get_permission_rule (dev_group : GroupItem) (permission : PermissionsRule) : new_rule :=
  NewRule dev_group (Some (perm_capabilities permission)).

Definition apply_permissions (srv : server) (project : ProjectItem) (dev_group : GroupItem)
    (permission : PermissionsRule) : M unit :=
  let new_permission_rule := get_permission_rule dev_group permission in
  server_call srv (UpdatePermission (project_id project) [new_permission_rule]);;
  let workbook_permissions :=
    get_default_permission project (grantee_id (perm_grantee permission)) "workbook" in
  let new_permission_rule := NewRule dev_group workbook_permissions in
  server_call srv (UpdateWorkbookDefaultPermissions (project_id project)
                     [new_permission_rule]);;
  let datasource_permissions :=
    get_default_permission project (grantee_id (perm_grantee permission)) "datasource" in
  let new_permission_rule := NewRule dev_group datasource_permissions in
  server_call srv (UpdateDatasourceDefaultPermissions (project_id project)
                     [new_permission_rule]).

(** How a call ends when no exception of the shared list leaves it: it
    returns, or the handler of [replicate_dev_permissions] has raised the
    [UnboundLocalError] of Python. *)
Inductive ending : Type :=
| Returned
| UnboundLocalError.

(** The handler of [replicate_dev_permissions]: it prints the local
    [group_name], which is [None] as long as no round of the loop has bound
    it, and then raises the exception again. *)
Definition handler (group_name : option string) (err : exn) : M ending :=
  match group_name with
  | None => mret UnboundLocalError
  | Some _ => raise err
  end.

(** The rounds of the loop of [replicate_dev_permissions].  The first
    statement of the [try] block binds [group_name]: when its lookup raises,
    the handler meets [group_name] as the rounds before have left it; when a
    later statement raises, [group_name] is bound. *)
Fixpoint rounds (srv : server) (project : ProjectItem) (groups : dict GroupItem)
    (group_name : option string) (valid_permisssions : list PermissionsRule) : M ending :=
  match valid_permisssions with
  | [] => mret Returned
  | permission :: rest =>
      match getitem groups (grantee_id (perm_grantee permission)) with
      | Raise err => handler group_name err
      | Ok group =>
          let group_name := Some (name group) in
          try_except
            (group ← lift (getitem groups (grantee_id (perm_grantee permission)));
             match get_dev_group group groups with
             | None => mret tt
             | Some dev_group => apply_permissions srv project dev_group permission
             end)
            (λ err, raise err);;
          rounds srv project groups group_name rest
      end
  end.

Definition replicate_dev_permissions (srv : server) (project : ProjectItem)
    (valid_permisssions : list PermissionsRule) (groups : dict GroupItem) : M ending :=
  let group_name := None in
  rounds srv project groups group_name valid_permisssions.

(** A [for] loop whose rounds call a function that can end with
    [UnboundLocalError], which then leaves the loop as well. *)
Fixpoint for_calls {A} (l : list A) (body : A → M ending) : M ending :=
  match l with
  | [] => mret Returned
  | x :: l' =>
      e ← body x;
      match e with
      | Returned => for_calls l' body
      | UnboundLocalError => mret UnboundLocalError
      end
  end.

Definition init_replicate (srv : server) (all_projects : dict ProjectItem)
    (all_groups : dict GroupItem) : M ending :=
  for_each (items all_projects) (λ '(project_id_, project),
    server_call srv (PopulatePermissions (project_id project));;
    server_call srv (PopulateWorkbookDefaultPermissions (project_id project));;
    server_call srv (PopulateDatasourceDefaultPermissions (project_id project)));;
  for_calls (items all_projects) (λ '(project_id_, project),
    valid_permisssions ← get_prod_permissions project all_groups;
    if (length valid_permisssions =? 0)%nat then mret Returned else
    replicate_dev_permissions srv project valid_permisssions all_groups).

Definition main (srv : server) : M ending :=
  connect_tableau srv;;
  all_projects ← get_projects srv;
  all_groups ← get_all_groups srv;
  init_replicate srv all_projects all_groups.

(** *** Vocabulary of the properties *)

(** The name under which the development group of a group is looked up. *)
Definition dev_name (g : GroupItem) : string :=
  let n := lower (name g) in
  if startswith n "prod" then replace n "prod" "dev" else n.

(** The group a call changes the rules of, if it is an update. *)
Definition updated_groups (c : call) : list GroupItem :=
  match c with
  | UpdatePermission _ rules
  | UpdateWorkbookDefaultPermissions _ rules
  | UpdateDatasourceDefaultPermissions _ rules => map rule_grantee rules
  | _ => []
  end.

(** A rule whose grantee is a group. *)
Definition group_rule (p : PermissionsRule) : bool :=
  bool_decide (tag_name (perm_grantee p) = "group").

(** A rule of a production group of the index. *)
Definition prod_rule (groups : dict GroupItem) (p : PermissionsRule) : bool :=
  group_rule p
  && match lookup_key groups (grantee_id (perm_grantee p)) with
     | Some g => check_prod_group g
     | None => false
     end.

(** The index the two [get_] functions build from a list of items with
    their ids. *)
Definition index_by {V} (key : V → string) (l : list V) : dict V :=
  foldl (λ d x, setitem d (key x) x) [] l.

(** The three updates [apply_permissions] sends, in order. *)
Definition updates (project : ProjectItem) (dev_group : GroupItem) (permission : PermissionsRule)
    : list call :=
  [UpdatePermission (project_id project)
     [NewRule dev_group (Some (perm_capabilities permission))];
   UpdateWorkbookDefaultPermissions (project_id project)
     [NewRule dev_group
        (get_default_permission project (grantee_id (perm_grantee permission)) "workbook")];
   UpdateDatasourceDefaultPermissions (project_id project)
     [NewRule dev_group
        (get_default_permission project (grantee_id (perm_grantee permission))
           "datasource")]].

(** The updates [replicate_dev_permissions] sends for a rule: those of
    [apply_permissions] for the development group of the rule's group, none
    when the index has no such group. *)
Definition replication (project : ProjectItem) (groups : dict GroupItem)
    (permission : PermissionsRule) : list call :=
  match lookup_key groups (grantee_id (perm_grantee permission)) with
  | Some group =>
      match get_dev_group group groups with
      | Some dev_group => updates project dev_group permission
      | None => []
      end
  | None => []
  end.

(** Between [w] and [w'] the server has received only calls that satisfy
    [P]. *)
Definition calls_only (P : call → Prop) (w w' : world) : Prop :=
  ∃ cs, trace w' = trace w ++ cs ∧ Forall P cs.

(** *** Example inputs *)

Definition ex_groups : list GroupItem :=
  [Group "g1" "Prod-Sales"; Group "g2" "DEV-sales"; Group "g3" "Analysts";
   Group "g4" "prod-ops"].

Definition ex_project : ProjectItem :=
  Project "p1" "Sales"
    [Rule (Grantee "group" "g1") [("Read", "Allow")];
     Rule (Grantee "user" "u1") [("Write", "Allow")];
     Rule (Grantee "group" "g3") [("Read", "Allow")];
     Rule (Grantee "group" "g4") [("Read", "Deny")]]
    [Rule (Grantee "group" "g1") [("ViewComments", "Allow")]]
    [].

Definition ex_server : server :=
  Server true (Some [ex_project]) (Some ex_groups) (λ _ _, true).

Definition ex_world : world := World false [].

End ReplicatePermissions.
(** * Properties *)

(** ** Running a computation *)

Section Monad.
Context {W : Type}.

Lemma run_bind {A B} (m : M W A) (k : A → M W B) (w : W) :
  (m ≫= k) w = match m w with
               | (Ok a, w') => k a w'
               | (Raise e, w') => (Raise e, w')
               end.
Proof. reflexivity. Qed.

Lemma run_ret {A} (a : A) (w : W) : (mret a : M W A) w = (Ok a, w).
Proof. reflexivity. Qed.

Lemma run_bind_ok {A B} (m : M W A) (k : A → M W B) (w w' : W) (a : A) :
  m w = (Ok a, w') → (m ≫= k) w = k a w'.
Proof. intros H. rewrite run_bind, H. reflexivity. Qed.

Lemma run_bind_intro {A B} (m : M W A) (k : A → M W B) (w w' : W) (a : A)
    (res : result B * W) :
  m w = (Ok a, w') → k a w' = res → (m ≫= k) w = res.
Proof. intros H <-. now apply run_bind_ok. Qed.

Lemma run_bind_raise {A B} (m : M W A) (k : A → M W B) (w w' : W) (e : exn) :
  m w = (Raise e, w') → (m ≫= k) w = (Raise e, w').
Proof. intros H. rewrite run_bind, H. reflexivity. Qed.

End Monad.

Section Loops.
Context {W : Type}.

(** A loop establishes [I l] from [I []] when each round takes [I done] to
    [I (done ++ [x])]; a round that raises leaves a world in [R]. *)
Lemma for_fold_ind {A S} (I : list A → S → W → Prop) (R : W → Prop)
    (body : S → A → M W S) (l : list A) (acc : S) (w : W) :
  I [] acc w →
  (∀ done x rest acc w r w',
      l = done ++ x :: rest → I done acc w → body acc x w = (r, w') →
      match r with Ok acc' => I (done ++ [x]) acc' w' | Raise _ => R w' end) →
  ∀ r w', for_fold l body acc w = (r, w') →
          match r with Ok acc' => I l acc' w' | Raise _ => R w' end.
Proof.
  revert I acc w. induction l as [|x l IH]; intros I acc w H0 Hstep r w' Hrun.
  - cbn in Hrun. injection Hrun as <- <-. exact H0.
  - cbn [for_fold] in Hrun. rewrite run_bind in Hrun.
    destruct (body acc x w) as [[acc1|e] w1] eqn:Hb.
    + pose proof (Hstep [] x l acc w _ _ eq_refl H0 Hb) as H1. cbn in H1.
      apply (IH (λ done, I (x :: done)) acc1 w1 H1); [|exact Hrun].
      intros done y rest acc2 w2 r2 w2' -> HI Hb2.
      apply (Hstep (x :: done) y rest acc2 w2 r2 w2' eq_refl HI Hb2).
    + injection Hrun as <- <-.
      apply (Hstep [] x l acc w _ _ eq_refl H0 Hb).
Qed.

Lemma for_each_ind {A} (I : list A → W → Prop) (R : W → Prop)
    (body : A → M W unit) (l : list A) (w : W) :
  I [] w →
  (∀ done x rest w r w',
      l = done ++ x :: rest → I done w → body x w = (r, w') →
      match r with Ok _ => I (done ++ [x]) w' | Raise _ => R w' end) →
  ∀ r w', for_each l body w = (r, w') →
          match r with Ok _ => I l w' | Raise _ => R w' end.
Proof.
  intros H0 Hstep r w' Hrun.
  apply (for_fold_ind (λ done _, I done) R (λ _ x, body x) l tt w H0); [|exact Hrun].
  intros done x rest [] w1 r1 w1' Hl HI Hb. exact (Hstep done x rest w1 r1 w1' Hl HI Hb).
Qed.

(** A loop whose rounds cannot raise from a state in [I] does not raise. *)
Lemma for_fold_ok {A S} (I : list A → S → W → Prop)
    (body : S → A → M W S) (l : list A) (acc : S) (w : W) :
  I [] acc w →
  (∀ done x rest acc w,
      l = done ++ x :: rest → I done acc w →
      ∃ acc' w', body acc x w = (Ok acc', w') ∧ I (done ++ [x]) acc' w') →
  ∃ acc' w', for_fold l body acc w = (Ok acc', w') ∧ I l acc' w'.
Proof.
  intros H0 Hstep.
  destruct (for_fold l body acc w) as [r w'] eqn:Hrun.
  assert (H : match r with Ok acc' => I l acc' w' | Raise _ => False end).
  { apply (for_fold_ind I (λ _, False) body l acc w H0); [|exact Hrun].
    intros done x rest acc1 w1 r1 w1' Hl HI Hb.
    destruct (Hstep done x rest acc1 w1 Hl HI) as (acc' & w'' & Hb' & HI').
    rewrite Hb in Hb'. injection Hb' as -> ->. exact HI'. }
  destruct r as [acc'|e]; [|contradiction]. eauto.
Qed.

Lemma for_each_ok {A} (I : list A → W → Prop)
    (body : A → M W unit) (l : list A) (w : W) :
  I [] w →
  (∀ done x rest w,
      l = done ++ x :: rest → I done w →
      ∃ w', body x w = (Ok tt, w') ∧ I (done ++ [x]) w') →
  ∃ w', for_each l body w = (Ok tt, w') ∧ I l w'.
Proof.
  intros H0 Hstep.
  destruct (for_fold_ok (λ done _, I done) (λ _ x, body x) l tt w H0) as ([] & w' & Hr & HI).
  - intros done x rest [] w1 Hl HI. destruct (Hstep done x rest w1 Hl HI) as (w' & Hb & HI').
    exists tt, w'. split; assumption.
  - exists w'. split; assumption.
Qed.

End Loops.

(** ** Scaling and centring of a picture *)

Section Layout.
Import ExportAs.
Local Open Scope Q_scope.

Lemma inject_Z_pos (z : Z) : (0 < z)%Z → 0 < inject_Z z.
Proof. intros H. change 0 with (inject_Z 0). now rewrite <- Zlt_Qlt. Qed.

Lemma Qle_bool_false (x y : Q) : Qle_bool x y = false → y < x.
Proof.
  intros H. apply Qnot_le_lt. intros Hle.
  apply Qle_bool_iff in Hle. congruence.
Qed.

Lemma Qmul_div_cancel (a b : Q) : 0 < b → b * (a / b) == a.
Proof. intros Hb. field. lra. Qed.

(** The slide variant, for an image with positive sizes: the picture is the
    image scaled by [scale], the smaller of the two fit ratios. *)
Lemma ppt_placement_scale (sw sh iw ih : Z) :
  (0 < iw)%Z → (0 < ih)%Z →
  let scale := Qmin (inject_Z (Inches 8) / inject_Z iw) (inject_Z (Inches 6) / inject_Z ih) in
  add_image_to_ppt_placement sw sh iw ih =
    Ok (Placement ((inject_Z sw - inject_Z iw * scale) / 2)
                  ((inject_Z sh - inject_Z ih * scale) / 2)
                  (inject_Z iw * scale) (inject_Z ih * scale)).
Proof.
  intros Hw Hh scale. unfold add_image_to_ppt_placement.
  destruct (Z.eqb_spec iw 0) as [->|_]; [lia|].
  destruct (Z.eqb_spec ih 0) as [->|_]; [lia|]. reflexivity.
Qed.

(** The document variant: the picture is the image scaled by the smallest of
    1 and the two fit ratios. *)
Lemma pdf_placement_scale (pw ph : Q) (iw ih : Z) :
  (0 < iw)%Z → (0 < ih)%Z →
  ∃ p, add_image_to_pdf_placement pw ph iw ih = Ok p
       ∧ p_width p == inject_Z iw * Qmin 1 (Qmin (pw / inject_Z iw) (ph / inject_Z ih))
       ∧ p_height p == inject_Z ih * Qmin 1 (Qmin (pw / inject_Z iw) (ph / inject_Z ih))
       ∧ p_left p == (pw - p_width p) / 2
       ∧ p_top p == (ph - p_height p) / 2.
Proof.
  intros Hw Hh.
  pose proof (inject_Z_pos _ Hw) as Hw'. pose proof (inject_Z_pos _ Hh) as Hh'.
  pose proof (Qmul_div_cancel pw _ Hw') as Ew.
  pose proof (Qmul_div_cancel ph _ Hh') as Eh.
  unfold add_image_to_pdf_placement.
  destruct (Z.eqb_spec iw 0) as [->|_]; [lia|].
  destruct (Z.eqb_spec ih 0) as [->|_]; [lia|].
  set (rw := pw / inject_Z iw) in *. set (rh := ph / inject_Z ih) in *.
  assert (Hscaled : ∃ p,
    (if negb (Qle_bool rh rw)
     then Ok (pw, inject_Z ih * rw) else Ok (inject_Z iw * rh, ph)) = Ok p
    ∧ (rw < 1 ∨ rh < 1 →
       p.1 == inject_Z iw * Qmin 1 (Qmin rw rh) ∧ p.2 == inject_Z ih * Qmin 1 (Qmin rw rh))).
  { destruct (Qle_bool rh rw) eqn:Br; cbn [negb];
      eexists; (split; [reflexivity|]); intros Hlt; cbn [fst snd].
    - apply Qle_bool_iff in Br.
      rewrite (Q.min_r rw rh) by assumption.
      rewrite (Q.min_r 1 rh) by (destruct Hlt; lra).
      split; [reflexivity | symmetry; exact Eh].
    - apply Qle_bool_false in Br.
      rewrite (Q.min_l rw rh) by lra.
      rewrite (Q.min_r 1 rw) by (destruct Hlt; lra).
      split; [symmetry; exact Ew | reflexivity]. }
  destruct Hscaled as ([nw nh] & Hsz & Hsc). cbn [fst snd] in Hsc.
  destruct (Qle_bool (inject_Z iw) pw) eqn:Bw;
    destruct (Qle_bool (inject_Z ih) ph) eqn:Bh; cbn [negb orb].
  - (* the image fits: it is placed at its own size *)
    apply Qle_bool_iff in Bw, Bh.
    assert (1 <= rw) by (apply Qnot_lt_le; intros Hlt; nra).
    assert (1 <= rh) by (apply Qnot_lt_le; intros Hlt; nra).
    eexists. split; [reflexivity|]. cbn.
    rewrite (Q.min_l 1 (Qmin rw rh)) by (apply Q.min_glb; assumption).
    repeat split; ring.
  - apply Qle_bool_false in Bh.
    assert (rh < 1) by (apply Qnot_le_lt; intros Hle; nra).
    rewrite Hsz. eexists. split; [reflexivity|]. cbn.
    destruct Hsc as [-> ->]; [now right|]. repeat split; reflexivity.
  - apply Qle_bool_false in Bw.
    assert (rw < 1) by (apply Qnot_le_lt; intros Hle; nra).
    rewrite Hsz. eexists. split; [reflexivity|]. cbn.
    destruct Hsc as [-> ->]; [now left|]. repeat split; reflexivity.
  - apply Qle_bool_false in Bw.
    assert (rw < 1) by (apply Qnot_le_lt; intros Hle; nra).
    rewrite Hsz. eexists. split; [reflexivity|]. cbn.
    destruct Hsc as [-> ->]; [now left|]. repeat split; reflexivity.
Qed.

End Layout.

Section LayoutClaims.
Import ExportAs.
Local Open Scope Q_scope.

(** C5.  For an image with positive sizes, the picture put on a slide stays
    within 8 x 6 inches, the picture put on a page within the page, and in
    both the ratio of width to height is that of the image. *)
Theorem scaled_placement_within_bounds (sw sh iw ih : Z) (pw ph : Q) :
  (0 < iw)%Z → (0 < ih)%Z → 0 < pw → 0 < ph →
  (∃ p, add_image_to_ppt_placement sw sh iw ih = Ok p
        ∧ p_width p <= inject_Z (Inches 8) ∧ p_height p <= inject_Z (Inches 6)
        ∧ 0 < p_height p
        ∧ p_width p / p_height p == inject_Z iw / inject_Z ih)
  ∧ (∃ p, add_image_to_pdf_placement pw ph iw ih = Ok p
          ∧ p_width p <= pw ∧ p_height p <= ph
          ∧ 0 < p_height p
          ∧ p_width p / p_height p == inject_Z iw / inject_Z ih).
Proof.
  intros Hw Hh Hpw Hph.
  pose proof (inject_Z_pos _ Hw) as Hw'. pose proof (inject_Z_pos _ Hh) as Hh'.
  assert (Hscale : ∀ a b, 0 < a → 0 < b →
            0 < Qmin (a / inject_Z iw) (b / inject_Z ih)).
  { intros a b Ha Hb.
    pose proof (Qmul_div_cancel a _ Hw'). pose proof (Qmul_div_cancel b _ Hh').
    destruct (Q.min_spec (a / inject_Z iw) (b / inject_Z ih)) as [[_ ->]|[_ ->]];
      apply Qnot_le_lt; intros Hle; nra. }
  split.
  - rewrite ppt_placement_scale by assumption. eexists. split; [reflexivity|]. cbn.
    set (mw := inject_Z (Inches 8)). set (mh := inject_Z (Inches 6)).
    assert (Hmw : 0 < mw) by (apply inject_Z_pos; reflexivity).
    assert (Hmh : 0 < mh) by (apply inject_Z_pos; reflexivity).
    pose proof (Hscale mw mh Hmw Hmh) as Hs.
    pose proof (Q.le_min_l (mw / inject_Z iw) (mh / inject_Z ih)).
    pose proof (Q.le_min_r (mw / inject_Z iw) (mh / inject_Z ih)).
    pose proof (Qmul_div_cancel mw _ Hw'). pose proof (Qmul_div_cancel mh _ Hh').
    set (s := Qmin _ _) in *.
    repeat split; try nra. field. split; lra.
  - destruct (pdf_placement_scale pw ph iw ih Hw Hh) as (p & Hp & Ewd & Eht & _ & _).
    exists p. split; [exact Hp|].
    pose proof (Hscale pw ph Hpw Hph) as Hs.
    pose proof (Q.le_min_l (pw / inject_Z iw) (ph / inject_Z ih)).
    pose proof (Q.le_min_r (pw / inject_Z iw) (ph / inject_Z ih)).
    pose proof (Qmul_div_cancel pw _ Hw'). pose proof (Qmul_div_cancel ph _ Hh').
    set (m := Qmin (pw / inject_Z iw) (ph / inject_Z ih)) in *.
    pose proof (Q.le_min_r 1 m).
    assert (0 < Qmin 1 m) by (destruct (Q.min_spec 1 m) as [[_ ->]|[_ ->]]; lra).
    set (s := Qmin 1 m) in *.
    rewrite Ewd, Eht. repeat split; try nra. field. split; lra.
Qed.

Lemma scaled_placement_within_bounds_witness :
  (∃ p, add_image_to_ppt_placement 9144000 6858000 1600 450 = Ok p
        ∧ p_width p <= inject_Z (Inches 8) ∧ p_height p <= inject_Z (Inches 6)
        ∧ 0 < p_height p
        ∧ p_width p / p_height p == inject_Z 1600 / inject_Z 450)
  ∧ (∃ p, add_image_to_pdf_placement (297#1) (210#1) 1600 450 = Ok p
          ∧ p_width p <= 297#1 ∧ p_height p <= 210#1
          ∧ 0 < p_height p
          ∧ p_width p / p_height p == inject_Z 1600 / inject_Z 450).
Proof.
  apply (scaled_placement_within_bounds 9144000 6858000 1600 450 (297#1) (210#1));
    reflexivity.
Defined.

(** C4, as the code has it.  On a slide the image is always scaled by the
    smaller of the two fit ratios of the 8 x 6 inch area, whether that
    enlarges or reduces it; on a page it is scaled by the smaller of the two
    fit ratios of the page only when it exceeds the page, and is otherwise
    kept at its size, so it is never enlarged.  In both the picture is
    centred horizontally and vertically. *)
Theorem placement_scaled_and_centred (sw sh iw ih : Z) (pw ph : Q) :
  (0 < iw)%Z → (0 < ih)%Z →
  (∃ p, add_image_to_ppt_placement sw sh iw ih = Ok p
        ∧ (let scale := Qmin (inject_Z (Inches 8) / inject_Z iw)
                             (inject_Z (Inches 6) / inject_Z ih) in
           p_width p == inject_Z iw * scale ∧ p_height p == inject_Z ih * scale)
        ∧ p_left p + p_width p / 2 == inject_Z sw / 2
        ∧ p_top p + p_height p / 2 == inject_Z sh / 2)
  ∧ (∃ p, add_image_to_pdf_placement pw ph iw ih = Ok p
          ∧ (let scale := Qmin 1 (Qmin (pw / inject_Z iw) (ph / inject_Z ih)) in
             p_width p == inject_Z iw * scale ∧ p_height p == inject_Z ih * scale)
          ∧ p_width p <= inject_Z iw ∧ p_height p <= inject_Z ih
          ∧ p_left p + p_width p / 2 == pw / 2
          ∧ p_top p + p_height p / 2 == ph / 2).
Proof.
  intros Hw Hh.
  pose proof (inject_Z_pos _ Hw) as Hw'. pose proof (inject_Z_pos _ Hh) as Hh'.
  split.
  - rewrite ppt_placement_scale by assumption. eexists. split; [reflexivity|]. cbn.
    repeat split; try reflexivity; field.
  - destruct (pdf_placement_scale pw ph iw ih Hw Hh) as (p & Hp & Ewd & Eht & El & Et).
    exists p. split; [exact Hp|]. cbn zeta.
    pose proof (Q.le_min_l 1 (Qmin (pw / inject_Z iw) (ph / inject_Z ih))).
    set (s := Qmin 1 _) in *.
    repeat split; try assumption.
    + rewrite Ewd. nra.
    + rewrite Eht. nra.
    + rewrite El. field.
    + rewrite Et. field.
Qed.

Lemma placement_scaled_and_centred_witness :
  (∃ p, add_image_to_ppt_placement 9144000 6858000 100 100 = Ok p
        ∧ (let scale := Qmin (inject_Z (Inches 8) / inject_Z 100)
                             (inject_Z (Inches 6) / inject_Z 100) in
           p_width p == inject_Z 100 * scale ∧ p_height p == inject_Z 100 * scale)
        ∧ p_left p + p_width p / 2 == inject_Z 9144000 / 2
        ∧ p_top p + p_height p / 2 == inject_Z 6858000 / 2)
  ∧ (∃ p, add_image_to_pdf_placement (297#1) (210#1) 100 100 = Ok p
          ∧ (let scale := Qmin 1 (Qmin ((297#1) / inject_Z 100) ((210#1) / inject_Z 100)) in
             p_width p == inject_Z 100 * scale ∧ p_height p == inject_Z 100 * scale)
          ∧ p_width p <= inject_Z 100 ∧ p_height p <= inject_Z 100
          ∧ p_left p + p_width p / 2 == (297#1) / 2
          ∧ p_top p + p_height p / 2 == (210#1) / 2).
Proof.
  apply (placement_scaled_and_centred 9144000 6858000 100 100 (297#1) (210#1));
    reflexivity.
Defined.

(** C4 as stated fails on the slide variant: an image of 100 x 100 pixels is
    put on the slide 6 inches wide and high, which is more than its native
    size and more than its pixel count. *)
Lemma ppt_enlarges_small_image :
  ∃ p, add_image_to_ppt_placement 9144000 6858000 100 100 = Ok p
       ∧ p_width p == inject_Z (Inches 6) ∧ p_height p == inject_Z (Inches 6)
       ∧ ¬ never_enlarged 100 100 p.
Proof.
  eexists. split; [reflexivity|]. split; [reflexivity|]. split; [reflexivity|].
  unfold never_enlarged. cbn. intros [H _]. revert H. vm_compute. intros H. apply H. reflexivity.
Qed.

End LayoutClaims.

(** ** Workbook resolution *)

Section Resolution.
Import ExportAs.

Lemma get_workbook_cases (srv : server) (workbook_name project_name : string) :
  get_workbook srv workbook_name project_name =
    match matching_workbooks srv workbook_name project_name with
    | [] => Raise (NotFoundError workbook_name project_name)
    | [workbook] => Ok workbook
    | _ :: _ :: _ => Raise (AmbiguousError workbook_name project_name)
    end.
Proof.
  unfold get_workbook, matching_workbooks.
  destruct (filter _ _) as [|w1 [|w2 l]]; reflexivity.
Qed.

Lemma not_found_is_not_ambiguous (workbook_name project_name : string) :
  NotFoundError workbook_name project_name ≠ AmbiguousError workbook_name project_name.
Proof. unfold NotFoundError, AmbiguousError. intros H. discriminate H. Qed.

(** C2.  Over the workbooks of all pages that match the name and the project
    exactly, resolution raises the not-found error when none matches, the
    ambiguity error when two or more match, and returns the workbook when
    exactly one matches; the two errors differ, and a server that lists the
    same workbooks in another order gives the same outcome. *)
Theorem get_workbook_resolution (srv srv' : server) (workbook_name project_name : string) :
  Pager (workbook_pages srv') ≡ₚ Pager (workbook_pages srv) →
  get_workbook srv workbook_name project_name =
    match matching_workbooks srv workbook_name project_name with
    | [] => Raise (NotFoundError workbook_name project_name)
    | [workbook] => Ok workbook
    | _ :: _ :: _ => Raise (AmbiguousError workbook_name project_name)
    end
  ∧ NotFoundError workbook_name project_name ≠ AmbiguousError workbook_name project_name
  ∧ get_workbook srv' workbook_name project_name
    = get_workbook srv workbook_name project_name.
Proof.
  intros Hperm. split; [apply get_workbook_cases|].
  split; [apply not_found_is_not_ambiguous|].
  rewrite !get_workbook_cases.
  assert (Hm : matching_workbooks srv' workbook_name project_name
               ≡ₚ matching_workbooks srv workbook_name project_name).
  { unfold matching_workbooks. now rewrite Hperm. }
  pose proof (Permutation_length Hm) as Hlen.
  destruct (matching_workbooks srv' workbook_name project_name) as [|a [|b l]];
    destruct (matching_workbooks srv workbook_name project_name) as [|a' [|b' l']];
    try discriminate Hlen; try reflexivity.
  apply Permutation_singleton_l in Hm. now inversion Hm.
Qed.

End Resolution.

(** ** Deactivation of inactive viewers *)

Section Deactivation.
Import DeactivateUsers.

Lemma run_deref (r : nat) (w : world) :
  deref r w = (match users w !! r with Some u => Ok u | None => Raise IndexError end, w).
Proof. unfold deref. destruct (users w !! r); reflexivity. Qed.

(** TASK 2 reads the users and keeps the references to viewers. *)
Lemma viewers_spec (user_list : list nat) (w : world) (r : result (list nat)) (w' : world) :
  viewers user_list w = (r, w') →
  w' = w ∧ ∀ viewer_list, r = Ok viewer_list →
           ∀ i, i ∈ viewer_list → ∃ u, users w !! i = Some u ∧ site_role u = "Viewer".
Proof.
  intros Hrun. unfold viewers in Hrun.
  assert (Hr : match r with
               | Ok acc => w' = w ∧ ∀ i, i ∈ acc →
                             ∃ u, users w !! i = Some u ∧ site_role u = "Viewer"
               | Raise _ => w' = w
               end).
  { refine (for_fold_ind
      (λ _ acc w1, w1 = w ∧ ∀ i, i ∈ acc → ∃ u, users w !! i = Some u ∧ site_role u = "Viewer")
      (λ w1, w1 = w) _ _ _ _ _ _ _ _ Hrun);
      [split; [easy|]; intros i Hi; now apply not_elem_of_nil in Hi|].
    intros _ x _ acc w1 r1 w1' _ [-> Hacc] Hb.
    rewrite run_bind, run_deref in Hb.
    destruct (users w !! x) as [u|] eqn:Hu; [|injection Hb as <- <-; reflexivity].
    destruct (decide (site_role u = "Viewer")) as [Hv|Hv]; injection Hb as <- <-;
      (split; [reflexivity|]); [|exact Hacc].
    intros i [Hi| ->%list_elem_of_singleton]%elem_of_app; [auto|eauto]. }
  destruct r as [acc|e].
  - destruct Hr as [-> Hr]. split; [reflexivity|]. intros ? [= <-]. exact Hr.
  - split; [exact Hr|]. intros ? [=].
Qed.

(** TASK 3 only reads the clock; it keeps the references to users who have
    signed in and whose last sign-in is more than the threshold back. *)
Lemma get_inactive_users_spec (clock : nat → Z) (viewer_list : list nat)
    (w : world) (r : result (list nat)) (w' : world) :
  get_inactive_users clock viewer_list w = (r, w') →
  users w' = users w ∧ trace w' = trace w
  ∧ ∀ inactive_users, r = Ok inactive_users →
      ∀ i, i ∈ inactive_users →
        i ∈ viewer_list
        ∧ ∃ u t k, users w !! i = Some u ∧ last_login u = Some t
                   ∧ INACTIVE_THRESHOLD < days (clock k) t.
Proof.
  intros Hrun. unfold get_inactive_users in Hrun.
  set (P := λ i, i ∈ viewer_list
                 ∧ ∃ u t k, users w !! i = Some u ∧ last_login u = Some t
                            ∧ INACTIVE_THRESHOLD < days (clock k) t).
  assert (Hr : match r with
               | Ok acc => (users w' = users w ∧ trace w' = trace w) ∧ ∀ i, i ∈ acc → P i
               | Raise _ => users w' = users w ∧ trace w' = trace w
               end).
  { refine (for_fold_ind
      (λ _ acc w1, (users w1 = users w ∧ trace w1 = trace w) ∧ ∀ i, i ∈ acc → P i)
      (λ w1, users w1 = users w ∧ trace w1 = trace w) _ _ _ _ _ _ _ _ Hrun);
      [split; [easy|]; intros i Hi; now apply not_elem_of_nil in Hi|].
    intros done x rest acc w1 r1 w1' Hl [[Hu Ht] Hacc] Hb.
    rewrite run_bind, run_deref in Hb. rewrite Hu in Hb.
    destruct (users w !! x) as [u|] eqn:Hx; [|injection Hb as <- <-; easy].
    destruct (last_login u) as [t|] eqn:Hlast; [|injection Hb as <- <-; easy].
    rewrite run_bind in Hb. cbn [datetime_now] in Hb.
    destruct (INACTIVE_THRESHOLD <? days (clock (clock_reads w1)) t) eqn:Hd;
      injection Hb as <- <-; (split; [easy|]); [|exact Hacc].
    intros i [Hi| ->%list_elem_of_singleton]%elem_of_app; [auto|].
    split; [rewrite Hl; set_solver|].
    exists u, t, (clock_reads w1). apply Z.ltb_lt in Hd. auto. }
  destruct r as [acc|e].
  - destruct Hr as [[? ?] Hr]. split; [assumption|]. split; [assumption|].
    intros ? [= <-]. exact Hr.
  - destruct Hr. split; [assumption|]. split; [assumption|]. intros ? [=].
Qed.

(** TASK 5 changes the users it is given, and no other. *)
Lemma deactivate_users_spec (inactive_users : list nat) (srv : server)
    (w : world) (r : result unit) (w' : world) :
  deactivate_users inactive_users srv w = (r, w') →
  ∀ i, users w' !! i = users w !! i
       ∨ (i ∈ inactive_users ∧ ∃ u, users w !! i = Some u ∧ users w' !! i = Some (unlicensed u)).
Proof.
  intros Hrun. unfold deactivate_users in Hrun.
  destruct (length inactive_users =? 0)%nat; [injection Hrun as <- <-; auto|].
  set (I := λ w1 : world, ∀ i, users w1 !! i = users w !! i
       ∨ (i ∈ inactive_users ∧ ∃ u, users w !! i = Some u ∧ users w1 !! i = Some (unlicensed u))).
  assert (Hr : match r with Ok _ => I w' | Raise _ => I w' end).
  { refine (for_each_ind (λ _, I) I _ _ _ _ _ _ _ Hrun); [intros i; now left|].
    intros done x rest w1 r1 w1' Hl HI Hb.
    rewrite run_bind, run_deref in Hb.
    destruct (users w1 !! x) as [u|] eqn:Hx; [|injection Hb as <- <-; exact HI].
    rewrite run_bind in Hb. cbn [modify] in Hb. unfold users_update in Hb.
    assert (HI' : I (set_users (<[x:=User (name u) "Unlicensed" (last_login u)]> (users w1)) w1)).
    { intros i. cbn [set_users users]. destruct (decide (i = x)) as [->|Hne].
      - right. split; [rewrite Hl; set_solver|].
        rewrite list_lookup_insert_eq by (eapply lookup_lt_Some; eassumption).
        destruct (HI x) as [E|(_ & u0 & E0 & E1)].
        + exists u. rewrite <- E. auto.
        + exists u0. split; [exact E0|]. rewrite Hx in E1. injection E1 as ->. reflexivity.
      - rewrite list_lookup_insert_ne by congruence. apply HI. }
    destruct (accepts_user_update srv _); injection Hb as <- <-; exact HI'. }
  destruct r; exact Hr.
Qed.

Lemma set_minimum_site_role_users (srv : server) (role : option string)
    (w : world) (r : result unit) (w' : world) :
  set_minimum_site_role srv role w = (r, w') → users w' = users w.
Proof.
  unfold set_minimum_site_role. destruct (groups_get srv) as [all_groups|];
    [|now intros [= <- <-]].
  intros Hrun.
  assert (Hr : match r with Ok _ => users w' = users w | Raise _ => users w' = users w end).
  { refine (for_each_ind (λ _ w1, users w1 = users w) (λ w1, users w1 = users w)
              _ _ _ _ _ _ _ Hrun); [reflexivity|].
    intros done g rest w1 r1 w1' _ Hu Hb.
    destruct (decide (group_name g = "All Users")).
    - unfold groups_update in Hb.
      destruct (accepts_group_update srv _); injection Hb as <- <-; exact Hu.
    - injection Hb as <- <-. exact Hu. }
  now destruct r.
Qed.

Lemma save_info_users (inactive_users : list nat) (w : world) (r : result unit) (w' : world) :
  save_info inactive_users w = (r, w') → users w' = users w.
Proof.
  unfold save_info. rewrite run_bind.
  destruct (for_fold inactive_users _ [] w) as [r1 w1] eqn:Hrows.
  assert (Hr : match r1 with Ok _ => w1 = w | Raise _ => w1 = w end).
  { refine (for_fold_ind (λ _ _ w2, w2 = w) (λ w2, w2 = w) _ _ _ _ _ _ _ _ Hrows);
      [reflexivity|].
    intros done x rest acc w2 r2 w2' _ -> Hb.
    rewrite run_bind, run_deref in Hb.
    destruct (users w !! x); now injection Hb as <- <-. }
  destruct r1; subst w1; now intros [= <- <-].
Qed.

(** The main program, for one site: since TASK 5 raises before it changes
    anything, the users are as the server returned them, or as they were
    when the script did not get that far. *)
Lemma process_site_users (clock : nat → Z) (srv : server)
    (w : world) (r : result unit) (w' : world) :
  process_site clock srv w = (r, w') →
  users w' = users w ∨ Some (users w') = users_get srv.
Proof.
  unfold process_site. rewrite run_bind. unfold tableau_signin at 1.
  destruct (accepts_token srv); [|intros [= <- <-]; now left].
  set (w0 := emit SignIn (set_signed_in true w)).
  assert (Htasks : ∀ r2 w2, site_tasks clock srv w0 = (r2, w2) →
            users w2 = users w ∨ Some (users w2) = users_get srv).
  { intros r2 w2. unfold site_tasks. rewrite run_bind.
    destruct (disable_minimum_site_role srv w0) as [[[]|e] w1] eqn:H1;
      apply set_minimum_site_role_users in H1; [|intros [= <- <-]; now left].
    rewrite run_bind. unfold get_users at 1.
    destruct (users_get srv) as [all_users|]; [|intros [= <- <-]; now left].
    rewrite run_bind.
    destruct (viewers _ _) as [[viewer_list|e] w3] eqn:H3;
      apply viewers_spec in H3 as [-> _]; [|intros [= <- <-]; now right].
    rewrite run_bind.
    destruct (get_inactive_users _ _ _) as [[inactive_users|e] w4] eqn:H4;
      apply get_inactive_users_spec in H4 as (H4 & _ & _);
      [|intros [= <- <-]; right; now rewrite H4].
    rewrite run_bind.
    destruct (save_info _ _) as [[[]|e] w5] eqn:H5; apply save_info_users in H5;
      intros [= <- <-]; right; now rewrite H5, H4. }
  unfold try_finally, try_except.
  destruct (site_tasks clock srv w0) as [[[]|e] w2] eqn:H2;
    specialize (Htasks _ _ eq_refl); intros [= <- <-]; exact Htasks.
Qed.

(** The main program does nothing: the call [get_sites()] raises, and the
    error is swallowed. *)
Lemma main_does_nothing (clock : nat → Z) (sites : string → server) (w : world) :
  main clock sites w = (Ok tt, w).
Proof. reflexivity. Qed.

(** C10.  Whatever the outcome of TASK 2 to TASK 5, a user is either left as
    it was or is a viewer who has signed in, whose last sign-in was more than
    500 days before a reading of the clock, and who is now unlicensed; a
    user who never signed in is left as it was.  In the main program, which
    calls [deactivate_users] without its server, no user is changed at
    all. *)
Theorem unlicensed_only_if_inactive_viewer (clock : nat → Z) (srv : server)
    (user_list : list nat) (w : world) (r : result unit) (w' : world) (i : nat) (u : user)
    (ws : world) (rs : result unit) (ws' : world) :
  deactivate_inactive_viewers clock srv user_list w = (r, w') →
  users w !! i = Some u →
  process_site clock srv ws = (rs, ws') →
  (users w' !! i = Some u
   ∨ (site_role u = "Viewer"
      ∧ (∃ t k, last_login u = Some t ∧ 500 < days (clock k) t)
      ∧ users w' !! i = Some (User (name u) "Unlicensed" (last_login u))))
  ∧ (last_login u = None → users w' !! i = Some u)
  ∧ (users ws' = users ws ∨ Some (users ws') = users_get srv).
Proof.
  intros Hrun Hu Hsite. unfold deactivate_inactive_viewers in Hrun.
  rewrite run_bind in Hrun.
  destruct (viewers user_list w) as [rv w1] eqn:Hv.
  apply viewers_spec in Hv as [-> Hv].
  assert (Hmain : users w' !! i = Some u
   ∨ (site_role u = "Viewer"
      ∧ (∃ t k, last_login u = Some t ∧ 500 < days (clock k) t)
      ∧ users w' !! i = Some (User (name u) "Unlicensed" (last_login u)))).
  { destruct rv as [viewer_list|e]; [|injection Hrun as <- <-; now left].
    rewrite run_bind in Hrun.
    destruct (get_inactive_users clock viewer_list w) as [ri w2] eqn:Hi.
    apply get_inactive_users_spec in Hi as (Hu2 & _ & Hi).
    destruct ri as [inactive_users|e]; [|injection Hrun as <- <-; left; congruence].
    apply deactivate_users_spec with (i := i) in Hrun.
    rewrite Hu2 in Hrun.
    destruct Hrun as [E|(Hin & u0 & E0 & E1)]; [left; congruence|].
    right. rewrite Hu in E0. injection E0 as <-.
    destruct (Hi _ eq_refl i Hin) as (Hvl & u1 & t & k & E2 & Hlast & Hdays).
    rewrite Hu in E2. injection E2 as <-.
    destruct (Hv _ eq_refl i Hvl) as (u2 & E3 & Hrole).
    rewrite Hu in E3. injection E3 as <-.
    split; [exact Hrole|]. split; [eauto|exact E1]. }
  split; [exact Hmain|]. split; [|now apply process_site_users in Hsite].
  intros Hnone. destruct Hmain as [E|(_ & (t & k & Hl & _) & _)]; [exact E|congruence].
Qed.

End Deactivation.

(** ** The file system *)

Section FileSystem.
Import ExportAs.

Lemma dirname_join (d : path) (n : string) : dirname (os_path_join d n) = d.
Proof. apply removelast_last. Qed.

Lemma join_inj (d : path) (n m : string) : d ++ [n] = d ++ [m] → n = m.
Proof. intros H. apply app_inv_head in H. now injection H. Qed.

Lemma join_ne_self (d : path) (n : string) : d ≠ d ++ [n].
Proof. intros H. apply (f_equal length) in H. rewrite length_app in H. cbn in H. lia. Qed.

Lemma join_join_ne (d : path) (n m k : string) : d ++ [k] ≠ (d ++ [n]) ++ [m].
Proof. intros H. apply (f_equal length) in H. rewrite !length_app in H. cbn in H. lia. Qed.

Lemma join_join_ne_self (d : path) (n m : string) : d ≠ (d ++ [n]) ++ [m].
Proof. intros H. apply (f_equal length) in H. rewrite !length_app in H. cbn in H. lia. Qed.

Lemma is_dir_Some (f : gmap path node) (p : path) :
  f !! p = Some Dir → is_dir f p = true.
Proof. intros H. unfold is_dir. rewrite H. now destruct p. Qed.

Lemma strip_prefix_Some (d p r : path) : strip_prefix d p = Some r ↔ p = d ++ r.
Proof.
  revert p. induction d as [|x d IH]; intros p; cbn.
  - split; congruence.
  - destruct p as [|y p]; [split; discriminate|].
    destruct (decide (x = y)) as [->|Hne].
    + rewrite IH. split; congruence.
    + split; [discriminate|]. intros [= ? ?]. congruence.
Qed.

Lemma child_of_Some (d p : path) (n : string) : child_of d p = Some n ↔ p = d ++ [n].
Proof.
  unfold child_of. split.
  - destruct (strip_prefix d p) as [[|m [|? ?]]|] eqn:E; try discriminate.
    intros [= ->]. now apply strip_prefix_Some.
  - intros ->. now rewrite (proj2 (strip_prefix_Some d (d ++ [n]) [n]) eq_refl).
Qed.

Lemma elem_of_children (f : gmap path node) (d : path) (n : string) :
  n ∈ children f d ↔ is_Some (f !! (d ++ [n])).
Proof.
  unfold children. rewrite list_elem_of_omap. split.
  - intros (p & Hp & Hc). apply child_of_Some in Hc as ->.
    now apply elem_of_elements, elem_of_dom in Hp.
  - intros H. exists (d ++ [n]). split; [now apply elem_of_elements, elem_of_dom|].
    now apply child_of_Some.
Qed.

Lemma NoDup_children (f : gmap path node) (d : path) : NoDup (children f d).
Proof.
  unfold children. generalize (NoDup_elements (dom f)).
  induction (elements (dom f)) as [|p l IH]; intros Hnd; cbn; [constructor|].
  apply NoDup_cons in Hnd as [Hp Hl].
  destruct (child_of d p) as [n|] eqn:Hc; [|auto].
  apply NoDup_cons. split; [|auto].
  rewrite list_elem_of_omap. intros (q & Hq & Hcq).
  apply child_of_Some in Hc, Hcq. congruence.
Qed.

Lemma children_nil (f : gmap path node) (d : path) :
  (∀ n, f !! (d ++ [n]) = None) → children f d = [].
Proof.
  intros H. destruct (children f d) as [|n l] eqn:E; [reflexivity|].
  assert (Hn : n ∈ children f d) by (rewrite E; left).
  apply elem_of_children in Hn as [x Hx]. rewrite H in Hx. discriminate.
Qed.

Lemma is_dir_insert_file (f : gmap path node) (p q : path) (c : content) :
  is_dir f p = true → q ≠ p → is_dir (<[q := File c]> f) p = true.
Proof.
  intros H Hne. unfold is_dir in *. destruct p; [reflexivity|].
  now rewrite lookup_insert_ne.
Qed.

Lemma not_dir_insert_file (f : gmap path node) (p q : path) (c : content) :
  f !! p ≠ Some Dir → <[q := File c]> f !! p ≠ Some Dir.
Proof.
  intros H. destruct (decide (q = p)) as [->|Hne].
  - now rewrite lookup_insert_eq.
  - now rewrite lookup_insert_ne.
Qed.

(** *** Single calls *)

Lemma run_write_file (d : path) (n : string) (c : content) (w : world) :
  is_dir (fs w) d = true → fs w !! (d ++ [n]) ≠ Some Dir →
  write_file (os_path_join d n) c w = (Ok tt, set_fs <[d ++ [n] := File c]> w).
Proof.
  intros Hd Hn. unfold write_file. rewrite dirname_join, Hd. cbn [negb].
  unfold os_path_join. destruct (d ++ [n]) eqn:E; [now destruct d|].
  destruct (fs w !! _) as [[|]|]; congruence.
Qed.

Lemma run_Image_open (d : path) (n : string) (W H : Z) (w : world) :
  fs w !! (d ++ [n]) = Some (File (Png W H)) →
  Image_open (os_path_join d n) w = (Ok (W, H), w).
Proof.
  intros Hn. unfold Image_open, os_path_join.
  destruct (d ++ [n]) eqn:E; [now destruct d|]. now rewrite Hn.
Qed.

Lemma elem_of_prefixes (p q : path) : q ∈ prefixes p ↔ q ≠ [] ∧ q `prefix_of` p.
Proof.
  revert q. induction p as [|x p IH]; intros q; cbn.
  - split; [intros H; now apply not_elem_of_nil in H|].
    intros [Hne Hp]. apply prefix_nil_inv in Hp. contradiction.
  - rewrite elem_of_cons, list_elem_of_fmap. split.
    + intros [->|(r & -> & Hr)].
      * split; [discriminate|]. now exists p.
      * apply IH in Hr as [_ Hr]. split; [discriminate|]. now apply prefix_cons.
    + intros [Hne [k Hk]]. destruct q as [|y q]; [contradiction|].
      injection Hk as <- Hk. destruct q as [|z q]; [now left|].
      right. exists (z :: q). split; [reflexivity|].
      apply IH. split; [discriminate|]. now exists k.
Qed.

(** The prefixes that come before a prefix are those of its parent. *)
Lemma prefixes_split (p : path) (done : list path) (x : path) (rest : list path) :
  prefixes p = done ++ x :: rest → done = prefixes (removelast x) ∧ x ≠ [].
Proof.
  revert done x rest. induction p as [|y q IH]; intros done x rest E.
  - now destruct done.
  - cbn [prefixes] in E. destruct done as [|d done].
    + injection E as <- _. split; [reflexivity|discriminate].
    + injection E as <- E. apply map_eq_app in E as (l1 & l2 & Hq & <- & E).
      destruct l2 as [|x' l2]; [discriminate E|]. injection E as <- _.
      apply IH in Hq as [-> Hx']. split; [|discriminate].
      destruct x' as [|z x']; [contradiction|]. reflexivity.
Qed.

(** [os.makedirs] succeeds when no file stands where a directory is to be;
    afterwards every prefix of the path is a directory and nothing else has
    changed. *)
Lemma run_makedirs (p : path) (w : world) :
  (∀ q, q ∈ prefixes p → fs w !! q = None ∨ fs w !! q = Some Dir) →
  ∃ f', makedirs p w = (Ok tt, set_fs (λ _, f') w)
        ∧ (∀ q, q ∈ prefixes p → f' !! q = Some Dir)
        ∧ (∀ q, q ∉ prefixes p → f' !! q = fs w !! q).
Proof.
  intros Hfree. unfold makedirs.
  destruct (for_each_ok
    (λ done w1, img_indexing w1 = img_indexing w ∧ signed_in w1 = signed_in w
                ∧ trace w1 = trace w
                ∧ (∀ q, q ∈ done → fs w1 !! q = Some Dir)
                ∧ (∀ q, q ∉ done → fs w1 !! q = fs w !! q))
    (mkdir_exist_ok p) (prefixes p) w) as (w' & Hrun & Hi & Hs & Ht & Hin & Hout).
  - repeat split; try reflexivity. intros q Hq. now apply not_elem_of_nil in Hq.
  - intros done x rest w1 Hl (Hi & Hs & Ht & Hin & Hout).
    assert (Hx : fs w1 !! x = None ∨ fs w1 !! x = Some Dir).
    { destruct (decide (x ∈ done)) as [Hd|Hd]; [right; auto|].
      rewrite Hout by assumption. apply Hfree. rewrite Hl. set_solver. }
    assert (Hparent : is_dir (fs w1) (removelast x) = true).
    { apply prefixes_split in Hl as [-> _].
      destruct (removelast x) as [|z r] eqn:E; [reflexivity|].
      apply is_dir_Some, Hin, elem_of_prefixes. split; [discriminate|reflexivity]. }
    unfold mkdir_exist_ok. destruct Hx as [Hx|Hx]; rewrite Hx, ?Hparent.
    + eexists. split; [reflexivity|]. cbn. repeat split; try assumption.
      * intros q [Hq| ->%list_elem_of_singleton]%elem_of_app.
        -- destruct (decide (x = q)) as [->|Hne]; [apply lookup_insert_eq|].
           rewrite lookup_insert_ne by assumption. auto.
        -- apply lookup_insert_eq.
      * intros q Hq. rewrite lookup_insert_ne by set_solver. apply Hout. set_solver.
    + exists w1. split; [reflexivity|]. repeat split; try assumption.
      * intros q [Hq| ->%list_elem_of_singleton]%elem_of_app; auto.
      * intros q Hq. apply Hout. set_solver.
  - exists (fs w'). split; [|split; assumption].
    rewrite Hrun. f_equal. destruct w, w'; unfold set_fs; cbn in *. congruence.
Qed.

(** *** Effects of a stage that writes into one directory *)

Lemma writes_into_refl (D : path) (P : string → content → Prop) (f : gmap path node) :
  writes_into D P f f.
Proof. split; auto. Qed.

Lemma writes_into_trans (D : path) (P : string → content → Prop)
    (f1 f2 f3 : gmap path node) :
  writes_into D P f1 f2 → writes_into D P f2 f3 → writes_into D P f1 f3.
Proof.
  intros [Hf1 Hc1] [Hf2 Hc2]. split.
  - intros p Hp. rewrite Hf2, Hf1; auto.
  - intros n. destruct (Hc2 n) as [E|Hw]; [rewrite E; apply Hc1|auto].
Qed.

Lemma writes_into_insert (D : path) (P : string → content → Prop)
    (f : gmap path node) (n : string) (c : content) :
  P n c → writes_into D P f (<[D ++ [n] := File c]> f).
Proof.
  intros HP. split.
  - intros p Hp. apply lookup_insert_ne. apply not_eq_sym, Hp.
  - intros m. destruct (decide (n = m)) as [->|Hne].
    + right. exists c. split; [apply lookup_insert_eq|exact HP].
    + left. apply lookup_insert_ne. intros H. now apply join_inj in H.
Qed.

Lemma writes_into_not_dir (D : path) (P : string → content → Prop)
    (f f' : gmap path node) (n : string) :
  writes_into D P f f' → f !! (D ++ [n]) ≠ Some Dir → f' !! (D ++ [n]) ≠ Some Dir.
Proof.
  intros [_ Hc] Hn. destruct (Hc n) as [E|(c & E & _)]; rewrite E; [exact Hn|discriminate].
Qed.

Lemma writes_into_outside (D : path) (P : string → content → Prop)
    (f f' : gmap path node) (p : path) :
  writes_into D P f f' → length p ≠ S (length D) → f' !! p = f !! p.
Proof.
  intros [Hf _] Hlen. apply Hf. intros n ->. rewrite length_app in Hlen. cbn in Hlen. lia.
Qed.

Lemma writes_into_is_dir (D : path) (P : string → content → Prop)
    (f f' : gmap path node) :
  writes_into D P f f' → is_dir f D = true → is_dir f' D = true.
Proof.
  intros Hw. unfold is_dir. destruct D as [|x D]; [auto|].
  rewrite (writes_into_outside _ _ _ _ _ Hw); [auto|lia].
Qed.

Lemma pngs_at_preserved (D : path) (P : string → content → Prop)
    (index : list string) (lo : Z) (f f' : gmap path node) :
  writes_into D P f f' →
  (∀ n c, n ∈ index → P n c → ∃ W H, c = Png W H ∧ lo ≤ W ∧ lo ≤ H) →
  pngs_at D index lo f → pngs_at D index lo f'.
Proof.
  intros [_ Hc] HP Hat n Hn. destruct (Hc n) as [E|(c & E & Hc')].
  - rewrite E. now apply Hat.
  - destruct (HP n c Hn Hc') as (W & H & -> & ? & ?). eauto.
Qed.

Lemma pngs_at_app (D : path) (i1 i2 : list string) (lo : Z) (f : gmap path node) :
  pngs_at D i1 lo f → pngs_at D i2 lo f → pngs_at D (i1 ++ i2) lo f.
Proof. intros H1 H2 n [Hn|Hn]%elem_of_app; auto. Qed.

End FileSystem.

(** ** The export stage *)

Section ExportStage.
Import ExportAs.

Lemma length_string_app (s t : string) :
  String.length (s +:+ t) = (String.length s + String.length t)%nat.
Proof. induction s as [|c s IH]; simpl; [reflexivity|now rewrite IH]. Qed.

Lemma png_inj (s t : string) : png s = png t → s = t.
Proof.
  unfold png. revert t. induction s as [|c s IH]; intros [|c' t] E.
  - reflexivity.
  - apply (f_equal String.length) in E. rewrite !length_string_app in E.
    cbn [String.length] in E. lia.
  - apply (f_equal String.length) in E. rewrite !length_string_app in E.
    cbn [String.length] in E. lia.
  - cbn in E. injection E as -> E. f_equal. now apply IH.
Qed.

Lemma png_ne_csv (s t : string) : s +:+ ".png" ≠ t +:+ ".csv".
Proof.
  revert t. induction s as [|a s IH]; intros [|b t] H; simpl in H.
  - discriminate.
  - injection H as _ H. apply (f_equal String.length) in H.
    rewrite length_string_app in H. simpl in H. lia.
  - injection H as _ H. apply (f_equal String.length) in H.
    rewrite length_string_app in H. simpl in H. lia.
  - injection H as _ H. now apply IH in H.
Qed.

Lemma exported_file_not_slide_imgs (n : string) (c : content) :
  exported_file n c → n ≠ "slide_imgs".
Proof.
  intros [(s & W & H & -> & _)|(s & -> & _)] E;
    do 10 (destruct s as [|? s]; simpl in E; [discriminate E|injection E as _ E]);
    destruct s; discriminate E.
Qed.

Lemma exported_app (ppt_slides : list string) (l1 l2 : list view) :
  exported ppt_slides (l1 ++ l2) = exported ppt_slides l1 ++ exported ppt_slides l2.
Proof. unfold exported. now rewrite map_app, filter_app. Qed.

Lemma exported_requested (ppt_slides : list string) (v : view) :
  view_name v ∈ ppt_slides → exported ppt_slides [v] = [view_name v].
Proof. intros H. unfold exported. cbn [map]. now rewrite filter_cons_True, filter_nil. Qed.

Lemma exported_skipped (ppt_slides : list string) (v : view) :
  view_name v ∉ ppt_slides → exported ppt_slides [v] = [].
Proof. intros H. unfold exported. cbn [map]. now rewrite filter_cons_False, filter_nil. Qed.

Lemma render_calls_app (l1 l2 : list string) :
  render_calls (l1 ++ l2) = render_calls l1 ++ render_calls l2.
Proof. apply flat_map_app. Qed.

(** The export stage, when the server renders every requested view: the
    views are requested and indexed in the order of the workbook, and the
    images of the index are in the directory. *)
Lemma export_images_spec (wb : workbook) (opts : ImageRequestOptions) (D : path)
    (ppt_slides : list string) (w : world) :
  is_dir (fs w) D = true →
  (∀ n, fs w !! (D ++ [n]) ≠ Some Dir) →
  (∀ v, v ∈ wb_views wb → view_name v ∈ ppt_slides → renders opts 2 v) →
  ∃ w', export_images wb opts D ppt_slides w = (Ok tt, w')
        ∧ img_indexing w' = img_indexing w ++ map png (exported ppt_slides (wb_views wb))
        ∧ trace w' = trace w ++ render_calls (exported ppt_slides (wb_views wb))
        ∧ signed_in w' = signed_in w
        ∧ writes_into D exported_file (fs w) (fs w')
        ∧ pngs_at D (map png (exported ppt_slides (wb_views wb))) 2 (fs w')
        ∧ (NoDup (map view_name (wb_views wb)) →
           ∀ v, v ∈ wb_views wb → view_name v ∈ ppt_slides →
                ∃ W H, view_image v opts = Some (W, H)
                       ∧ fs w' !! (D ++ [png (view_name v)]) = Some (File (Png W H))).
Proof.
  intros Hdir Hfree Hrender. unfold export_images.
  apply (for_each_ok (λ done w1,
      img_indexing w1 = img_indexing w ++ map png (exported ppt_slides done)
      ∧ trace w1 = trace w ++ render_calls (exported ppt_slides done)
      ∧ signed_in w1 = signed_in w
      ∧ writes_into D exported_file (fs w) (fs w1)
      ∧ pngs_at D (map png (exported ppt_slides done)) 2 (fs w1)
      ∧ (NoDup (map view_name (wb_views wb)) →
         ∀ v, v ∈ done → view_name v ∈ ppt_slides →
              ∃ W H, view_image v opts = Some (W, H)
                     ∧ fs w1 !! (D ++ [png (view_name v)]) = Some (File (Png W H))))).
  - cbn. rewrite !app_nil_r. split_and!; try reflexivity.
    + apply writes_into_refl.
    + intros n Hn. now apply not_elem_of_nil in Hn.
    + intros _ v Hv. now apply not_elem_of_nil in Hv.
  - intros done v rest w1 Hl (Hi & Ht & Hs & Hw & Hp & Hsz).
    rewrite !exported_app.
    destruct (bool_decide_reflect (view_name v ∈ ppt_slides)) as [Hreq|Hreq]; cbn [negb].
    + (* a requested view *)
      rewrite (exported_requested _ _ Hreq).
      destruct (Hrender v) as (W & H & Himg & HW & HH & Hcsv);
        [rewrite Hl; set_solver|assumption|].
      rewrite run_bind. unfold populate_image at 1. rewrite Himg.
      rewrite run_bind. cbn [modify].
      rewrite run_bind, run_write_file; cycle 1.
      { cbn. now apply (writes_into_is_dir _ _ _ _ Hw). }
      { cbn. now apply (writes_into_not_dir _ _ _ _ _ Hw). }
      assert (Hstep1 : writes_into D exported_file (fs w)
                         (<[D ++ [view_name v +:+ ".png"] := File (Png W H)]> (fs w1))).
      { eapply writes_into_trans; [exact Hw|]. apply writes_into_insert.
        left. eauto 10. }
      cbv zeta. rewrite run_bind, run_write_file; cycle 1.
      { cbn. now apply (writes_into_is_dir _ _ _ _ Hstep1). }
      { cbn. now apply (writes_into_not_dir _ _ _ _ _ Hstep1). }
      rewrite run_bind. unfold populate_csv at 1. rewrite Hcsv.
      assert (Hstep2 : writes_into D exported_file
                         (<[D ++ [view_name v +:+ ".png"] := File (Png W H)]> (fs w1))
                         (<[D ++ [view_name v +:+ ".csv"] := File Csv]>
                            (<[D ++ [view_name v +:+ ".png"] := File (Png W H)]> (fs w1)))).
      { apply writes_into_insert. right. eauto. }
      eexists. split; [reflexivity|]. cbn. unfold os_path_join. rewrite insert_insert_eq.
      rewrite Hi, Ht, !map_app, render_calls_app, <- !app_assoc. cbn.
      split_and!; try assumption; try reflexivity.
      * eapply writes_into_trans; eassumption.
      * apply pngs_at_app.
        -- apply (pngs_at_preserved D exported_file _ _ (fs w1)); [|  |exact Hp].
           ++ eapply writes_into_trans; [|exact Hstep2].
              apply writes_into_insert. left. eauto 10.
           ++ intros n c (s & -> & _)%list_elem_of_fmap [(s' & W' & H' & _ & -> & ? & ?)|(s' & E & _)];
                [eauto|]. now apply png_ne_csv in E.
        -- intros n ->%list_elem_of_singleton. exists W, H.
           rewrite lookup_insert_ne, lookup_insert_eq; [auto|].
           intros E. apply join_inj in E. symmetry in E. now apply png_ne_csv in E.
      * intros Hnd v' [Hv'| ->%list_elem_of_singleton]%elem_of_app Hreq'.
        -- destruct (Hsz Hnd v' Hv' Hreq') as (W' & H' & Himg' & Hfile').
           exists W', H'. split; [exact Himg'|].
           rewrite !lookup_insert_ne; [exact Hfile'| |].
           ++ intros E. apply join_inj, png_inj in E.
              rewrite Hl, map_app in Hnd. apply NoDup_app in Hnd as (_ & Hnd & _).
              apply (Hnd (view_name v')); [now apply list_elem_of_fmap_2|].
              rewrite <- E. cbn [map]. left.
           ++ intros E. apply join_inj in E. symmetry in E. now apply png_ne_csv in E.
        -- exists W, H. split; [exact Himg|].
           rewrite lookup_insert_ne, lookup_insert_eq; [reflexivity|].
           intros E. apply join_inj in E. symmetry in E. now apply png_ne_csv in E.
    + (* a view that is not requested is skipped *)
      rewrite (exported_skipped _ _ Hreq), !app_nil_r.
      exists w1. split; [reflexivity|]. split_and!; try assumption.
      intros Hnd v' [Hv'| ->%list_elem_of_singleton]%elem_of_app Hreq';
        [now apply Hsz|contradiction].
Qed.

End ExportStage.

(** ** The names of the tiles *)

Section TileNames.
Import ExportAs.

Lemma tiles_of_eq (img_file : string) :
  tiles_of img_file =
    [export_name (split_dot_0 img_file) 0 0; export_name (split_dot_0 img_file) 1 0;
     export_name (split_dot_0 img_file) 1 1].
Proof. reflexivity. Qed.

Lemma image_tiles_names (img_file : string) (W H : Z) :
  map fst (image_tiles img_file W H) = tiles_of img_file.
Proof. reflexivity. Qed.

Lemma tile_index_app (l1 l2 : list string) :
  tile_index (l1 ++ l2) = tile_index l1 ++ tile_index l2.
Proof. apply flat_map_app. Qed.

(** In an index whose tiles are all different, the tiles of an image are
    not those of an image further on. *)
Lemma tiles_of_disjoint (done rest : list string) (x n t : string) :
  NoDup (tile_index (done ++ x :: rest)) → n ∈ done → t ∈ tiles_of n → t ∉ tiles_of x.
Proof.
  rewrite tile_index_app. intros (_ & Hdisj & _)%NoDup_app Hn Ht Hx.
  apply (Hdisj t).
  - apply list_elem_of_In, in_flat_map. exists n. now rewrite <- !list_elem_of_In.
  - cbn [tile_index flat_map]. apply elem_of_app. now left.
Qed.

Lemma export_name_cells (s : string) :
  export_name s 0 0 ≠ export_name s 1 0
  ∧ export_name s 0 0 ≠ export_name s 1 1
  ∧ export_name s 1 0 ≠ export_name s 1 1.
Proof.
  unfold export_name. split_and!; intros E; apply (inj (String.append s)) in E;
    vm_compute in E; discriminate E.
Qed.

Lemma string_app_cons (c : ascii) (s t : string) : String c s +:+ t = String c (s +:+ t).
Proof. reflexivity. Qed.

Lemma string_app_nil (t : string) : "" +:+ t = t.
Proof. reflexivity. Qed.

Lemma split_dot_0_dot (s rest : string) :
  has_dot s = false → split_dot_0 (s +:+ String "."%char rest) = s.
Proof.
  induction s as [|c s IH]; intros H.
  - reflexivity.
  - cbn [has_dot] in H. apply orb_false_elim in H as [Hc Hs].
    rewrite string_app_cons. cbn [split_dot_0]. now rewrite Hc, IH.
Qed.

Lemma string_app_assoc (s t u : string) : (s +:+ t) +:+ u = s +:+ (t +:+ u).
Proof.
  induction s as [|c s IH]; [reflexivity|].
  rewrite !string_app_cons. now rewrite IH.
Qed.

Lemma split_dot_0_png (view_name : string) :
  has_dot view_name = false → split_dot_0 (png view_name) = view_name.
Proof. intros H. unfold png. now apply (split_dot_0_dot view_name "png"). Qed.

Lemma string_app_inj_length (s s' t t' : string) :
  s +:+ t = s' +:+ t' → String.length t = String.length t' → s = s' ∧ t = t'.
Proof.
  revert s'. induction s as [|c s IH]; intros [|c' s'] E Hlen;
    rewrite ?string_app_cons, ?string_app_nil in E.
  - auto.
  - apply (f_equal String.length) in E. cbn [String.length] in E.
    rewrite length_string_app in E. lia.
  - apply (f_equal String.length) in E. cbn [String.length] in E.
    rewrite length_string_app in E. lia.
  - injection E as -> E. destruct (IH _ E Hlen) as [-> ->]. auto.
Qed.

(** The names of the tiles of two images: equal only for the same cell of
    images with the same base name. *)
Lemma tiles_of_inj (a b n : string) :
  n ∈ tiles_of a → n ∈ tiles_of b → split_dot_0 a = split_dot_0 b.
Proof.
  rewrite !tiles_of_eq, !elem_of_cons.
  intros [->|[->|[->|[]%not_elem_of_nil]]] [E|[E|[E|[]%not_elem_of_nil]]];
    unfold export_name in E; apply string_app_inj_length in E as [E _];
    solve [exact E | reflexivity].
Qed.

Lemma NoDup_tiles_of (a : string) : NoDup (tiles_of a).
Proof.
  rewrite tiles_of_eq. destruct (export_name_cells (split_dot_0 a)) as (N1 & N2 & N3).
  apply NoDup_cons. split; [|apply NoDup_cons; split; [|apply NoDup_singleton]].
  - rewrite !elem_of_cons. intros [E|[E|[]%not_elem_of_nil]]; auto.
  - now intros E%list_elem_of_singleton.
Qed.

(** Views with different names without "." never share a tile. *)
Lemma NoDup_tile_index (names : list string) :
  NoDup names → (∀ n, n ∈ names → has_dot n = false) →
  NoDup (tile_index (map png names)).
Proof.
  intros Hnd Hdot. unfold tile_index.
  induction names as [|n l IH]; [constructor|].
  apply NoDup_cons in Hnd as [Hn Hl]. cbn [map flat_map].
  apply NoDup_app. split_and!.
  - apply NoDup_tiles_of.
  - intros t Ht Ht'. apply list_elem_of_In, in_flat_map in Ht' as (x & Hx & Hin).
    apply list_elem_of_In, list_elem_of_fmap in Hx as (m & -> & Hm).
    apply list_elem_of_In in Hin.
    pose proof (tiles_of_inj _ _ _ Ht Hin) as E.
    rewrite (split_dot_0_png n) in E by (apply Hdot; left).
    rewrite (split_dot_0_png m) in E by (apply Hdot; now right).
    subst. contradiction.
  - apply IH; [assumption|]. intros m Hm. apply Hdot. now right.
Qed.

End TileNames.

(** ** The split stage *)

Section SplitStage.
Import ExportAs.

Lemma floordiv_2 (a : Z) : floordiv a 2 = Ok (a / 2).
Proof. reflexivity. Qed.

(** The sizes of the tiles of a 2 x 2 grid. *)
Lemma tile_sizes (W H : Z) (col : nat) :
  crop_size (tile_box W H (W / 2) (H / 2) 0 0) = (W, H / 2)
  ∧ crop_size (tile_box W H (W / 2) (H / 2) 1 col) = (W / 2, H / 2).
Proof. unfold crop_size, tile_box. cbn [Nat.eqb]. split; f_equal; lia. Qed.

Lemma prefix_snoc_inv (q D : path) (n : string) :
  q `prefix_of` D ++ [n] → q = D ++ [n] ∨ q `prefix_of` D.
Proof.
  intros [k Hk]. destruct k as [|x k] using rev_ind.
  - left. now rewrite app_nil_r in Hk.
  - right. rewrite app_assoc in Hk. apply app_inj_tail in Hk as [-> _]. now exists k.
Qed.

Lemma elem_of_prefixes_snoc (q D : path) (n : string) :
  q ∈ prefixes (D ++ [n]) ↔ q = D ++ [n] ∨ q ∈ prefixes D.
Proof.
  rewrite !elem_of_prefixes. split.
  - intros [Hne [->|Hp]%prefix_snoc_inv]; auto.
  - intros [->|[Hne Hp]].
    + split; [now destruct D|reflexivity].
    + split; [assumption|]. now apply prefix_app_r.
Qed.

Lemma join_not_prefix (D : path) (n : string) : D ++ [n] ∉ prefixes D.
Proof. rewrite elem_of_prefixes. intros [_ H]. now apply prefix_snoc_not in H. Qed.

Lemma half_ge_1 (a : Z) : 2 ≤ a → 1 ≤ a / 2.
Proof. intros H. apply Z.div_le_lower_bound; lia. Qed.

(** Saving an image that has pixels is writing its file. *)
Lemma run_Image_save (d : path) (n : string) (size : Z * Z) (w : world) :
  0 < size.1 → 0 < size.2 →
  is_dir (fs w) d = true → fs w !! (d ++ [n]) ≠ Some Dir →
  Image_save (os_path_join d n) size w
  = (Ok tt, set_fs <[d ++ [n] := File (Png size.1 size.2)]> w).
Proof.
  intros H1 H2 Hd Hn. unfold Image_save.
  rewrite (proj2 (Z.ltb_lt _ _) H1), (proj2 (Z.ltb_lt _ _) H2). cbn [andb].
  now apply run_write_file.
Qed.

(** One image of at least 2 x 2 pixels split on a 2 x 2 grid: the tile
    directory is made, the three tiles are written with the sizes of
    [tile_sizes], and their names are added to the index in row-major
    order. *)
Lemma split_image_spec (D : path) (img_file : string) (tmp_index : list string)
    (W H : Z) (w : world) :
  let T := D ++ ["slide_imgs"] in
  2 ≤ W → 2 ≤ H →
  fs w !! (D ++ [img_file]) = Some (File (Png W H)) →
  (∀ q, q ∈ prefixes D → fs w !! q = Some Dir) →
  (fs w !! T = None ∨ fs w !! T = Some Dir) →
  (∀ n, fs w !! (T ++ [n]) ≠ Some Dir) →
  ∃ f1, split_image (os_path_join D img_file) (os_path_join D "slide_imgs") 2 2
          (split_dot_0 img_file) tmp_index w
        = (Ok (tmp_index ++ tiles_of img_file),
           set_fs (λ _, with_tiles T (split_dot_0 img_file) W H f1) w)
        ∧ f1 !! T = Some Dir
        ∧ (∀ p, p ≠ T → f1 !! p = fs w !! p).
Proof.
  intros T HW HH Himg Hdirs HT Hfree. unfold split_image.
  pose proof (half_ge_1 W HW) as HW2. pose proof (half_ge_1 H HH) as HH2.
  rewrite run_bind, (run_Image_open _ _ W H) by assumption.
  rewrite run_bind. unfold lift at 1. rewrite floordiv_2.
  rewrite run_bind. unfold lift at 1. rewrite floordiv_2.
  destruct (run_makedirs (os_path_join D "slide_imgs") w) as (f1 & Hmk & Hin & Hout).
  { intros q [->|Hq]%elem_of_prefixes_snoc; [exact HT|right; auto]. }
  rewrite run_bind, Hmk.
  assert (HT1 : f1 !! T = Some Dir).
  { apply Hin, elem_of_prefixes_snoc. now left. }
  assert (Hsame : ∀ p, p ≠ T → f1 !! p = fs w !! p).
  { intros p Hp. destruct (decide (p ∈ prefixes (os_path_join D "slide_imgs"))) as [Hq|Hq].
    - rewrite (Hin p Hq). apply elem_of_prefixes_snoc in Hq as [->|Hq]; [contradiction|].
      symmetry. auto.
    - auto. }
  exists f1. split; [|split; assumption].
  cbn [for_fold seq Nat.eqb andb].
  destruct (tile_sizes W H 0) as [-> E10]. destruct (tile_sizes W H 1) as [_ E11].
  rewrite E10, E11. cbn [fst snd].
  assert (Hd1 : is_dir f1 T = true) by now apply is_dir_Some.
  assert (Hn1 : ∀ n, f1 !! (T ++ [n]) ≠ Some Dir).
  { intros n. rewrite Hsame by apply not_eq_sym, join_ne_self. apply Hfree. }
  assert (Hwrite : ∀ n size f, 0 < size.1 → 0 < size.2 →
            is_dir f T = true → f !! (T ++ [n]) ≠ Some Dir →
            Image_save (os_path_join (os_path_join D "slide_imgs") n) size
              (set_fs (λ _, f) w)
            = (Ok tt, set_fs (λ _, <[T ++ [n] := File (Png size.1 size.2)]> f) w)).
  { intros n size f H1 H2 Hd Hn. now rewrite run_Image_save. }
  (* row 0 *)
  eapply run_bind_intro.
  { eapply run_bind_intro; [|reflexivity].
    eapply run_bind_intro; [|reflexivity]. apply Hwrite; cbn [fst snd]; auto; lia. }
  cbv beta.
  (* row 1 *)
  eapply run_bind_intro.
  { eapply run_bind_intro.
    { eapply run_bind_intro; [|reflexivity]. apply Hwrite; cbn [fst snd]; try lia.
      - apply is_dir_insert_file; [assumption|]. apply not_eq_sym, join_ne_self.
      - apply not_dir_insert_file, Hn1. }
    cbv beta. eapply run_bind_intro; [|reflexivity].
    eapply run_bind_intro; [|reflexivity]. apply Hwrite; cbn [fst snd]; try lia.
    - do 2 (apply is_dir_insert_file; [|apply not_eq_sym, join_ne_self]). assumption.
    - do 2 apply not_dir_insert_file. apply Hn1. }
  cbv beta.
  rewrite tiles_of_eq, <- !app_assoc. reflexivity.
Qed.

(** A path in a file system with the tiles of an image: either one of the
    three tiles, which is an image, or as before. *)
Lemma with_tiles_cases (T : path) (img_file : string) (W H : Z)
    (f : gmap path node) (p : path) :
  2 ≤ W → 2 ≤ H →
  (∃ n W' H', p = T ++ [n] ∧ n ∈ tiles_of img_file
              ∧ with_tiles T (split_dot_0 img_file) W H f !! p = Some (File (Png W' H'))
              ∧ 1 ≤ W' ∧ 1 ≤ H')
  ∨ ((∀ n, n ∈ tiles_of img_file → p ≠ T ++ [n])
     ∧ with_tiles T (split_dot_0 img_file) W H f !! p = f !! p).
Proof.
  intros HW HH. pose proof (half_ge_1 W HW). pose proof (half_ge_1 H HH).
  unfold with_tiles. rewrite tiles_of_eq.
  destruct (decide (T ++ [export_name (split_dot_0 img_file) 1 1] = p)) as [<-|N11].
  { left. eexists _, _, _. split; [reflexivity|]. rewrite lookup_insert_eq.
    split; [set_solver|]. split; [reflexivity|lia]. }
  rewrite (lookup_insert_ne _ _ _ _ N11).
  destruct (decide (T ++ [export_name (split_dot_0 img_file) 1 0] = p)) as [<-|N10].
  { left. eexists _, _, _. split; [reflexivity|]. rewrite lookup_insert_eq.
    split; [set_solver|]. split; [reflexivity|lia]. }
  rewrite (lookup_insert_ne _ _ _ _ N10).
  destruct (decide (T ++ [export_name (split_dot_0 img_file) 0 0] = p)) as [<-|N00].
  { left. eexists _, _, _. split; [reflexivity|]. rewrite lookup_insert_eq.
    split; [set_solver|]. split; [reflexivity|lia]. }
  rewrite (lookup_insert_ne _ _ _ _ N00).
  right. split; [|reflexivity].
  intros n Hn ->. rewrite !elem_of_cons in Hn.
  destruct Hn as [->|[->|[->|Hn]]]; try contradiction. now apply not_elem_of_nil in Hn.
Qed.

Lemma prefix_of_length_ne (q D : path) (n m : string) :
  q ∈ prefixes D → q ≠ (D ++ [n]) ++ [m].
Proof.
  intros [_ Hq]%elem_of_prefixes ->. apply prefix_length in Hq.
  rewrite !length_app in Hq. cbn in Hq. lia.
Qed.

(** The split stage: every image of the index is split, in the order of the
    index; the index becomes the index of the tiles. *)
Lemma generate_slide_imgs_spec (D : path) (w : world) :
  let T := D ++ ["slide_imgs"] in
  pngs_at D (img_indexing w) 2 (fs w) →
  (∀ q, q ∈ prefixes D → fs w !! q = Some Dir) →
  fs w !! T = None →
  (∀ n, fs w !! (T ++ [n]) = None) →
  ∃ w', generate_slide_imgs D w = (Ok T, w')
        ∧ img_indexing w' = tile_index (img_indexing w)
        ∧ trace w' = trace w ∧ signed_in w' = signed_in w
        ∧ (img_indexing w = [] → fs w' = fs w)
        ∧ (img_indexing w ≠ [] → tiles_into T (fs w) (fs w'))
        ∧ pngs_at T (tile_index (img_indexing w)) 1 (fs w')
        ∧ (NoDup (tile_index (img_indexing w)) →
           ∀ n t, n ∈ img_indexing w →
                  t ∈ image_tiles n (size_at (fs w) (D ++ [n])).1
                        (size_at (fs w) (D ++ [n])).2 →
                  fs w' !! (T ++ [t.1]) = Some (File (Png t.2.1 t.2.2))).
Proof.
  intros T Hidx Hdirs HT Hfree. unfold generate_slide_imgs.
  rewrite run_bind. cbn [global_img_indexing].
  destruct (for_fold_ok (λ done acc w1,
      acc = tile_index done
      ∧ img_indexing w1 = img_indexing w
      ∧ trace w1 = trace w ∧ signed_in w1 = signed_in w
      ∧ (done = [] → fs w1 = fs w)
      ∧ (done ≠ [] → tiles_into T (fs w) (fs w1))
      ∧ pngs_at T acc 1 (fs w1)
      ∧ (NoDup (tile_index (img_indexing w)) →
         ∀ n t, n ∈ done →
                t ∈ image_tiles n (size_at (fs w) (D ++ [n])).1
                      (size_at (fs w) (D ++ [n])).2 →
                fs w1 !! (T ++ [t.1]) = Some (File (Png t.2.1 t.2.2))))
    (λ tmp_index img_file,
       split_image (os_path_join D img_file) (os_path_join D "slide_imgs") 2 2
         (split_dot_0 img_file) tmp_index)
    (img_indexing w) [] w)
    as (acc & w1 & Hrun & -> & Hi & Ht & Hs & Hnil & Hcons & Hp & Hsz).
  - split_and!; try reflexivity; try contradiction.
    + intros n Hn. now apply not_elem_of_nil in Hn.
    + intros _ n t Hn. now apply not_elem_of_nil in Hn.
  - intros done x rest acc w1 Hl (-> & Hi & Ht & Hs & Hnil & Hcons & Hp & Hsz).
    destruct (Hidx x) as (W & H & Hx & HW & HH); [rewrite Hl; set_solver|].
    assert (HxT : D ++ [x] ≠ T) by (intros E; rewrite E, HT in Hx; discriminate).
    (* what the file system of [w1] has kept from [w] *)
    assert (Hkeep : ∀ p, p ≠ T → (∀ n, p ≠ T ++ [n]) → fs w1 !! p = fs w !! p).
    { intros p Hp1 Hp2. destruct done as [|y done]; [now rewrite Hnil|].
      destruct Hcons as (_ & Hframe & _); [discriminate|]. auto. }
    assert (HT1 : fs w1 !! T = None ∨ fs w1 !! T = Some Dir).
    { destruct done as [|y done]; [left; now rewrite Hnil|].
      right. destruct Hcons as (HT1 & _); [discriminate|]. exact HT1. }
    assert (Htiles : ∀ n, fs w1 !! (T ++ [n]) = None
                          ∨ ∃ c, fs w1 !! (T ++ [n]) = Some (File c) ∧ tile_file n c).
    { intros n. destruct done as [|y done]; [left; rewrite Hnil by reflexivity; apply Hfree|].
      destruct Hcons as (_ & _ & Hc); [discriminate|].
      destruct (Hc n) as [E|?]; [left; rewrite E; apply Hfree|now right]. }
    destruct (split_image_spec D x (tile_index done) W H w1 HW HH)
      as (f1 & Hsplit & Hf1T & Hf1).
    { rewrite Hkeep; [assumption..|]. intros n. apply join_join_ne. }
    { intros q Hq. rewrite Hkeep; [auto| |].
      - intros ->. now apply join_not_prefix in Hq.
      - intros n. now apply prefix_of_length_ne. }
    { exact HT1. }
    { intros n. change (fs w1 !! (T ++ [n]) ≠ Some Dir).
      destruct (Htiles n) as [E|(c & E & _)]; rewrite E; discriminate. }
    eexists _, _. split; [exact Hsplit|].
    rewrite tile_index_app. cbn [set_fs fs img_indexing trace signed_in]. fold T.
    assert (Hone : tile_index [x] = tiles_of x) by (cbn; apply app_nil_r).
    rewrite Hone.
    split_and!; try assumption; try reflexivity.
    + intros E. now apply app_nil in E as [_ ?].
    + intros _. split_and!.
      * destruct (with_tiles_cases T x W H f1 T HW HH) as [(n & _ & _ & E & _)|[_ ->]];
          [now apply join_ne_self in E|exact Hf1T].
      * intros p Hp1 Hp2.
        destruct (with_tiles_cases T x W H f1 p HW HH) as [(n & _ & _ & E & _)|[_ ->]];
          [now apply Hp2 in E|].
        rewrite Hf1 by assumption. auto.
      * intros n.
        destruct (with_tiles_cases T x W H f1 (T ++ [n]) HW HH)
          as [(m & W' & H' & _ & _ & -> & ? & ?)|[_ ->]].
        -- right. eexists. split; [reflexivity|]. exists W', H'. auto.
        -- rewrite Hf1 by apply not_eq_sym, join_ne_self.
           destruct (Htiles n) as [E|?]; [left; rewrite E; symmetry; apply Hfree|now right].
    + intros n Hn.
      destruct (with_tiles_cases T x W H f1 (T ++ [n]) HW HH)
        as [(m & W' & H' & _ & _ & -> & ? & ?)|[Hnot ->]]; [eauto|].
      apply elem_of_app in Hn as [Hn|Hn]; [|now apply Hnot in Hn].
      rewrite Hf1 by apply not_eq_sym, join_ne_self. now apply Hp.
    + intros Hnd n t [Hn| ->%list_elem_of_singleton]%elem_of_app Htile.
      * (* the tiles of an earlier image are not written again *)
        assert (Hname : t.1 ∈ tiles_of n).
        { rewrite <- (image_tiles_names n (size_at (fs w) (D ++ [n])).1
                        (size_at (fs w) (D ++ [n])).2).
          now apply list_elem_of_fmap_2. }
        assert (Hnot : t.1 ∉ tiles_of x).
        { apply (tiles_of_disjoint done rest x n); [|assumption..]. now rewrite <- Hl. }
        destruct (with_tiles_cases T x W H f1 (T ++ [t.1]) HW HH)
          as [(m & _ & _ & E & Hm & _)|[_ ->]].
        -- apply join_inj in E. now rewrite E in Hnot.
        -- rewrite Hf1 by apply not_eq_sym, join_ne_self. now apply (Hsz Hnd n t).
      * (* the tiles of this image *)
        unfold size_at in Htile. rewrite Hx in Htile. cbn [fst snd] in Htile.
        destruct (export_name_cells (split_dot_0 x)) as (N1 & N2 & N3).
        assert (Hne : ∀ a b, a ≠ b → T ++ [a] ≠ T ++ [b]).
        { intros a b Hab E. now apply join_inj in E. }
        unfold image_tiles in Htile. cbv zeta in Htile. rewrite !elem_of_cons in Htile.
        unfold with_tiles.
        destruct Htile as [->|[->|[->|Htile]]]; cbn [fst snd].
        -- rewrite !lookup_insert_ne by (apply Hne; auto). apply lookup_insert_eq.
        -- rewrite lookup_insert_ne by (apply Hne; auto). apply lookup_insert_eq.
        -- apply lookup_insert_eq.
        -- now apply not_elem_of_nil in Htile.
  - lazy beta iota. eexists. split.
    { eapply run_bind_intro; [exact Hrun|]. reflexivity. }
    cbn [set_img_indexing fs img_indexing trace signed_in].
    split_and!; try assumption; try reflexivity.
Qed.

End SplitStage.

(** ** The assembly of the document and the clean-up *)

Section DeckAndCleanup.
Import ExportAs.

Lemma world_eq_set_fs (w w' : world) :
  img_indexing w' = img_indexing w → signed_in w' = signed_in w → trace w' = trace w →
  w' = set_fs (λ _, fs w') w.
Proof. destruct w, w'. unfold set_fs. cbn. congruence. Qed.

(** The slide deck has the title slide and then one slide for each tile of
    the index, in the order of the index. *)
Lemma create_deck_spec (size : Z * Z) (now project_name : string) (T O : path)
    (file workbook_name : string) (w : world) :
  pngs_at T (img_indexing w) 1 (fs w) →
  is_dir (fs w) O = true → fs w !! (O ++ [file]) ≠ Some Dir →
  ∃ c, create_deck size now project_name T (os_path_join O file) workbook_name w
       = (Ok tt, set_fs <[O ++ [file] := File c]> w)
       ∧ document_images c
         = None :: map (λ n, Some (os_path_join T n)) (img_indexing w)
       ∧ document_pictures c
         = None :: map (λ n, picture (add_image_to_ppt_placement size.1 size.2
                                        (size_at (fs w) (T ++ [n])).1
                                        (size_at (fs w) (T ++ [n])).2) (T ++ [n]))
                     (img_indexing w).
Proof.
  intros Hp Hd Hn. unfold create_deck.
  rewrite run_bind. cbn [get_images].
  destruct (for_fold_ok (λ done prs w1,
      w1 = w ∧ map slide_image (slides prs) = None :: map (λ n, Some (os_path_join T n)) done
      ∧ slide_width prs = size.1 ∧ slide_height prs = size.2
      ∧ map slide_picture (slides prs)
        = None :: map (λ n, picture (add_image_to_ppt_placement size.1 size.2
                                       (size_at (fs w) (T ++ [n])).1
                                       (size_at (fs w) (T ++ [n])).2) (T ++ [n])) done)
    (λ prs img_file, add_image_to_ppt prs T img_file)
    (img_indexing w)
    (add_title_slide (Presentation size.1 size.2 []) workbook_name project_name now) w)
    as (prs & w1 & Hrun & -> & Hslides & _ & _ & Hpics).
  - split_and!; reflexivity.
  - intros done x rest prs w1 Hl (-> & Hslides & Hsw & Hsh & Hpics).
    destruct (Hp x) as (W & H & Hx & HW & HH); [rewrite Hl; set_solver|].
    unfold add_image_to_ppt.
    rewrite run_bind, (run_Image_open _ _ W H) by assumption.
    rewrite run_bind. unfold lift at 1.
    pose proof (ppt_placement_scale (slide_width prs) (slide_height prs) W H
                  ltac:(lia) ltac:(lia)) as Hplace.
    cbv zeta in Hplace. rewrite Hplace.
    eexists _, _. split; [reflexivity|]. split; [reflexivity|].
    cbn [add_slide slides slide_width slide_height]. split_and!; [|assumption..|].
    + rewrite !map_app, Hslides. reflexivity.
    + assert (Esz : size_at (fs w) (T ++ [x]) = (W, H))
        by (unfold size_at; now rewrite Hx).
      rewrite !map_app, Hpics. cbn [map]. rewrite Esz.
      cbn [fst snd]. rewrite <- Hsw, <- Hsh, Hplace. reflexivity.
  - eexists. split.
    { eapply run_bind_intro; [exact Hrun|]. now apply run_write_file. }
    split; [exact Hslides|exact Hpics].
Qed.

Lemma latin_1_app (s t : string) : latin_1 (s +:+ t) = latin_1 s && latin_1 t.
Proof.
  induction s as [|c s IH]; [reflexivity|].
  change (String c s +:+ t) with (String c (s +:+ t)). cbn [latin_1].
  now rewrite IH, andb_assoc.
Qed.

Lemma printable_latin_1 (s : string) : printable s = true → latin_1 s = true.
Proof.
  induction s as [|c s IH]; [reflexivity|]. cbn [printable latin_1].
  intros [Hc Hs]%andb_prop. rewrite (IH Hs), andb_true_r.
  unfold printable_char in Hc. cbv zeta in Hc. apply andb_prop in Hc as [_ Hc].
  apply Nat.leb_le in Hc. apply Nat.ltb_lt. lia.
Qed.

(** The title page of a document whose texts are in Latin-1 can be
    encoded. *)
Lemma title_page_latin_1 (size : Q * Q) (now : string) (cfg : pdf_config) :
  latin_1 (pc_workbook_name cfg) = true →
  from_option latin_1 true (pc_project_name cfg) = true →
  latin_1 now = true →
  forallb page_latin_1 (pdf_pages (add_title_page (Fpdf size.1 size.2 []) now cfg)) = true.
Proof.
  intros Hw Hpn Hnow. unfold add_title_page. cbn [add_page pdf_pages app forallb page_latin_1].
  rewrite !latin_1_app, Hw, Hnow, andb_true_r.
  destruct (pc_project_name cfg) as [pn|]; cbn [fmap option_fmap option_map from_option] in *;
    [|reflexivity].
  now rewrite latin_1_app, Hpn.
Qed.

(** The PDF document has the title page and then one page for each tile of
    the index, in the order of the index. *)
Lemma export_as_pdf_spec (size : Q * Q) (now : string) (T O : path)
    (file : string) (cfg : pdf_config) (w : world) :
  latin_1 (pc_workbook_name cfg) = true →
  from_option latin_1 true (pc_project_name cfg) = true →
  latin_1 now = true →
  pngs_at T (img_indexing w) 1 (fs w) →
  is_dir (fs w) O = true → fs w !! (O ++ [file]) ≠ Some Dir →
  ∃ c, export_as_pdf size now T (os_path_join O file) cfg w
       = (Ok tt, set_fs <[O ++ [file] := File c]> w)
       ∧ document_images c
         = None :: map (λ n, Some (os_path_join T n)) (img_indexing w)
       ∧ document_pictures c
         = None :: map (λ n, picture (add_image_to_pdf_placement size.1 size.2
                                        (size_at (fs w) (T ++ [n])).1
                                        (size_at (fs w) (T ++ [n])).2) (T ++ [n]))
                     (img_indexing w).
Proof.
  intros Hwn Hpn Hnow Hp Hd Hn. unfold export_as_pdf.
  rewrite run_bind. cbn [get_images].
  destruct (for_fold_ok (λ done doc w1,
      w1 = w ∧ forallb page_latin_1 (pdf_pages doc) = true
      ∧ map page_image (pdf_pages doc) = None :: map (λ n, Some (os_path_join T n)) done
      ∧ pdf_w doc = size.1 ∧ pdf_h doc = size.2
      ∧ map page_picture (pdf_pages doc)
        = None :: map (λ n, picture (add_image_to_pdf_placement size.1 size.2
                                       (size_at (fs w) (T ++ [n])).1
                                       (size_at (fs w) (T ++ [n])).2) (T ++ [n])) done)
    (λ doc img_file, add_image_to_pdf doc (os_path_join T img_file) cfg)
    (img_indexing w)
    (add_title_page (Fpdf size.1 size.2 []) now cfg) w)
    as (doc & w1 & Hrun & -> & Htext & Hpages & _ & _ & Hpics).
  - split_and!; [reflexivity|now apply title_page_latin_1|reflexivity..].
  - intros done x rest doc w1 Hl (-> & Htext & Hpages & Hpw & Hph & Hpics).
    destruct (Hp x) as (W & H & Hx & HW & HH); [rewrite Hl; set_solver|].
    unfold add_image_to_pdf.
    rewrite run_bind, (run_Image_open _ _ W H) by assumption.
    rewrite run_bind. unfold lift at 1.
    destruct (pdf_placement_scale (pdf_w doc) (pdf_h doc) W H) as (p & Hplace & _); [lia..|].
    rewrite Hplace.
    eexists _, _. split; [reflexivity|]. split; [reflexivity|].
    cbn [add_page pdf_pages pdf_w pdf_h]. rewrite forallb_app, Htext, !map_app, Hpages.
    split_and!; [reflexivity|reflexivity|assumption..|].
    assert (Esz : size_at (fs w) (T ++ [x]) = (W, H))
      by (unfold size_at; now rewrite Hx).
    rewrite Hpics. cbn [map]. rewrite Esz.
    cbn [fst snd]. rewrite <- Hpw, <- Hph, Hplace. reflexivity.
  - eexists. split.
    { eapply run_bind_intro; [exact Hrun|]. unfold output. rewrite Htext.
      now apply run_write_file. }
    split; [exact Hpages|exact Hpics].
Qed.

(** The clean-up step removes the files of the directory it is given and
    then the directory, and touches nothing else. *)
Lemma cleanup_spec (T : path) (w : world) :
  fs w !! T = Some Dir →
  (∀ n, fs w !! (T ++ [n]) ≠ Some Dir) →
  ∃ f', cleanup T w = (Ok tt, set_fs (λ _, f') w)
        ∧ f' !! T = None
        ∧ (∀ n, f' !! (T ++ [n]) = None)
        ∧ (∀ p, p ≠ T → (∀ n, p ≠ T ++ [n]) → f' !! p = fs w !! p).
Proof.
  intros HT Hfiles. unfold cleanup.
  rewrite run_bind. unfold listdir at 1. rewrite (is_dir_Some _ _ HT).
  pose proof (NoDup_children (fs w) T) as Hnd.
  destruct (for_each_ok (λ done w1,
      img_indexing w1 = img_indexing w ∧ signed_in w1 = signed_in w ∧ trace w1 = trace w
      ∧ (∀ n, n ∈ done → fs w1 !! (T ++ [n]) = None)
      ∧ (∀ p, (∀ n, n ∈ done → p ≠ T ++ [n]) → fs w1 !! p = fs w !! p))
    (λ file, remove (os_path_join T file)) (children (fs w) T) w)
    as (w1 & Hrun & Hi & Hs & Ht & Hgone & Hkept).
  - split_and!; try reflexivity. intros n Hn. now apply not_elem_of_nil in Hn.
  - intros done x rest w1 Hl (Hi & Hs & Ht & Hgone & Hkept).
    rewrite Hl in Hnd. apply NoDup_app in Hnd as (_ & Hnot & _).
    assert (Hx : ∃ c, fs w1 !! (T ++ [x]) = Some (File c)).
    { rewrite Hkept.
      - assert (Hin : x ∈ children (fs w) T) by (rewrite Hl; set_solver).
        apply elem_of_children in Hin as [[c|] Hc]; [eauto|now apply Hfiles in Hc].
      - intros n Hn E. apply join_inj in E as <-. apply (Hnot x Hn). left. }
    destruct Hx as [c Hx]. unfold remove, os_path_join. rewrite Hx.
    eexists. split; [reflexivity|]. cbn [set_fs fs img_indexing signed_in trace].
    split_and!; try assumption.
    + intros n [Hn| ->%list_elem_of_singleton]%elem_of_app; [|apply lookup_delete_eq].
      destruct (decide (T ++ [x] = T ++ [n])) as [->|Hne]; [apply lookup_delete_eq|].
      rewrite lookup_delete_ne by assumption. auto.
    + intros p Hp. rewrite lookup_delete_ne.
      * apply Hkept. intros n Hn. apply Hp. set_solver.
      * apply not_eq_sym, Hp. set_solver.
  - assert (HT1 : fs w1 !! T = Some Dir).
    { rewrite Hkept; [exact HT|]. intros n _. apply join_ne_self. }
    assert (Hempty : ∀ n, fs w1 !! (T ++ [n]) = None).
    { intros n. destruct (decide (n ∈ children (fs w) T)) as [Hn|Hn]; [auto|].
      rewrite Hkept.
      - destruct (fs w !! (T ++ [n])) eqn:E; [|reflexivity].
        exfalso. apply Hn, elem_of_children. now rewrite E.
      - intros m Hm E. apply join_inj in E as ->. contradiction. }
    exists (delete T (fs w1)). split.
    { lazy beta iota. eapply run_bind_intro; [exact Hrun|].
      unfold rmdir. rewrite HT1, (children_nil _ _ Hempty).
      f_equal. rewrite (world_eq_set_fs w w1) by assumption. reflexivity. }
    split_and!.
    + apply lookup_delete_eq.
    + intros n. rewrite lookup_delete_ne by apply join_ne_self. apply Hempty.
    + intros p Hp1 Hp2. rewrite lookup_delete_ne by now apply not_eq_sym.
      apply Hkept. intros n _. apply Hp2.
Qed.

End DeckAndCleanup.

(** ** A whole run *)

Section Run.
Import ExportAs.

Context (srv : server) (a : args) (f : gmap path node)
  (workbook_name project_name : string) (ppt_slides : list string)
  (filters : filters_value) (wb : workbook).
Context (Hready : run_ready srv a f workbook_name project_name ppt_slides filters wb).

Let names : list string := exported ppt_slides (wb_views wb).
Let D : path := scratch_dir a.
Let T : path := tile_dir a.
Let O : path := output_dir a.

Lemma prefixes_scratch_dir : prefixes D = [img_export; D].
Proof. reflexivity. Qed.

Lemma output_not_scratch (p : path) :
  O `prefix_of` p →
  (p ∉ prefixes D) ∧ (∀ n, p ≠ D ++ [n]) ∧ p ≠ T ∧ (∀ n, p ≠ T ++ [n]).
Proof.
  intros [k ->]. unfold O, output_dir, ppt_location, T, tile_dir, D, scratch_dir, img_export.
  destruct (export_type a); cbn;
    (split_and!;
     [intros H; rewrite !elem_of_cons in H; destruct H as [[=]|[[=]|H]];
      now apply not_elem_of_nil in H
     |intros n [=]|intros [=]|intros n [=]]).
Qed.

Lemma scratch_not_output (p : path) : D `prefix_of` p → ¬ O `prefix_of` p.
Proof.
  intros [k ->] [k' E]. revert E.
  unfold O, output_dir, ppt_location, D, scratch_dir, img_export.
  destruct (export_type a); cbn; intros [=].
Qed.

Lemma prefixes_output_dir : prefixes O = [O].
Proof. unfold O, output_dir. now destruct (export_type a). Qed.

(** STEP 6: the document is written into the output directory, with the
    title and then the tiles of the index. *)
Lemma write_document (img_dir : path) (w : world) :
  latin_1 workbook_name = true → latin_1 project_name = true → latin_1 (now a) = true →
  pngs_at img_dir (img_indexing w) 1 (fs w) →
  (fs w !! O = None ∨ fs w !! O = Some Dir) →
  fs w !! (O ++ [output_file a workbook_name]) ≠ Some Dir →
  (∀ n, img_dir ++ [n] ≠ O) →
  ∃ c f', match export_type a with
          | ppt =>
              let ppt_location := os_path_join ppt_location "ppt" in
              makedirs ppt_location;;
              let export_path := os_path_join ppt_location (workbook_name +:+ ".pptx") in
              create_deck (template_slide_size a) (now a) project_name img_dir
                export_path workbook_name
          | pdf =>
              let cfg := PdfConfig workbook_name (Some project_name) in
              let pdf_dir := os_path_join ppt_location "pdf" in
              makedirs pdf_dir;;
              let output_file := os_path_join pdf_dir (workbook_name +:+ ".pdf") in
              export_as_pdf (pdf_page_size a) (now a) img_dir output_file cfg
          end w = (Ok tt, set_fs (λ _, f') w)
          ∧ f' !! (O ++ [output_file a workbook_name]) = Some (File c)
          ∧ document_images c
            = None :: map (λ n, Some (os_path_join img_dir n)) (img_indexing w)
          ∧ f' !! O = Some Dir
          ∧ (∀ p, p ≠ O → p ≠ O ++ [output_file a workbook_name] → f' !! p = fs w !! p)
          ∧ document_pictures c
            = None :: map (λ n, picture (placed a (size_at (fs w) (img_dir ++ [n])))
                                  (img_dir ++ [n])) (img_indexing w).
Proof.
  intros Hwn Hpn Hnow Hp Hodir Hofile Hne.
  destruct (run_makedirs O w) as (f5 & Hmk & Hin & Hout).
  { rewrite prefixes_output_dir. now intros q ->%list_elem_of_singleton. }
  rewrite prefixes_output_dir in Hin, Hout.
  assert (HO5 : f5 !! O = Some Dir) by (apply Hin; left).
  assert (Hp5 : pngs_at img_dir (img_indexing w) 1 f5).
  { intros n Hn. rewrite Hout; [now apply Hp|].
    intros E%list_elem_of_singleton. now apply Hne in E. }
  assert (Hfile5 : f5 !! (O ++ [output_file a workbook_name]) ≠ Some Dir).
  { rewrite Hout; [assumption|]. intros E%list_elem_of_singleton.
    symmetry in E. now apply join_ne_self in E. }
  assert (Hrest : ∀ c p, p ≠ O → p ≠ O ++ [output_file a workbook_name] →
            <[O ++ [output_file a workbook_name] := File c]> f5 !! p = fs w !! p).
  { intros c p H1 H2. rewrite lookup_insert_ne by now apply not_eq_sym.
    apply Hout. now intros ->%list_elem_of_singleton. }
  assert (HOdir : ∀ c, <[O ++ [output_file a workbook_name] := File c]> f5 !! O = Some Dir).
  { intros c. rewrite lookup_insert_ne; [assumption|]. apply not_eq_sym, join_ne_self. }
  assert (Hsize : ∀ n, size_at f5 (img_dir ++ [n]) = size_at (fs w) (img_dir ++ [n])).
  { intros n. unfold size_at. rewrite Hout; [reflexivity|].
    intros E%list_elem_of_singleton. now apply Hne in E. }
  unfold O, output_dir, output_file, placed in *. destruct (export_type a); cbv zeta.
  - destruct (export_as_pdf_spec (pdf_page_size a) (now a) img_dir
                (os_path_join ppt_location "pdf") (workbook_name +:+ ".pdf")
                (PdfConfig workbook_name (Some project_name))
                (set_fs (λ _, f5) w)) as (c & Hrun & Hdoc & Hpics);
      [assumption..|now apply is_dir_Some|assumption|].
    exists c. eexists. split.
    { eapply run_bind_intro; [exact Hmk|]. rewrite Hrun. reflexivity. }
    cbn [fs set_fs]. rewrite lookup_insert_eq. split_and!; auto.
    rewrite Hpics. f_equal. apply map_ext. intros n. cbn [fs set_fs].
    now rewrite Hsize.
  - destruct (create_deck_spec (template_slide_size a) (now a) project_name img_dir
                (os_path_join ppt_location "ppt") (workbook_name +:+ ".pptx") workbook_name
                (set_fs (λ _, f5) w)) as (c & Hrun & Hdoc & Hpics);
      [assumption|now apply is_dir_Some|assumption|].
    exists c. eexists. split.
    { eapply run_bind_intro; [exact Hmk|]. rewrite Hrun. reflexivity. }
    cbn [fs set_fs]. rewrite lookup_insert_eq. split_and!; auto.
    rewrite Hpics. f_equal. apply map_ext. intros n. cbn [fs set_fs].
    now rewrite Hsize.
Qed.

Lemma file_name_latin_1 (s : string) : file_name s = true → latin_1 s = true.
Proof.
  unfold file_name. intros [[H _]%andb_prop _]%andb_prop. now apply printable_latin_1.
Qed.

(** The tiles of the requested views are those of the index of their
    images, and each is a tile of a requested view. *)
Lemma requested_tiles_names (opts : ImageRequestOptions) (sl : list string)
    (views : list view) :
  (∀ v, v ∈ views → view_name v ∈ sl → ∃ W H, view_image v opts = Some (W, H)) →
  map fst (requested_tiles opts sl views) = tile_index (map png (exported sl views)).
Proof.
  unfold requested_tiles, exported.
  induction views as [|v l IH]; intros Himg; [reflexivity|].
  assert (IH' := IH (λ v' Hv', Himg v' (list_elem_of_further _ _ _ Hv'))).
  cbn [map]. destruct (decide (view_name v ∈ sl)) as [Hreq|Hreq].
  - rewrite !filter_cons_True by assumption. cbn [flat_map map tile_index].
    rewrite map_app. fold (tile_index (map png (filter (λ n, n ∈ sl) (map view_name l)))).
    rewrite <- IH'. f_equal.
    destruct (Himg v) as (W & H & E); [left|assumption|].
    unfold view_tiles. rewrite E. apply image_tiles_names.
  - rewrite !filter_cons_False by assumption. exact IH'.
Qed.

Lemma elem_of_requested_tiles (opts : ImageRequestOptions) (sl : list string)
    (views : list view) (t : string * (Z * Z)) :
  t ∈ requested_tiles opts sl views →
  ∃ v, v ∈ views ∧ view_name v ∈ sl ∧ t ∈ view_tiles opts v.
Proof.
  unfold requested_tiles. intros (v & Hv & Ht)%list_elem_of_In%in_flat_map.
  apply list_elem_of_In, list_elem_of_filter in Hv as [Hreq Hv].
  apply list_elem_of_In in Ht. eauto.
Qed.

(** An image that has pixels gets a place in either kind of document. *)
Lemma placed_ok (size : Z * Z) :
  0 < size.1 → 0 < size.2 → ∃ place, placed a size = Ok place.
Proof.
  intros H1 H2. unfold placed. destruct (export_type a).
  - destruct (pdf_placement_scale (pdf_page_size a).1 (pdf_page_size a).2 size.1 size.2)
      as (p & Hp & _); eauto.
  - rewrite ppt_placement_scale by assumption. eauto.
Qed.

Lemma image_tiles_sizes (n : string) (W H : Z) (t : string * (Z * Z)) :
  2 ≤ W → 2 ≤ H → t ∈ image_tiles n W H → 0 < t.2.1 ∧ 0 < t.2.2.
Proof.
  intros HW HH. pose proof (half_ge_1 W HW). pose proof (half_ge_1 H HH).
  unfold image_tiles. cbv zeta.
  rewrite !elem_of_cons.
  intros [->|[->|[->|[]%not_elem_of_nil]]]; cbn [fst snd]; lia.
Qed.

(** STEP 1 to STEP 6 of a run that is ready.  When the views of the
    workbook have different names and the requested names have no ".",
    the document shows, after its title, the tiles of the requested
    views. *)
Lemma pipeline_run :
  ∃ w1, pipeline srv a (initial_world f) = (Ok T, w1)
        ∧ img_indexing w1 = tile_index (map png names)
        ∧ trace w1 = SignIn :: render_calls names
        ∧ signed_in w1 = true
        ∧ (∃ c, fs w1 !! (O ++ [output_file a workbook_name]) = Some (File c)
                ∧ document_images c
                  = None :: map (λ n, Some (os_path_join T n)) (tile_index (map png names))
                ∧ (NoDup (map view_name (wb_views wb)) →
                   (∀ n, n ∈ names → has_dot n = false) →
                   Forall2 (shows a)
                     (requested_tiles (get_image_export filters) ppt_slides (wb_views wb))
                     (tail (document_pictures c))))
        ∧ fs w1 !! T = Some Dir
        ∧ (∀ n, fs w1 !! (T ++ [n]) ≠ Some Dir)
        ∧ pngs_at T (tile_index (map png names)) 1 (fs w1)
        ∧ fs w1 !! D = Some Dir
        ∧ pngs_at D (map png names) 2 (fs w1).
Proof.
  destruct Hready as [Htoken Hconfig Hwb Hreq Hrender Himg Hscratch Hodir Hofile
                        _ Hwname [Hpname Hnow] _].
  fold D in Hscratch. fold O in Hodir, Hofile. fold names in Hreq.
  set (w0 := emit SignIn (set_signed_in true (initial_world f))).
  (* STEP 5.1: the scratch directory *)
  destruct (run_makedirs D w0) as (f1 & Hmk1 & Hin1 & Hout1).
  { rewrite prefixes_scratch_dir. intros q [->|[->|[]%not_elem_of_nil]%elem_of_cons]%elem_of_cons.
    - exact Himg.
    - left. now apply Hscratch. }
  assert (HD1 : f1 !! D = Some Dir).
  { apply Hin1. rewrite prefixes_scratch_dir, !elem_of_cons. auto. }
  assert (Hunder1 : ∀ p, D `prefix_of` p → p ≠ D → f1 !! p = None).
  { intros p Hp Hne. rewrite Hout1; [now apply Hscratch|].
    rewrite prefixes_scratch_dir. intros [->|[->|[]%not_elem_of_nil]%elem_of_cons]%elem_of_cons.
    - apply prefix_length in Hp. cbn in Hp. lia.
    - contradiction. }
  (* STEP 5.2: the views *)
  destruct (export_images_spec wb (get_image_export filters) D ppt_slides
              (set_fs (λ _, f1) w0)) as (w3 & Hexp & Hi3 & Ht3 & Hs3 & Hw3 & Hp3 & Hsz3).
  { now apply is_dir_Some. }
  { intros n. cbn [fs set_fs]. rewrite Hunder1; [discriminate|now apply prefix_app_r|].
    apply not_eq_sym, join_ne_self. }
  { exact Hrender. }
  cbn [fs set_fs img_indexing trace signed_in w0 emit set_signed_in initial_world app] in Hi3, Ht3, Hs3, Hw3.
  fold names in Hi3, Ht3, Hp3.
  (* STEP 5.3: the tiles *)
  destruct (generate_slide_imgs_spec D w3)
    as (w4 & Hgen & Hi4 & Ht4 & Hs4 & _ & Htiles & Hp4 & Hsz4).
  { now rewrite Hi3. }
  { intros q Hq. rewrite (proj1 Hw3).
    - now apply Hin1.
    - intros n ->. now apply join_not_prefix in Hq. }
  { destruct (proj2 Hw3 "slide_imgs") as [->|(c & _ & Hc)].
    - apply Hunder1; [now apply prefix_app_r|apply not_eq_sym, join_ne_self].
    - now apply exported_file_not_slide_imgs in Hc. }
  { intros n. rewrite (proj1 Hw3) by (intros m; apply not_eq_sym, join_join_ne).
    apply Hunder1.
    - rewrite <- app_assoc. now apply prefix_app_r.
    - rewrite <- app_assoc. intros E. apply (f_equal length) in E.
      rewrite length_app in E. cbn in E. lia. }
  rewrite Hi3 in Hi4, Hp4, Htiles.
  destruct Htiles as (HT4 & Hframe4 & Hc4).
  { intros E. apply (f_equal length) in E. rewrite length_map in E.
    destruct names; [contradiction|discriminate]. }
  change (D ++ ["slide_imgs"]) with T in *.
  (* STEP 6: the document *)
  assert (Hout4 : ∀ p, O `prefix_of` p → fs w4 !! p = f !! p).
  { intros p Hp. destruct (output_not_scratch p Hp) as (H1 & H2 & H3 & H4).
    rewrite Hframe4, (proj1 Hw3), Hout1 by assumption. reflexivity. }
  destruct (write_document T w4)
    as (c & f6 & Hdoc & Hc6 & Himgs & HO6 & Hrest6 & Hpics).
  { now apply file_name_latin_1. }
  { now apply printable_latin_1. }
  { now apply printable_latin_1. }
  { now rewrite Hi4. }
  { now rewrite Hout4. }
  { rewrite Hout4 by now apply prefix_app_r. assumption. }
  { intros n E. destruct (output_not_scratch O) as (_ & _ & _ & H4); [reflexivity|].
    now apply (H4 n). }
  rewrite Hi4 in Himgs.
  assert (Hkeep6 : ∀ p, D `prefix_of` p → f6 !! p = fs w4 !! p).
  { intros p Hp. apply Hrest6; intros ->; apply (scratch_not_output _ Hp);
      [reflexivity|now apply prefix_app_r]. }
  exists (set_fs (λ _, f6) w4). split.
  { unfold pipeline.
    eapply run_bind_intro;
      [unfold connect_tableau; rewrite Htoken; reflexivity|]. fold w0.
    rewrite Hconfig. cbn [load_config].
    eapply run_bind_intro; [reflexivity|].
    eapply run_bind_intro; [reflexivity|].
    eapply run_bind_intro; [reflexivity|].
    eapply run_bind_intro; [reflexivity|].
    eapply run_bind_intro;
      [unfold lift; rewrite get_workbook_cases, Hwb; reflexivity|].
    eapply run_bind_intro; [reflexivity|]. cbv zeta.
    eapply run_bind_intro; [exact Hmk1|].
    eapply run_bind_intro; [exact Hexp|].
    eapply run_bind_intro; [exact Hgen|].
    eapply run_bind_intro; [exact Hdoc|]. reflexivity. }
  cbn [fs set_fs img_indexing trace signed_in].
  split_and!.
  - exact Hi4.
  - now rewrite Ht4.
  - now rewrite Hs4.
  - exists c. split_and!; [assumption..|].
    intros Hnd Hdot.
    assert (Hnames : map fst (requested_tiles (get_image_export filters) ppt_slides
                                (wb_views wb)) = tile_index (map png names)).
    { apply requested_tiles_names. intros v Hv Hreq'.
      destruct (Hrender v Hv Hreq') as (W & H & E & _). eauto. }
    rewrite Hpics, Hi4, <- Hnames, map_map. cbn [tail].
    apply Forall2_fmap_r, Forall_Forall2_diag, Forall_forall.
    intros t (v & Hv & Hreq' & Ht)%elem_of_requested_tiles.
    destruct (Hrender v Hv Hreq') as (W & H & Himg' & HW & HH & _).
    unfold view_tiles in Ht. rewrite Himg' in Ht.
    destruct (Hsz3 Hnd v Hv Hreq') as (W' & H' & E & Hfile). cbn [fs set_fs] in Hfile.
    rewrite Himg' in E. injection E as <- <-.
    assert (Htile : fs w4 !! (T ++ [t.1]) = Some (File (Png t.2.1 t.2.2))).
    { apply (Hsz4 ltac:(rewrite Hi3; apply NoDup_tile_index;
                        [now apply NoDup_filter|assumption]) (png (view_name v)) t).
      - rewrite Hi3. apply list_elem_of_fmap_2. unfold names, exported.
        apply list_elem_of_filter. split; [assumption|now apply list_elem_of_fmap_2].
      - unfold size_at. now rewrite Hfile. }
    destruct (image_tiles_sizes _ _ _ _ HW HH Ht) as [H1 H2].
    destruct (placed_ok t.2 H1 H2) as [place Hplace].
    exists place. split; [exact Hplace|].
    unfold size_at. rewrite Htile. destruct t as [n [tw th]]. cbn [fst snd] in *.
    now rewrite Hplace.
  - rewrite Hkeep6; [assumption|]. now apply prefix_app_r.
  - intros n. rewrite Hkeep6.
    + destruct (Hc4 n) as [->|(c' & -> & _)]; [|discriminate].
      rewrite (proj1 Hw3) by (intros m; apply not_eq_sym, join_join_ne).
      rewrite Hunder1; [discriminate| |].
      * unfold T, tile_dir, os_path_join. rewrite <- app_assoc. now apply prefix_app_r.
      * intros E. apply (f_equal length) in E.
        unfold T, tile_dir, os_path_join in E. rewrite !length_app in E. cbn in E. lia.
    + unfold T, tile_dir, os_path_join. rewrite <- app_assoc. now apply prefix_app_r.
  - intros n Hn. rewrite Hkeep6; [now apply Hp4|].
    unfold T, tile_dir, os_path_join. rewrite <- app_assoc. now apply prefix_app_r.
  - rewrite Hkeep6 by reflexivity.
    rewrite Hframe4; [|apply join_ne_self|intros n; apply join_join_ne_self].
    rewrite (proj1 Hw3); [assumption|]. intros n. apply join_ne_self.
  - intros n Hn. rewrite Hkeep6 by now apply prefix_app_r.
    rewrite Hframe4; [now apply Hp3| |].
    + intros E. apply join_inj in E. apply list_elem_of_fmap in Hn as (s & -> & _).
      assert (Hx : exported_file (png s) (Png 2 2)) by (left; exists s, 2, 2; auto with lia).
      now apply exported_file_not_slide_imgs in Hx.
    + intros m. apply join_join_ne.
Qed.

(** A run that is ready goes through: the index holds the tiles of the
    exported views, the server has been asked for these views between sign-in
    and sign-out, the document shows the tiles of the index, the tile
    directory is gone, and the scratch directory still holds the images of
    the views. *)
Lemma main_run :
  ∃ w', main srv a (initial_world f) = (Ok tt, w')
        ∧ img_indexing w' = tile_index (map png names)
        ∧ trace w' = SignIn :: render_calls names ++ [SignOut]
        ∧ signed_in w' = false
        ∧ (∃ c, fs w' !! (O ++ [output_file a workbook_name]) = Some (File c)
                ∧ document_images c
                  = None :: map (λ n, Some (os_path_join T n)) (tile_index (map png names))
                ∧ (NoDup (map view_name (wb_views wb)) →
                   (∀ n, n ∈ names → has_dot n = false) →
                   Forall2 (shows a)
                     (requested_tiles (get_image_export filters) ppt_slides (wb_views wb))
                     (tail (document_pictures c))))
        ∧ fs w' !! T = None
        ∧ (∀ n, fs w' !! (T ++ [n]) = None)
        ∧ fs w' !! D = Some Dir
        ∧ pngs_at D (map png names) 2 (fs w').
Proof.
  destruct pipeline_run
    as (w1 & Hpipe & Hi & Ht & Hs & (c & Hc & Hdoc & Hshows) & HT & Hfiles & _ & HD & Hp).
  destruct (cleanup_spec T w1 HT Hfiles) as (f' & Hclean & HT' & Hgone & Hrest).
  eexists. split.
  { unfold main. eapply run_bind_intro; [exact Hpipe|].
    eapply run_bind_intro; [exact Hclean|]. reflexivity. }
  cbn [emit set_signed_in set_fs fs img_indexing trace signed_in].
  split_and!; try assumption; try reflexivity.
  - now rewrite Ht.
  - exists c. split; [|split; assumption]. rewrite Hrest; [assumption|..].
    + intros E. destruct (output_not_scratch (O ++ [output_file a workbook_name]))
        as (_ & _ & H3 & _); [now apply prefix_app_r|]. contradiction.
    + intros n E. destruct (output_not_scratch (O ++ [output_file a workbook_name]))
        as (_ & _ & _ & H4); [now apply prefix_app_r|]. now apply (H4 n).
  - rewrite Hrest; [assumption|apply join_ne_self|intros n; apply join_join_ne_self].
  - intros n Hn. rewrite Hrest; [now apply Hp| |intros m; apply join_join_ne].
    intros E. apply join_inj in E. apply list_elem_of_fmap in Hn as (s & -> & _).
    assert (Hx : exported_file (png s) (Png 2 2)) by (left; exists s, 2, 2; auto with lia).
    now apply exported_file_not_slide_imgs in Hx.
Qed.

End Run.

(** ** What a run never does before its last two steps *)

Section Kept.
Import ExportAs.

Lemma session_kept_refl (w : world) : session_kept w w.
Proof. split; [auto|]. exists []. split; [now rewrite app_nil_r|apply not_elem_of_nil]. Qed.

Lemma session_kept_trans (w1 w2 w3 : world) :
  session_kept w1 w2 → session_kept w2 w3 → session_kept w1 w3.
Proof.
  intros [Hs1 (e1 & Ht1 & Hn1)] [Hs2 (e2 & Ht2 & Hn2)]. split; [auto|].
  exists (e1 ++ e2). split; [now rewrite Ht2, Ht1, app_assoc|].
  intros [?|?]%elem_of_app; auto.
Qed.

Lemma files_kept_refl (w : world) : files_kept w w.
Proof. unfold files_kept. reflexivity. Qed.

Lemma files_kept_trans (w1 w2 w3 : world) :
  files_kept w1 w2 → files_kept w2 w3 → files_kept w1 w3.
Proof. unfold files_kept. intros H1 H2. now transitivity (dom (fs w2)). Qed.

Section Always.
Context (R : world → world → Prop).
Context (R_refl : ∀ w, R w w) (R_trans : ∀ w1 w2 w3, R w1 w2 → R w2 w3 → R w1 w3).

Lemma always_ret {A} (x : A) : always R (mret x : M A).
Proof. intros w r w' [= <- <-]. apply R_refl. Qed.

Lemma always_raise {A} (e : exn) : always R (raise e : M A).
Proof. intros w r w' [= <- <-]. apply R_refl. Qed.

Lemma always_lift {A} (x : result A) : always R (lift x : M A).
Proof. intros w r w' [= <- <-]. apply R_refl. Qed.

Lemma always_bind {A B} (m : M A) (k : A → M B) :
  always R m → (∀ x, always R (k x)) → always R (m ≫= k).
Proof.
  intros Hm Hk w r w' Hrun. rewrite run_bind in Hrun.
  destruct (m w) as [[x|e] w1] eqn:E.
  - eapply R_trans; [eapply Hm, E|eapply Hk, Hrun].
  - injection Hrun as <- <-. eapply Hm, E.
Qed.

Lemma always_for_fold {A S} (l : list A) (body : S → A → M S) (acc : S) :
  (∀ acc x, always R (body acc x)) → always R (for_fold l body acc).
Proof.
  intros Hbody. revert acc. induction l as [|x l IH]; intros acc; cbn [for_fold].
  - apply always_ret.
  - apply always_bind; auto.
Qed.

Lemma always_for_each {A} (l : list A) (body : A → M unit) :
  (∀ x, always R (body x)) → always R (for_each l body).
Proof. intros Hbody. apply always_for_fold. auto. Qed.

End Always.

(** A step that leaves the session and the trace as they are. *)
Lemma session_kept_same (w w' : world) :
  signed_in w' = signed_in w → trace w' = trace w → session_kept w w'.
Proof.
  intros Hs Ht. split; [congruence|]. exists [].
  split; [now rewrite app_nil_r|apply not_elem_of_nil].
Qed.

Lemma session_kept_emit (e : event) (w : world) : e ≠ SignOut → session_kept w (emit e w).
Proof.
  intros He. split; [auto|]. exists [e]. split; [reflexivity|].
  intros E%list_elem_of_singleton. congruence.
Qed.

Lemma files_kept_same (w w' : world) : fs w' = fs w → files_kept w w'.
Proof. unfold files_kept. now intros ->. Qed.

Lemma files_kept_insert (p : path) (x : node) (w : world) :
  files_kept w (set_fs <[p := x]> w).
Proof. unfold files_kept. cbn. rewrite dom_insert. set_solver. Qed.

Lemma kept_refl (w : world) : kept w w.
Proof. split; [apply session_kept_refl|apply files_kept_refl]. Qed.

Lemma kept_trans (w1 w2 w3 : world) : kept w1 w2 → kept w2 w3 → kept w1 w3.
Proof.
  intros [? ?] [? ?]. split; [eapply session_kept_trans|eapply files_kept_trans]; eassumption.
Qed.

Lemma kept_insert (p : path) (x : node) (w : world) : kept w (set_fs <[p := x]> w).
Proof. split; [now apply session_kept_same|apply files_kept_insert]. Qed.

Lemma always_kept_write_file (p : path) (c : content) : always kept (write_file p c).
Proof.
  intros w r w'. unfold write_file.
  destruct (negb _); [intros [= <- <-]; apply kept_refl|].
  destruct p as [|x p]; [intros [= <- <-]; apply kept_refl|].
  destruct (fs w !! _) as [[|]|]; intros [= <- <-];
    try apply kept_refl; apply kept_insert.
Qed.

Lemma always_kept_put (p : path) (x : node) : always kept (modify (set_fs <[p := x]>)).
Proof. intros w r w' [= <- <-]. apply kept_insert. Qed.

Lemma always_kept_Image_save (p : path) (size : Z * Z) : always kept (Image_save p size).
Proof.
  unfold Image_save. destruct (_ && _); [apply always_kept_write_file|].
  intros w r w'. destruct (write_file p Empty w) as [[[]|e] w1] eqn:Hopen;
    apply always_kept_write_file in Hopen; intros [= <- <-]; [|exact Hopen].
  destruct (decide _); [exact Hopen|apply kept_refl].
Qed.

Lemma always_kept_output (doc : FPDF) (p : path) : always kept (output doc p).
Proof.
  unfold output. destruct (forallb _ _); [apply always_kept_write_file|].
  intros w r w' [= <- <-]. apply kept_refl.
Qed.

Lemma always_kept_Image_open (p : path) : always kept (Image_open p).
Proof.
  intros w r w'. unfold Image_open.
  destruct p as [|x p]; [intros [= <- <-]; apply kept_refl|].
  destruct (fs w !! _) as [[[]|]|]; intros [= <- <-]; apply kept_refl.
Qed.

Lemma always_kept_makedirs (p : path) : always kept (makedirs p).
Proof.
  apply always_for_each; [apply kept_refl|apply kept_trans|].
  intros q w r w'. unfold mkdir_exist_ok.
  destruct (fs w !! q) as [[|]|]; [destruct (decide _)| |destruct (is_dir _ _)];
    intros [= <- <-]; try apply kept_refl; apply kept_insert.
Qed.

Lemma always_kept_connect (srv : server) : always kept (connect_tableau srv).
Proof.
  intros w r w'. unfold connect_tableau.
  destruct (accepts_token srv); intros [= <- <-]; [|apply kept_refl].
  split; [|now apply files_kept_same].
  split; [reflexivity|]. exists [SignIn]. split; [reflexivity|].
  now intros [=]%list_elem_of_singleton.
Qed.

Lemma always_kept_populate_image (v : view) (opts : ImageRequestOptions) :
  always kept (populate_image v opts).
Proof.
  intros w r w'. unfold populate_image.
  destruct (view_image v opts); intros [= <- <-];
    (split; [now apply session_kept_emit|now apply files_kept_same]).
Qed.

Lemma always_kept_populate_csv (v : view) (opts : ImageRequestOptions) :
  always kept (populate_csv v opts).
Proof.
  intros w r w'. unfold populate_csv.
  destruct (view_csv v opts); intros [= <- <-];
    (split; [now apply session_kept_emit|now apply files_kept_same]).
Qed.

Lemma always_kept_set_index (g : world → list string) :
  always kept (modify (λ w, set_img_indexing (g w) w)).
Proof.
  intros w r w' [= <- <-]. split; [now apply session_kept_same|now apply files_kept_same].
Qed.

Lemma always_kept_replace_index (l : list string) :
  always kept (modify (set_img_indexing l)).
Proof. apply (always_kept_set_index (λ _, l)). Qed.

Lemma always_kept_get_images (d : path) : always kept (get_images d).
Proof. intros w r w' [= <- <-]. apply kept_refl. Qed.

Lemma always_kept_global_img_indexing : always kept global_img_indexing.
Proof. intros w r w' [= <- <-]. apply kept_refl. Qed.

Create HintDb kept.
#[local] Hint Resolve kept_refl kept_trans : kept.
#[local] Hint Resolve always_kept_write_file always_kept_Image_open always_kept_makedirs
  always_kept_put always_kept_Image_save always_kept_output
  always_kept_connect always_kept_populate_image always_kept_populate_csv
  always_kept_get_images always_kept_global_img_indexing always_kept_set_index
  always_kept_replace_index : kept.

Ltac kept_steps :=
  repeat first
    [ solve [auto with kept]
    | apply always_bind; [apply kept_trans| |intros ?]
    | apply always_for_fold; [apply kept_refl|apply kept_trans|intros ? ?]
    | apply always_for_each; [apply kept_refl|apply kept_trans|intros ?]
    | apply always_ret; apply kept_refl
    | apply always_lift; apply kept_refl
    | apply always_raise; apply kept_refl
    | progress cbv zeta
    | match goal with |- always _ (match ?x with _ => _ end) => destruct x end
    | match goal with |- always _ (if ?x then _ else _) => destruct x end ].

Lemma always_kept_export_images (wb : workbook) (opts : ImageRequestOptions)
    (img_dir : path) (ppt_slides : list string) :
  always kept (export_images wb opts img_dir ppt_slides).
Proof.
  unfold export_images. kept_steps.
Qed.

Lemma always_kept_split_image (image_path output_dir : path) (rows cols : nat)
    (img_name : string) (tmp_index : list string) :
  always kept (split_image image_path output_dir rows cols img_name tmp_index).
Proof. unfold split_image. kept_steps. Qed.

Lemma always_kept_generate_slide_imgs (img_dir : path) :
  always kept (generate_slide_imgs img_dir).
Proof.
  unfold generate_slide_imgs. kept_steps.
Qed.

Lemma always_kept_create_deck (size : Z * Z) (now project_name : string)
    (img_dir export_path : path) (workbook_name : string) :
  always kept (create_deck size now project_name img_dir export_path workbook_name).
Proof. unfold create_deck, add_image_to_ppt. kept_steps. Qed.

Lemma always_kept_export_as_pdf (size : Q * Q) (now : string)
    (img_dir output_path : path) (cfg : pdf_config) :
  always kept (export_as_pdf size now img_dir output_path cfg).
Proof. unfold export_as_pdf, add_image_to_pdf. kept_steps. Qed.

#[local] Hint Resolve always_kept_export_images always_kept_generate_slide_imgs
  always_kept_create_deck always_kept_export_as_pdf : kept.

(** STEP 1 to STEP 6 never sign out and never remove a file. *)
Lemma always_kept_pipeline (srv : server) (a : args) : always kept (pipeline srv a).
Proof.
  unfold pipeline, load_config. kept_steps.
Qed.

(** STEP 7 never signs out. *)
Lemma always_session_kept_cleanup (img_dir : path) :
  always session_kept (cleanup img_dir).
Proof.
  unfold cleanup.
  apply always_bind; [apply session_kept_trans| |intros files].
  { intros w r w'. unfold listdir. destruct (is_dir _ _); [|destruct (fs w !! _)];
      intros [= <- <-]; apply session_kept_refl. }
  apply always_bind; [apply session_kept_trans| |intros _].
  - apply always_for_each; [apply session_kept_refl|apply session_kept_trans|].
    intros file w r w'. unfold remove.
    destruct (fs w !! _) as [[|]|]; intros [= <- <-];
      first [apply session_kept_refl | now apply session_kept_same].
  - intros w r w'. unfold rmdir.
    destruct (fs w !! _) as [[|]|]; [| destruct (children _ _) |]; intros [= <- <-];
      first [apply session_kept_refl | now apply session_kept_same].
Qed.

End Kept.

(** ** The claims about a run *)

Section RunClaims.
Import ExportAs.

Lemma length_tile_index (index : list string) :
  length (tile_index index) = (length index * 3)%nat.
Proof.
  induction index as [|x l IH]; [reflexivity|].
  change (tile_index (x :: l)) with (tiles_of x ++ tile_index l).
  rewrite length_app, IH, tiles_of_eq. reflexivity.
Qed.

Lemma exported_length (ppt_slides : list string) (views : list view) :
  NoDup ppt_slides → NoDup (map view_name views) →
  (∀ n, n ∈ ppt_slides → n ∈ map view_name views) →
  length (exported ppt_slides views) = length ppt_slides.
Proof.
  intros Hs Hv Hall. apply Permutation_length, NoDup_Permutation.
  - now apply NoDup_filter.
  - assumption.
  - intros x. unfold exported. rewrite list_elem_of_filter. split; [tauto|auto].
Qed.

Lemma ex_run_ready (kind : export_kind) :
  run_ready ex_server (ex_args ex_config kind) ∅ "Sales" "Prod" ex_slide_views
    (FiltersList []) ex_workbook.
Proof.
  split; try reflexivity.
  - intros E. vm_compute in E. discriminate E.
  - intros v Hv _. exists 1601, 901.
    cbn in Hv. rewrite !elem_of_cons in Hv.
    destruct Hv as [->|[->|[->|Hv]]]; [| | |now apply not_elem_of_nil in Hv];
      (split_and!; [reflexivity|lia|lia|reflexivity]).
  - now left.
  - left. apply lookup_empty.
  - rewrite lookup_empty. discriminate.
  - split; reflexivity.
  - intros v Hv _. cbn in Hv. rewrite !elem_of_cons in Hv.
    destruct Hv as [->|[->|[->|Hv]]]; [reflexivity..|now apply not_elem_of_nil in Hv].
Qed.

(** C1, as the code has it.  In a run that goes through, for N distinct
    requested names without "." that each name one view of the workbook,
    the index has N x 3 tiles, all different: the tiles of the requested
    views in the order of the views on the workbook, each view's tiles in
    row-major order without the tile of row 0 and column 1.  The document
    has a slide or page for each tile of the index, in this order after its
    title, and each shows the tile of its view: the crop of that size of
    the image the server rendered of the view. *)
Theorem tiles_in_workbook_order (srv : server) (a : args) (f : gmap path node)
    (workbook_name project_name : string) (ppt_slides : list string)
    (filters : filters_value) (wb : workbook) :
  run_ready srv a f workbook_name project_name ppt_slides filters wb →
  NoDup ppt_slides → NoDup (map view_name (wb_views wb)) →
  (∀ n, n ∈ ppt_slides → n ∈ map view_name (wb_views wb)) →
  (∀ n, n ∈ ppt_slides → has_dot n = false) →
  ∃ w', main srv a (initial_world f) = (Ok tt, w')
        ∧ length (img_indexing w') = (length ppt_slides * 3)%nat
        ∧ img_indexing w' = tile_index (map png (exported ppt_slides (wb_views wb)))
        ∧ NoDup (img_indexing w')
        ∧ ∃ c, fs w' !! (output_dir a ++ [output_file a workbook_name]) = Some (File c)
               ∧ document_images c
                 = None :: map (λ n, Some (os_path_join (tile_dir a) n)) (img_indexing w')
               ∧ Forall2 (shows a)
                   (requested_tiles (get_image_export filters) ppt_slides (wb_views wb))
                   (tail (document_pictures c)).
Proof.
  intros Hready Hs Hv Hall Hdot.
  assert (Hdot' : ∀ n, n ∈ exported ppt_slides (wb_views wb) → has_dot n = false).
  { intros n [Hn _]%list_elem_of_filter. now apply Hdot. }
  destruct (main_run srv a f workbook_name project_name ppt_slides filters wb Hready)
    as (w' & Hrun & Hi & _ & _ & (c & Hc & Hdoc & Hshows) & _).
  exists w'. split; [exact Hrun|]. rewrite Hi. split_and!.
  - now rewrite length_tile_index, length_map, exported_length.
  - reflexivity.
  - apply NoDup_tile_index; [now apply NoDup_filter|exact Hdot'].
  - exists c. split_and!; [assumption..|now apply Hshows].
Qed.

Lemma tiles_in_workbook_order_witness :
  ∃ w', main ex_server (ex_args ex_config ppt) (initial_world ∅) = (Ok tt, w')
        ∧ length (img_indexing w') = (length ex_slide_views * 3)%nat
        ∧ img_indexing w'
          = tile_index (map png (exported ex_slide_views (wb_views ex_workbook)))
        ∧ NoDup (img_indexing w')
        ∧ ∃ c, fs w' !! (output_dir (ex_args ex_config ppt)
                          ++ [output_file (ex_args ex_config ppt) "Sales"]) = Some (File c)
               ∧ document_images c
                 = None :: map (λ n, Some (os_path_join (tile_dir (ex_args ex_config ppt)) n))
                               (img_indexing w')
               ∧ Forall2 (shows (ex_args ex_config ppt))
                   (requested_tiles (get_image_export (FiltersList [])) ex_slide_views
                      (wb_views ex_workbook))
                   (tail (document_pictures c)).
Proof.
  apply (tiles_in_workbook_order ex_server (ex_args ex_config ppt) ∅ "Sales" "Prod"
           ex_slide_views (FiltersList []) ex_workbook (ex_run_ready ppt)).
  - compute_done.
  - compute_done.
  - intros n Hn. unfold ex_slide_views in Hn. rewrite !elem_of_cons in Hn.
    destruct Hn as [->|[->|Hn]]; [compute_done|compute_done|].
    now apply not_elem_of_nil in Hn.
  - intros n Hn. unfold ex_slide_views in Hn. rewrite !elem_of_cons in Hn.
    destruct Hn as [->|[->|Hn]]; [reflexivity|reflexivity|].
    now apply not_elem_of_nil in Hn.
Defined.

(** C1 as stated fails: with the views requested in the order Detail,
    Overview and the workbook in the order Overview, Detail, the index and
    the document have the tiles of Overview first. *)
Lemma tiles_not_in_slide_views_order :
  let run := main ex_server (ex_args ex_config ppt) (initial_world ∅) in
  run.1 = Ok tt
  ∧ img_indexing run.2
    = ["Overview_tile_0_0.png"; "Overview_tile_1_0.png"; "Overview_tile_1_1.png";
       "Detail_tile_0_0.png"; "Detail_tile_1_0.png"; "Detail_tile_1_1.png"]
  ∧ img_indexing run.2 ≠ tile_index (map png ex_slide_views)
  ∧ (document_images <$> (fs run.2 !! ["ppt"; "Sales.pptx"] ≫= λ x,
        match x with File c => Some c | Dir => None end))
    ≠ Some (None :: map (λ n, Some (os_path_join (tile_dir (ex_args ex_config ppt)) n))
                        (tile_index (map png ex_slide_views))).
Proof.
  cbv zeta. split_and!.
  - vm_compute. reflexivity.
  - vm_compute. reflexivity.
  - vm_compute. intros [=].
  - vm_compute. intros [=].
Qed.

(** Why the names have no ".": the views Q.1 and Q.2 have the same tile
    names.  The tiles of the second view overwrite those of the first, and
    the document shows the same three pictures twice. *)
Lemma views_with_a_dot_share_tiles :
  let run := main ex_dotted_server (ex_args ex_config_dotted ppt) (initial_world ∅) in
  let pictures :=
    from_option document_pictures []
      (fs run.2 !! ["ppt"; "Sales.pptx"] ≫= λ x,
         match x with File c => Some c | Dir => None end) in
  run.1 = Ok tt
  ∧ img_indexing run.2
    = ["Q_tile_0_0.png"; "Q_tile_1_0.png"; "Q_tile_1_1.png";
       "Q_tile_0_0.png"; "Q_tile_1_0.png"; "Q_tile_1_1.png"]
  ∧ length pictures = 7%nat
  ∧ take 3 (tail pictures) = drop 3 (tail pictures).
Proof. cbv zeta. split_and!; vm_compute; reflexivity. Qed.

(** When no view of the workbook is requested, no image is split and the
    tile directory is never made: the document is written with its title
    only, and the clean-up step then raises on listing the directory. *)
Lemma run_without_views_fails_at_cleanup :
  let run := main ex_server (ex_args ex_config_no_view pdf) (initial_world ∅) in
  run.1 = Raise FileNotFoundError
  ∧ img_indexing run.2 = []
  ∧ (document_images <$> (fs run.2 !! ["pdf"; "Sales.pdf"] ≫= λ x,
        match x with File c => Some c | Dir => None end)) = Some [None]
  ∧ signed_in run.2 = true.
Proof. cbv zeta. split_and!; vm_compute; reflexivity. Qed.

End RunClaims.

(** ** The claims about the stages *)

Section StageClaims.
Import ExportAs.

Lemma floor_half (a : Z) : 2 * (a / 2) = a - a mod 2.
Proof. pose proof (Z.div_mod a 2). lia. Qed.

(** C3.  An image of [W] x [H] pixels split with 2 rows and 2 columns: the
    tile width is [W // 2] and the tile height [H // 2]; the crop of row 0
    is [W] wide and [H // 2] high; the two crops of row 1 are [W // 2] wide
    and [H // 2] high; row 1 ends at twice the tile width and the grid at
    twice the tile height, which leaves the last column of an odd width and
    the last row of an odd height in no tile of row 1.  When the image has
    at least 2 pixels each way, so that no crop is empty, and a file name
    for name, [split_image] writes the three tiles with these sizes. *)
Theorem tile_geometry (D : path) (img_file : string) (tmp_index : list string)
    (W H : Z) (w : world) :
  let T := D ++ ["slide_imgs"] in
  let img_name := split_dot_0 img_file in
  let tile_width := W / 2 in
  let tile_height := H / 2 in
  (floordiv W 2 = Ok tile_width ∧ floordiv H 2 = Ok tile_height
   ∧ crop_size (tile_box W H tile_width tile_height 0 0) = (W, tile_height)
   ∧ crop_size (tile_box W H tile_width tile_height 1 0) = (tile_width, tile_height)
   ∧ crop_size (tile_box W H tile_width tile_height 1 1) = (tile_width, tile_height)
   ∧ tile_box W H tile_width tile_height 1 1
     = (tile_width, tile_height, tile_width + tile_width, tile_height + tile_height)
   ∧ tile_width + tile_width = W - W mod 2
   ∧ tile_height + tile_height = H - H mod 2)
  ∧ (2 ≤ W → 2 ≤ H →
     plain_path D = true → file_name img_file = true →
     fs w !! (D ++ [img_file]) = Some (File (Png W H)) →
     (∀ q, q ∈ prefixes D → fs w !! q = Some Dir) →
     (fs w !! T = None ∨ fs w !! T = Some Dir) →
     (∀ n, fs w !! (T ++ [n]) ≠ Some Dir) →
     ∃ w', split_image (os_path_join D img_file) (os_path_join D "slide_imgs") 2 2
             img_name tmp_index w
           = (Ok (tmp_index ++ [export_name img_name 0 0; export_name img_name 1 0;
                                export_name img_name 1 1]), w')
           ∧ fs w' !! (T ++ [export_name img_name 0 0]) = Some (File (Png W tile_height))
           ∧ fs w' !! (T ++ [export_name img_name 1 0])
             = Some (File (Png tile_width tile_height))
           ∧ fs w' !! (T ++ [export_name img_name 1 1])
             = Some (File (Png tile_width tile_height))).
Proof.
  intros T img_name tile_width tile_height. split.
  - pose proof (floor_half W). pose proof (floor_half H).
    destruct (tile_sizes W H 0) as [E00 E10]. destruct (tile_sizes W H 1) as [_ E11].
    split_and!; try reflexivity; try assumption.
    + unfold tile_box. cbn [Nat.eqb]. repeat f_equal; lia.
    + unfold tile_width. lia.
    + unfold tile_height. lia.
  - intros HW HH _ _ Himg Hdirs HT Hfree.
    destruct (split_image_spec D img_file tmp_index W H w HW HH Himg Hdirs HT Hfree)
      as (f1 & Hrun & _ & _).
    destruct (export_name_cells img_name) as (N1 & N2 & N3).
    eexists. split; [exact Hrun|].
    cbn [fs set_fs]. unfold with_tiles. fold T img_name tile_width tile_height.
    assert (Hne : ∀ n m, n ≠ m → T ++ [n] ≠ T ++ [m]).
    { intros n m Hnm E. now apply join_inj in E. }
    split_and!.
    + rewrite !lookup_insert_ne by (apply Hne; auto). apply lookup_insert_eq.
    + rewrite lookup_insert_ne by (apply Hne; auto). apply lookup_insert_eq.
    + apply lookup_insert_eq.
Qed.

Lemma tile_geometry_witness :
  let w := initial_world ex_scratch in
  let D := ["img"; "0b5e"] in
  (floordiv 1601 2 = Ok 800 ∧ floordiv 901 2 = Ok 450
   ∧ crop_size (tile_box 1601 901 800 450 0 0) = (1601, 450)
   ∧ crop_size (tile_box 1601 901 800 450 1 0) = (800, 450)
   ∧ crop_size (tile_box 1601 901 800 450 1 1) = (800, 450)
   ∧ tile_box 1601 901 800 450 1 1 = (800, 450, 1600, 900)
   ∧ 1600 = 1601 - 1 ∧ 900 = 901 - 1)
  ∧ ∃ w', split_image (os_path_join D "Overview.png") (os_path_join D "slide_imgs") 2 2
            "Overview" [] w
          = (Ok ["Overview_tile_0_0.png"; "Overview_tile_1_0.png"; "Overview_tile_1_1.png"],
             w')
          ∧ fs w' !! (D ++ ["slide_imgs"; "Overview_tile_0_0.png"])
            = Some (File (Png 1601 450))
          ∧ fs w' !! (D ++ ["slide_imgs"; "Overview_tile_1_0.png"])
            = Some (File (Png 800 450))
          ∧ fs w' !! (D ++ ["slide_imgs"; "Overview_tile_1_1.png"])
            = Some (File (Png 800 450)).
Proof.
  destruct (tile_geometry ["img"; "0b5e"] "Overview.png" [] 1601 901
              (initial_world ex_scratch)) as [Hgeometry Hrun].
  split; [exact Hgeometry|]. apply Hrun.
  - lia.
  - lia.
  - reflexivity.
  - reflexivity.
  - reflexivity.
  - intros q Hq. cbn in Hq. rewrite !elem_of_cons in Hq.
    destruct Hq as [->|[->|Hq]]; [reflexivity|reflexivity|].
    now apply not_elem_of_nil in Hq.
  - left. reflexivity.
  - intros n. cbn. unfold ex_scratch.
    rewrite !lookup_insert_ne by (intros [=]). rewrite lookup_empty. discriminate.
Defined.

(** An image that is 1 pixel wide has an empty crop in row 1: the save of
    that tile raises, once the tile of row 0 has been written. *)
Lemma narrow_image_is_not_split :
  let w := initial_world (<[["img"; "0b5e"; "Line.png"] := File (Png 1 901)]> ex_scratch) in
  let run := split_image ["img"; "0b5e"; "Line.png"] ["img"; "0b5e"; "slide_imgs"] 2 2
               "Line" [] w in
  run.1 = Raise ValueError
  ∧ fs run.2 !! ["img"; "0b5e"; "slide_imgs"; "Line_tile_0_0.png"]
    = Some (File (Png 1 450))
  ∧ fs run.2 !! ["img"; "0b5e"; "slide_imgs"; "Line_tile_1_0.png"] = None.
Proof. cbv zeta. split_and!; vm_compute; reflexivity. Qed.



End StageClaims.

(** ** Failing runs: configuration, clean-up and sign-out *)

Section FailingRuns.
Import ExportAs.

(** A run in which a step before the clean-up raises ends there. *)
Lemma main_raises_with_pipeline (srv : server) (a : args) (w w' : world) (e : exn) :
  pipeline srv a w = (Raise e, w') → main srv a w = (Raise e, w').
Proof. intros H. unfold main. now apply run_bind_raise. Qed.

Lemma pipeline_after_sign_in (srv : server) (a : args) (w : world) :
  accepts_token srv = true →
  pipeline srv a w = pipeline srv a (set_signed_in true w).
Proof.
  intros Htoken. unfold pipeline. rewrite !run_bind. unfold connect_tableau.
  rewrite Htoken. destruct w. reflexivity.
Qed.

Lemma pipeline_session (srv : server) (a : args) (w : world) (r : result path) (w' : world) :
  pipeline srv a w = (r, w') → accepts_token srv = true → signed_in w' = true.
Proof.
  intros Hrun Htoken. rewrite pipeline_after_sign_in in Hrun by assumption.
  apply always_kept_pipeline in Hrun as [[Hs _] _]. now apply Hs.
Qed.

Ltac raise_steps :=
  repeat first [ apply run_bind_raise; reflexivity
               | eapply run_bind_intro; [reflexivity|] ].

(** C6, as the code has it.  Loading the configuration fails exactly when
    the file is missing, unreadable or not valid JSON, with the exception of
    the failed call.  Each of the keys workbook_name, project_name,
    slide_views and filters is read by subscript, in this order, the last
    one after the workbook has been resolved: the run raises [KeyError] for
    the first key that is absent, and nothing is defaulted.  A filters value
    that is null or an empty array adds no view filter. *)
Theorem config_errors (srv : server) (a : args) (w : world) :
  accepts_token srv = true →
  let w0 := emit SignIn (set_signed_in true w) in
  (∀ cf, is_ok (load_config cf w0).1 = true ↔ ∃ d, cf = Parsed d)
  ∧ match config_file a with
    | Missing => main srv a w = (Raise FileNotFoundError, w0)
    | Unreadable => main srv a w = (Raise PermissionError, w0)
    | Malformed => main srv a w = (Raise JSONDecodeError, w0)
    | Parsed JOther => main srv a w = (Raise TypeError, w0)
    | Parsed (JObject c) =>
        match c_workbook_name c, c_project_name c, c_slide_views c with
        | None, _, _ => main srv a w = (Raise (KeyError "workbook_name"), w0)
        | Some _, None, _ => main srv a w = (Raise (KeyError "project_name"), w0)
        | Some _, Some _, None => main srv a w = (Raise (KeyError "slide_views"), w0)
        | Some workbook_name, Some project_name, Some _ =>
            match get_workbook srv workbook_name project_name, c_filters c with
            | Raise e, _ => main srv a w = (Raise e, w0)
            | Ok _, None => main srv a w = (Raise (KeyError "filters"), w0)
            | Ok _, Some filters =>
                filters = FiltersNull ∨ filters = FiltersList [] →
                get_image_export filters = []
            end
        end
    end.
Proof.
  intros Htoken w0. split.
  { intros cf. split.
    - destruct cf; cbn; try discriminate. eauto.
    - intros [d ->]. reflexivity. }
  assert (Hstart : ∀ res,
    (load_config (config_file a) ≫= λ config,
       workbook_name ← lift (getitem "workbook_name" c_workbook_name config);
       project_name ← lift (getitem "project_name" c_project_name config);
       ppt_slides ← lift (getitem "slide_views" c_slide_views config);
       wb ← lift (get_workbook srv workbook_name project_name);
       filters ← lift (getitem "filters" c_filters config);
       let image_export_option := get_image_export filters in
       let img_dir := os_path_join img_export (export_id a) in
       makedirs img_dir;;
       export_images wb image_export_option img_dir ppt_slides;;
       img_dir ← generate_slide_imgs img_dir;
       match export_type a with
       | ppt =>
           let ppt_location := os_path_join ppt_location "ppt" in
           makedirs ppt_location;;
           let export_path := os_path_join ppt_location (workbook_name +:+ ".pptx") in
           create_deck (template_slide_size a) (now a) project_name img_dir export_path
             workbook_name
       | pdf =>
           let cfg := PdfConfig workbook_name (Some project_name) in
           let pdf_dir := os_path_join ppt_location "pdf" in
           makedirs pdf_dir;;
           let output_file := os_path_join pdf_dir (workbook_name +:+ ".pdf") in
           export_as_pdf (pdf_page_size a) (now a) img_dir output_file cfg
       end;;
       mret img_dir) w0 = (Raise res, w0) →
    main srv a w = (Raise res, w0)).
  { intros res Hres. apply main_raises_with_pipeline. unfold pipeline.
    eapply run_bind_intro; [unfold connect_tableau; rewrite Htoken; reflexivity|].
    exact Hres. }
  destruct (config_file a) as [| | |[c|]]; try (apply Hstart; reflexivity).
  destruct c as [[wn|] [pn|] [sv|] fl];
    cbn [c_workbook_name c_project_name c_slide_views c_filters];
    try (apply Hstart; reflexivity).
  destruct (get_workbook srv wn pn) as [wb|e] eqn:Hwb.
  - destruct fl as [fl|].
    + intros [->| ->]; reflexivity.
    + apply Hstart. raise_steps.
      eapply run_bind_intro; [unfold lift; rewrite Hwb; reflexivity|]. raise_steps.
  - apply Hstart. raise_steps. apply run_bind_raise. unfold lift. rewrite Hwb. reflexivity.
Qed.

Lemma config_errors_witness :
  let a := ex_args ex_config_without_filters ppt in
  let w0 := emit SignIn (set_signed_in true (initial_world ∅)) in
  (∀ cf, is_ok (load_config cf w0).1 = true ↔ ∃ d, cf = Parsed d)
  ∧ main ex_server a (initial_world ∅) = (Raise (KeyError "filters"), w0).
Proof.
  apply (config_errors ex_server (ex_args ex_config_without_filters ppt) (initial_world ∅)).
  reflexivity.
Defined.

(** C6 as stated fails: a configuration that has the three required keys
    and no filters key does not run without filtering, it raises
    [KeyError] before any view is requested. *)
Lemma filters_key_is_required :
  let run := main ex_server (ex_args ex_config_without_filters ppt) (initial_world ∅) in
  run.1 = Raise (KeyError "filters") ∧ trace run.2 = [SignIn] ∧ fs run.2 = ∅.
Proof. cbv zeta. split_and!; vm_compute; reflexivity. Qed.

(** C8, as the code has it.  The clean-up is the step before sign-out of a
    run in which nothing raised: a run that is ready, which includes that
    the names it makes files of are file names, goes through, and after it
    the tile directory and the tiles in it are gone.  When a step before the
    clean-up raises, the run ends there and no file or directory has been
    removed. *)
Theorem cleanup_only_after_success (srv : server) (a : args) (f : gmap path node)
    (workbook_name project_name : string) (ppt_slides : list string)
    (filters : filters_value) (wb : workbook)
    (srv2 : server) (a2 : args) (w2 w2' : world) (e : exn) :
  run_ready srv a f workbook_name project_name ppt_slides filters wb →
  pipeline srv2 a2 w2 = (Raise e, w2') →
  (∃ w', main srv a (initial_world f) = (Ok tt, w')
         ∧ fs w' !! tile_dir a = None
         ∧ ∀ n, fs w' !! (tile_dir a ++ [n]) = None)
  ∧ main srv2 a2 w2 = (Raise e, w2')
  ∧ dom (fs w2) ⊆ dom (fs w2').
Proof.
  intros Hready Hfail. split_and!.
  - destruct (main_run srv a f workbook_name project_name ppt_slides filters wb Hready)
      as (w' & Hrun & _ & _ & _ & _ & HT & Hgone & _).
    exists w'. split_and!; assumption.
  - now apply main_raises_with_pipeline.
  - now apply always_kept_pipeline in Hfail as [_ Hfiles].
Qed.

Lemma cleanup_only_after_success_witness :
  let a := ex_args ex_config ppt in
  let failed := pipeline ex_broken_server a (initial_world ∅) in
  (∃ w', main ex_server a (initial_world ∅) = (Ok tt, w')
         ∧ fs w' !! tile_dir a = None
         ∧ ∀ n, fs w' !! (tile_dir a ++ [n]) = None)
  ∧ main ex_broken_server a (initial_world ∅) = (Raise ServerResponseError, failed.2)
  ∧ dom (fs (initial_world ∅)) ⊆ dom (fs failed.2).
Proof.
  apply (cleanup_only_after_success ex_server (ex_args ex_config ppt) ∅ "Sales" "Prod"
           ex_slide_views (FiltersList []) ex_workbook
           ex_broken_server (ex_args ex_config ppt) (initial_world ∅)).
  - apply ex_run_ready.
  - vm_compute. reflexivity.
Defined.

(** C8 as stated fails.  After a run that goes through, the scratch
    directory is still there, with the image and the data extract of each
    exported view; after a run in which the server fails to render the
    second view, nothing has been cleaned up either. *)
Lemma scratch_directory_is_left_behind :
  let ok := main ex_server (ex_args ex_config ppt) (initial_world ∅) in
  let failed := main ex_broken_server (ex_args ex_config ppt) (initial_world ∅) in
  (ok.1 = Ok tt
   ∧ fs ok.2 !! scratch_dir (ex_args ex_config ppt) = Some Dir
   ∧ fs ok.2 !! ["img"; "0b5e"; "Overview.png"] = Some (File (Png 1601 901))
   ∧ fs ok.2 !! ["img"; "0b5e"; "Overview.csv"] = Some (File Csv))
  ∧ (failed.1 = Raise ServerResponseError
     ∧ fs failed.2 !! scratch_dir (ex_args ex_config ppt) = Some Dir
     ∧ fs failed.2 !! ["img"; "0b5e"; "Overview.png"] = Some (File (Png 1601 901))
     ∧ fs failed.2 !! ["img"; "0b5e"; "Overview.csv"] = Some (File Csv)).
Proof. cbv zeta. split_and!; vm_compute; reflexivity. Qed.

Lemma process_site_signs_out (clock : nat → Z) (srv : DeactivateUsers.server)
    (w : DeactivateUsers.world) (r : result unit) (w' : DeactivateUsers.world) :
  DeactivateUsers.process_site clock srv w = (r, w') →
  if DeactivateUsers.accepts_token srv
  then r = Ok tt ∧ last (DeactivateUsers.trace w') = Some SignOut
       ∧ DeactivateUsers.signed_in w' = false
  else r = Raise ServerResponseError ∧ w' = w.
Proof.
  unfold DeactivateUsers.process_site. rewrite run_bind.
  unfold DeactivateUsers.tableau_signin at 1.
  destruct (DeactivateUsers.accepts_token srv); [|now intros [= <- <-]].
  unfold try_finally, try_except.
  destruct (DeactivateUsers.site_tasks clock srv _) as [[[]|e] w2];
    intros [= <- <-]; (split_and!; [reflexivity|apply last_snoc|reflexivity]).
Qed.

(** C9, as the code has it.  The export signs out as the last step of a run
    in which nothing raised; when a step raises, the run ends without a
    sign-out, and the session it opened is left open.  The deactivation
    script signs out of a site in a [finally] block: once signed in, the
    processing of the site ends with a sign-out whatever its steps did. *)
Theorem sign_out_paths (srv : server) (a : args) (w : world) (r : result unit) (w' : world)
    (clock : nat → Z) (dsrv : DeactivateUsers.server)
    (dw : DeactivateUsers.world) (dr : result unit) (dw' : DeactivateUsers.world) :
  main srv a w = (r, w') →
  DeactivateUsers.process_site clock dsrv dw = (dr, dw') →
  match r with
  | Ok _ => last (trace w') = Some SignOut ∧ signed_in w' = false
  | Raise _ =>
      (∃ evs, trace w' = trace w ++ evs ∧ SignOut ∉ evs)
      ∧ (accepts_token srv = true → signed_in w' = true)
  end
  ∧ if DeactivateUsers.accepts_token dsrv
    then dr = Ok tt ∧ last (DeactivateUsers.trace dw') = Some SignOut
         ∧ DeactivateUsers.signed_in dw' = false
    else dr = Raise ServerResponseError ∧ dw' = dw.
Proof.
  intros Hmain Hsite. split; [|now apply process_site_signs_out in Hsite].
  unfold main in Hmain. rewrite run_bind in Hmain.
  destruct (pipeline srv a w) as [[img_dir|e] w1] eqn:Hpipe.
  - rewrite run_bind in Hmain.
    destruct (cleanup img_dir w1) as [[[]|e] w2] eqn:Hclean.
    + injection Hmain as <- <-. split; [apply last_snoc|reflexivity].
    + injection Hmain as <- <-.
      pose proof (always_kept_pipeline srv a _ _ _ Hpipe) as [Hs1 _].
      pose proof (always_session_kept_cleanup img_dir _ _ _ Hclean) as Hs2.
      destruct (session_kept_trans _ _ _ Hs1 Hs2) as [_ Hevs]. split; [exact Hevs|].
      intros Htoken. apply Hs2. eapply pipeline_session; eassumption.
  - injection Hmain as <- <-.
    pose proof (always_kept_pipeline srv a _ _ _ Hpipe) as [[_ Hevs] _].
    split; [exact Hevs|]. intros Htoken. eapply pipeline_session; eassumption.
Qed.

Lemma sign_out_paths_witness :
  let run := main ex_server (ex_args ex_config_other_project ppt) (initial_world ∅) in
  let site := DeactivateUsers.process_site DeactivateUsers.ex_clock
                DeactivateUsers.ex_server DeactivateUsers.ex_world in
  ((∃ evs, trace run.2 = trace (initial_world ∅) ++ evs ∧ SignOut ∉ evs)
   ∧ (accepts_token ex_server = true → signed_in run.2 = true))
  ∧ site.1 = Ok tt ∧ last (DeactivateUsers.trace site.2) = Some SignOut
    ∧ DeactivateUsers.signed_in site.2 = false.
Proof.
  apply (sign_out_paths ex_server (ex_args ex_config_other_project ppt) (initial_world ∅)
           (Raise (NotFoundError "Sales" "QA"))
           (main ex_server (ex_args ex_config_other_project ppt) (initial_world ∅)).2
           DeactivateUsers.ex_clock DeactivateUsers.ex_server DeactivateUsers.ex_world
           (DeactivateUsers.process_site DeactivateUsers.ex_clock
              DeactivateUsers.ex_server DeactivateUsers.ex_world).1
           (DeactivateUsers.process_site DeactivateUsers.ex_clock
              DeactivateUsers.ex_server DeactivateUsers.ex_world).2).
  - vm_compute. reflexivity.
  - vm_compute. reflexivity.
Defined.

(** C9 as stated fails: when the workbook is not found, the export ends
    with the error, signed in and without a sign-out. *)
Lemma export_fails_without_sign_out :
  let run := main ex_server (ex_args ex_config_other_project ppt) (initial_world ∅) in
  run.1 = Raise (NotFoundError "Sales" "QA")
  ∧ trace run.2 = [SignIn] ∧ (SignOut ∉ trace run.2) ∧ signed_in run.2 = true.
Proof.
  cbv zeta. split_and!; try (vm_compute; reflexivity).
  vm_compute. intros H. inversion H as [|? ? ? H']; inversion H'.
Qed.

End FailingRuns.

(** ** Witnesses of the claims about resolution and deactivation *)

Section Witnesses.

Lemma get_workbook_resolution_witness :
  ExportAs.get_workbook ExportAs.ex_server "Sales" "Prod" = Ok ExportAs.ex_workbook
  ∧ ExportAs.NotFoundError "Sales" "Prod" ≠ ExportAs.AmbiguousError "Sales" "Prod"
  ∧ ExportAs.get_workbook ExportAs.ex_server_reordered "Sales" "Prod"
    = ExportAs.get_workbook ExportAs.ex_server "Sales" "Prod".
Proof.
  apply (get_workbook_resolution ExportAs.ex_server ExportAs.ex_server_reordered
           "Sales" "Prod").
  apply perm_swap.
Defined.

Lemma unlicensed_only_if_inactive_viewer_witness :
  let run := DeactivateUsers.deactivate_inactive_viewers DeactivateUsers.ex_clock
               DeactivateUsers.ex_server [0; 1; 2]%nat DeactivateUsers.ex_world in
  let site := DeactivateUsers.process_site DeactivateUsers.ex_clock
                DeactivateUsers.ex_server DeactivateUsers.ex_world in
  let ann := DeactivateUsers.User "ann" "Viewer" (Some 0) in
  (DeactivateUsers.users run.2 !! 0%nat = Some ann
   ∨ (DeactivateUsers.site_role ann = "Viewer"
      ∧ (∃ t k, DeactivateUsers.last_login ann = Some t
                ∧ 500 < DeactivateUsers.days (DeactivateUsers.ex_clock k) t)
      ∧ DeactivateUsers.users run.2 !! 0%nat
        = Some (DeactivateUsers.User (DeactivateUsers.name ann) "Unlicensed"
                  (DeactivateUsers.last_login ann))))
  ∧ (DeactivateUsers.last_login ann = None → DeactivateUsers.users run.2 !! 0%nat = Some ann)
  ∧ (DeactivateUsers.users site.2 = DeactivateUsers.users DeactivateUsers.ex_world
     ∨ Some (DeactivateUsers.users site.2)
       = DeactivateUsers.users_get DeactivateUsers.ex_server).
Proof.
  apply (unlicensed_only_if_inactive_viewer DeactivateUsers.ex_clock
           DeactivateUsers.ex_server [0; 1; 2]%nat DeactivateUsers.ex_world
           (DeactivateUsers.deactivate_inactive_viewers DeactivateUsers.ex_clock
              DeactivateUsers.ex_server [0; 1; 2]%nat DeactivateUsers.ex_world).1
           (DeactivateUsers.deactivate_inactive_viewers DeactivateUsers.ex_clock
              DeactivateUsers.ex_server [0; 1; 2]%nat DeactivateUsers.ex_world).2
           0%nat (DeactivateUsers.User "ann" "Viewer" (Some 0))
           DeactivateUsers.ex_world
           (DeactivateUsers.process_site DeactivateUsers.ex_clock
              DeactivateUsers.ex_server DeactivateUsers.ex_world).1
           (DeactivateUsers.process_site DeactivateUsers.ex_clock
              DeactivateUsers.ex_server DeactivateUsers.ex_world).2).
  - vm_compute. reflexivity.
  - reflexivity.
  - vm_compute. reflexivity.
Defined.

End Witnesses.

(** * Further properties of the code *)

(** ** Layout of a picture: position, fit and resolution *)

Section LayoutFurther.
Import ExportAs.
Local Open Scope Q_scope.

Lemma Qmin_scale_pos (a b c d : Q) :
  0 < a → 0 < b → 0 < c → 0 < d → 0 < Qmin (a / c) (b / d).
Proof.
  intros Ha Hb Hc Hd.
  pose proof (Qmul_div_cancel a _ Hc). pose proof (Qmul_div_cancel b _ Hd).
  destruct (Q.min_spec (a / c) (b / d)) as [[_ ->]|[_ ->]];
    apply Qnot_le_lt; intros Hle; nra.
Qed.

(** X1.  A picture never hangs over the edge of its page, nor over the edge
    of a slide that is at least 8 x 6 inches: its left and top offsets are
    not negative, and it ends within the width and the height. *)
Theorem picture_lies_on_page (sw sh iw ih : Z) (pw ph : Q) :
  (0 < iw)%Z → (0 < ih)%Z → 0 < pw → 0 < ph →
  (Inches 8 ≤ sw)%Z → (Inches 6 ≤ sh)%Z →
  (∃ p, add_image_to_ppt_placement sw sh iw ih = Ok p
        ∧ on_page p (inject_Z sw) (inject_Z sh))
  ∧ (∃ p, add_image_to_pdf_placement pw ph iw ih = Ok p ∧ on_page p pw ph).
Proof.
  intros Hw Hh Hpw Hph Hsw Hsh.
  pose proof (inject_Z_pos _ Hw) as Hw'. pose proof (inject_Z_pos _ Hh) as Hh'.
  split.
  - rewrite ppt_placement_scale by assumption. eexists. split; [reflexivity|].
    unfold on_page. cbn [p_left p_top p_width p_height].
    set (mw := inject_Z (Inches 8)). set (mh := inject_Z (Inches 6)).
    assert (Hmw : 0 < mw) by (apply inject_Z_pos; reflexivity).
    assert (Hmh : 0 < mh) by (apply inject_Z_pos; reflexivity).
    assert (Hsw' : mw <= inject_Z sw) by (unfold mw; now rewrite <- Zle_Qle).
    assert (Hsh' : mh <= inject_Z sh) by (unfold mh; now rewrite <- Zle_Qle).
    pose proof (Qmin_scale_pos mw mh _ _ Hmw Hmh Hw' Hh') as Hs.
    pose proof (Q.le_min_l (mw / inject_Z iw) (mh / inject_Z ih)).
    pose proof (Q.le_min_r (mw / inject_Z iw) (mh / inject_Z ih)).
    pose proof (Qmul_div_cancel mw _ Hw'). pose proof (Qmul_div_cancel mh _ Hh').
    set (s := Qmin _ _) in *.
    assert (inject_Z iw * s <= mw) by nra.
    assert (inject_Z ih * s <= mh) by nra.
    split_and!.
    + apply Qle_shift_div_l; lra.
    + apply Qle_shift_div_l; lra.
    + assert (E : (inject_Z sw - inject_Z iw * s) / 2 + inject_Z iw * s
                  == (inject_Z sw + inject_Z iw * s) / 2) by field.
      rewrite E. apply Qle_shift_div_r; lra.
    + assert (E : (inject_Z sh - inject_Z ih * s) / 2 + inject_Z ih * s
                  == (inject_Z sh + inject_Z ih * s) / 2) by field.
      rewrite E. apply Qle_shift_div_r; lra.
  - destruct (pdf_placement_scale pw ph iw ih Hw Hh) as (p & Hp & Ewd & Eht & El & Et).
    exists p. split; [exact Hp|].
    pose proof (Qmin_scale_pos pw ph _ _ Hpw Hph Hw' Hh') as Hs.
    pose proof (Q.le_min_l (pw / inject_Z iw) (ph / inject_Z ih)).
    pose proof (Q.le_min_r (pw / inject_Z iw) (ph / inject_Z ih)).
    pose proof (Qmul_div_cancel pw _ Hw'). pose proof (Qmul_div_cancel ph _ Hh').
    set (m := Qmin (pw / inject_Z iw) (ph / inject_Z ih)) in *.
    pose proof (Q.le_min_r 1 m).
    assert (0 < Qmin 1 m) by (destruct (Q.min_spec 1 m) as [[_ ->]|[_ ->]]; lra).
    set (s := Qmin 1 m) in *.
    assert (p_width p <= pw) by (rewrite Ewd; nra).
    assert (p_height p <= ph) by (rewrite Eht; nra).
    unfold on_page. rewrite El, Et. split_and!.
    + apply Qle_shift_div_l; lra.
    + apply Qle_shift_div_l; lra.
    + assert (E : (pw - p_width p) / 2 + p_width p == (pw + p_width p) / 2) by field.
      rewrite E. apply Qle_shift_div_r; lra.
    + assert (E : (ph - p_height p) / 2 + p_height p == (ph + p_height p) / 2) by field.
      rewrite E. apply Qle_shift_div_r; lra.
Qed.

Lemma picture_lies_on_page_witness :
  (∃ p, add_image_to_ppt_placement 9144000 6858000 1601 450 = Ok p
        ∧ on_page p (inject_Z 9144000) (inject_Z 6858000))
  ∧ (∃ p, add_image_to_pdf_placement (297#1) (210#1) 1601 450 = Ok p
          ∧ on_page p (297#1) (210#1)).
Proof.
  apply (picture_lies_on_page 9144000 6858000 1601 450 (297#1) (210#1));
    first [reflexivity | vm_compute; discriminate].
Defined.

(** X2.  A picture on a slide is fitted tightly: it reaches the 8 x 6 inch
    area in one direction.  For an image whose sides fit in 31 bits, the
    width is 8 inches, to within one EMU, when the image is at least as wide
    as 4:3, and the height is 6 inches, to within one EMU, when it is at
    most as wide. *)
Theorem picture_fills_its_box (sw sh iw ih : Z) :
  int31 iw → int31 ih →
  ∃ p, add_image_to_ppt_placement sw sh iw ih = Ok p
       ∧ ((ih * Inches 8 ≤ iw * Inches 6)%Z → within_one (inject_Z (Inches 8)) (p_width p))
       ∧ ((iw * Inches 6 ≤ ih * Inches 8)%Z → within_one (inject_Z (Inches 6)) (p_height p)).
Proof.
  intros [Hw _] [Hh _].
  pose proof (inject_Z_pos _ Hw) as Hw'. pose proof (inject_Z_pos _ Hh) as Hh'.
  assert (Hfit : ∀ a b : Q,
            (inject_Z ih * a <= inject_Z iw * b →
             inject_Z iw * Qmin (a / inject_Z iw) (b / inject_Z ih) == a)
            ∧ (inject_Z iw * b <= inject_Z ih * a →
               inject_Z ih * Qmin (a / inject_Z iw) (b / inject_Z ih) == b)).
  { intros a b.
    pose proof (Qmul_div_cancel a _ Hw') as Ea. pose proof (Qmul_div_cancel b _ Hh') as Eb.
    assert (Hpos : 0 < inject_Z iw * inject_Z ih) by nra.
    set (x := a / inject_Z iw) in *. set (y := b / inject_Z ih) in *.
    split; intros Hle.
    - rewrite Q.min_l; [exact Ea|]. apply Qnot_lt_le. intros Hlt.
      assert (0 < (inject_Z iw * inject_Z ih) * (x - y)) by nra. nra.
    - rewrite Q.min_r; [exact Eb|]. apply Qnot_lt_le. intros Hlt.
      assert (0 < (inject_Z iw * inject_Z ih) * (y - x)) by nra. nra. }
  rewrite ppt_placement_scale by assumption. eexists. split; [reflexivity|].
  cbn [p_width p_height].
  destruct (Hfit (inject_Z (Inches 8)) (inject_Z (Inches 6))) as [Hwide Hhigh].
  split; intros Hle; unfold within_one.
  - rewrite Hwide; [lra|]. rewrite <- !inject_Z_mult, <- Zle_Qle. exact Hle.
  - rewrite Hhigh; [lra|]. rewrite <- !inject_Z_mult, <- Zle_Qle. exact Hle.
Qed.

Lemma picture_fills_its_box_witness :
  ∃ p, add_image_to_ppt_placement 9144000 6858000 1601 450 = Ok p
       ∧ ((450 * Inches 8 ≤ 1601 * Inches 6)%Z → within_one (inject_Z (Inches 8)) (p_width p))
       ∧ ((1601 * Inches 6 ≤ 450 * Inches 8)%Z
          → within_one (inject_Z (Inches 6)) (p_height p)).
Proof.
  apply (picture_fills_its_box 9144000 6858000 1601 450); split; reflexivity.
Defined.

(** X3.  The layout of a picture on a slide depends on the proportions of
    the image only: an image with [k] times the pixels in each direction is
    put at the same place with the same size, to within one EMU, when the
    sides of the slide and of both images fit in 31 bits. *)
Theorem slide_placement_ignores_resolution (sw sh iw ih k : Z) :
  int31 sw → int31 sh → int31 iw → int31 ih → int31 (k * iw) → int31 (k * ih) →
  ∃ p q, add_image_to_ppt_placement sw sh iw ih = Ok p
         ∧ add_image_to_ppt_placement sw sh (k * iw) (k * ih) = Ok q
         ∧ close_placement p q.
Proof.
  intros _ _ [Hw _] [Hh _] [Hkw _] _.
  assert (Hk : (0 < k)%Z) by nia.
  pose proof (inject_Z_pos _ Hw) as Hw'. pose proof (inject_Z_pos _ Hh) as Hh'.
  pose proof (inject_Z_pos _ Hk) as Hk'.
  rewrite !ppt_placement_scale by lia.
  eexists _, _. split; [reflexivity|]. split; [reflexivity|].
  set (mw := inject_Z (Inches 8)). set (mh := inject_Z (Inches 6)).
  assert (Hs : inject_Z k * Qmin (mw / inject_Z (k * iw)) (mh / inject_Z (k * ih))
               == Qmin (mw / inject_Z iw) (mh / inject_Z ih)).
  { rewrite !inject_Z_mult.
    assert (Ew : mw / (inject_Z k * inject_Z iw) == (mw / inject_Z iw) / inject_Z k)
      by (field; split; lra).
    assert (Eh : mh / (inject_Z k * inject_Z ih) == (mh / inject_Z ih) / inject_Z k)
      by (field; split; lra).
    rewrite Ew, Eh.
    set (a := mw / inject_Z iw). set (b := mh / inject_Z ih).
    pose proof (Qmul_div_cancel a _ Hk') as Ea. pose proof (Qmul_div_cancel b _ Hk') as Eb.
    destruct (Q.min_spec a b) as [[Hlt ->]|[Hle ->]].
    - rewrite Q.min_l; [exact Ea|]. apply Qnot_lt_le. intros H. nra.
    - rewrite Q.min_r; [exact Eb|]. apply Qnot_lt_le. intros H. nra. }
  set (s := Qmin (mw / inject_Z iw) (mh / inject_Z ih)) in *.
  set (s' := Qmin (mw / inject_Z (k * iw)) (mh / inject_Z (k * ih))) in *.
  assert (Ewd : inject_Z (k * iw) * s' == inject_Z iw * s).
  { rewrite inject_Z_mult, <- Hs. ring. }
  assert (Eht : inject_Z (k * ih) * s' == inject_Z ih * s).
  { rewrite inject_Z_mult, <- Hs. ring. }
  unfold close_placement, within_one. cbn [p_left p_top p_width p_height].
  rewrite Ewd, Eht. split_and!; lra.
Qed.

Lemma slide_placement_ignores_resolution_witness :
  ∃ p q, add_image_to_ppt_placement 9144000 6858000 800 450 = Ok p
         ∧ add_image_to_ppt_placement 9144000 6858000 (2 * 800) (2 * 450) = Ok q
         ∧ close_placement p q.
Proof.
  apply (slide_placement_ignores_resolution 9144000 6858000 800 450 2);
    split; reflexivity.
Defined.

End LayoutFurther.

(** ** Tools: loops that may raise, and what every run keeps *)

Section FurtherTools.
Context {W : Type}.

(** As [for_fold_ind], with the exception of the round that raises. *)
Lemma for_fold_ind_exn {A S} (I : list A → S → W → Prop) (R : exn → W → Prop)
    (body : S → A → M W S) (l : list A) (acc : S) (w : W) :
  I [] acc w →
  (∀ done x rest acc w r w',
      l = done ++ x :: rest → I done acc w → body acc x w = (r, w') →
      match r with Ok acc' => I (done ++ [x]) acc' w' | Raise e => R e w' end) →
  ∀ r w', for_fold l body acc w = (r, w') →
          match r with Ok acc' => I l acc' w' | Raise e => R e w' end.
Proof.
  revert I acc w. induction l as [|x l IH]; intros I acc w H0 Hstep r w' Hrun.
  - cbn in Hrun. injection Hrun as <- <-. exact H0.
  - cbn [for_fold] in Hrun. rewrite run_bind in Hrun.
    destruct (body acc x w) as [[acc1|e] w1] eqn:Hb.
    + pose proof (Hstep [] x l acc w _ _ eq_refl H0 Hb) as H1. cbn in H1.
      apply (IH (λ done, I (x :: done)) acc1 w1 H1); [|exact Hrun].
      intros done y rest acc2 w2 r2 w2' -> HI Hb2.
      apply (Hstep (x :: done) y rest acc2 w2 r2 w2' eq_refl HI Hb2).
    + injection Hrun as <- <-.
      apply (Hstep [] x l acc w _ _ eq_refl H0 Hb).
Qed.

Lemma for_each_ind_exn {A} (I : list A → W → Prop) (R : exn → W → Prop)
    (body : A → M W unit) (l : list A) (w : W) :
  I [] w →
  (∀ done x rest w r w',
      l = done ++ x :: rest → I done w → body x w = (r, w') →
      match r with Ok _ => I (done ++ [x]) w' | Raise e => R e w' end) →
  ∀ r w', for_each l body w = (r, w') →
          match r with Ok _ => I l w' | Raise e => R e w' end.
Proof.
  intros H0 Hstep r w' Hrun.
  apply (for_fold_ind_exn (λ done _, I done) R (λ _ x, body x) l tt w H0); [|exact Hrun].
  intros done x rest [] w1 r1 w1' Hl HI Hb. exact (Hstep done x rest w1 r1 w1' Hl HI Hb).
Qed.

(** A run that returns has gone through both halves of a bind. *)
Lemma run_bind_ok_inv {A B} (m : M W A) (k : A → M W B) (w w' : W) (b : B) :
  (m ≫= k) w = (Ok b, w') → ∃ a w1, m w = (Ok a, w1) ∧ k a w1 = (Ok b, w').
Proof.
  rewrite run_bind. destruct (m w) as [[a|e] w1]; [eauto|discriminate].
Qed.

(** A loop whose rounds add items to a list adds the items of all rounds;
    what a round establishes for its items, and what every round keeps,
    holds at the end. *)
Lemma for_fold_collects {A B} (P : W → B → Prop)
    (body : list B → A → M W (list B)) (g : A → list B)
    (l : list A) (acc : list B) (w : W) (r : list B) (w' : W) :
  (∀ acc x w r w', body acc x w = (Ok r, w') →
     r = acc ++ g x ∧ (∀ b, P w b → P w' b) ∧ (∀ b, b ∈ g x → P w' b)) →
  for_fold l body acc w = (Ok r, w') →
  r = acc ++ flat_map g l ∧ (∀ b, P w b → P w' b) ∧ (∀ b, b ∈ flat_map g l → P w' b).
Proof.
  intros Hbody. revert acc w. induction l as [|x l IH]; intros acc w Hrun.
  - cbn in Hrun. injection Hrun as <- <-. rewrite app_nil_r. split_and!; [reflexivity|auto|].
    intros b Hb. now apply not_elem_of_nil in Hb.
  - cbn [for_fold] in Hrun. apply run_bind_ok_inv in Hrun as (acc1 & w1 & Hb & Hrun).
    apply Hbody in Hb as (-> & Hkeep1 & Hnew1). apply IH in Hrun as (-> & Hkeep & Hnew).
    cbn [flat_map]. rewrite app_assoc. split_and!; [reflexivity|auto|].
    intros b [Hb|Hb]%elem_of_app; auto.
Qed.

(** A loop over two lists in a row. *)
Lemma for_each_app {A} (l1 l2 : list A) (body : A → M W unit) (w : W) :
  for_each (l1 ++ l2) body w
  = match for_each l1 body w with
    | (Ok _, w1) => for_each l2 body w1
    | (Raise e, w1) => (Raise e, w1)
    end.
Proof.
  unfold for_each. revert w. induction l1 as [|x l1 IH]; intros w; [reflexivity|].
  cbn [app for_fold]. rewrite !run_bind. destruct (body x w) as [[[]|e] w1]; [apply IH|].
  reflexivity.
Qed.

Section EveryRun.
Context (R : W → W → Prop).
Context (R_refl : ∀ w, R w w) (R_trans : ∀ w1 w2 w3, R w1 w2 → R w2 w3 → R w1 w3).

Lemma every_run_ret {A} (x : A) : every_run R (mret x : M W A).
Proof. intros w r w' [= <- <-]. apply R_refl. Qed.

Lemma every_run_raise {A} (e : exn) : every_run R (raise e : M W A).
Proof. intros w r w' [= <- <-]. apply R_refl. Qed.

Lemma every_run_lift {A} (x : result A) : every_run R (lift x : M W A).
Proof. intros w r w' [= <- <-]. apply R_refl. Qed.

Lemma every_run_bind {A B} (m : M W A) (k : A → M W B) :
  every_run R m → (∀ x, every_run R (k x)) → every_run R (m ≫= k).
Proof.
  intros Hm Hk w r w' Hrun. rewrite run_bind in Hrun.
  destruct (m w) as [[x|e] w1] eqn:E.
  - eapply R_trans; [eapply Hm, E|eapply Hk, Hrun].
  - injection Hrun as <- <-. eapply Hm, E.
Qed.

Lemma every_run_for_fold {A S} (l : list A) (body : S → A → M W S) (acc : S) :
  (∀ acc x, every_run R (body acc x)) → every_run R (for_fold l body acc).
Proof.
  intros Hbody. revert acc. induction l as [|x l IH]; intros acc; cbn [for_fold].
  - apply every_run_ret.
  - apply every_run_bind; auto.
Qed.

Lemma every_run_for_each {A} (l : list A) (body : A → M W unit) :
  (∀ x, every_run R (body x)) → every_run R (for_each l body).
Proof. intros Hbody. apply every_run_for_fold. auto. Qed.

Lemma every_run_try_except {A} (m : M W A) (handler : exn → M W A) :
  every_run R m → (∀ e, every_run R (handler e)) → every_run R (try_except m handler).
Proof.
  intros Hm Hh w r w'. unfold try_except.
  destruct (m w) as [[x|e] w1] eqn:E.
  - intros [= <- <-]. eapply Hm, E.
  - intros Hrun. eapply R_trans; [eapply Hm, E|eapply Hh, Hrun].
Qed.

Lemma every_run_try_finally {A} (m : M W A) (final : M W unit) :
  every_run R m → every_run R final → every_run R (try_finally m final).
Proof.
  intros Hm Hf w r w'. unfold try_finally.
  destruct (m w) as [r1 w1] eqn:E. destruct (final w1) as [[[]|e] w2] eqn:E2;
    intros [= <- <-]; (eapply R_trans; [eapply Hm, E|eapply Hf, E2]).
Qed.

End EveryRun.

End FurtherTools.

(** ** The deactivation script: selection and server calls *)

Section DeactivationFurther.
Import DeactivateUsers.

Lemma days_threshold (now last : Z) :
  INACTIVE_THRESHOLD < days now last ↔ 501 * day ≤ now - last.
Proof.
  unfold INACTIVE_THRESHOLD, days, day. split; intros H.
  - assert (501 ≤ (now - last) / 86400000000) by lia.
    pose proof (Z.mul_div_le (now - last) 86400000000). lia.
  - assert (501 ≤ (now - last) / 86400000000) by (apply Z.div_le_lower_bound; lia). lia.
Qed.

(** X4.  The threshold counts whole days: a viewer is selected from the
    moment 501 days have passed since the last sign-in, and not before; 500
    days and 23 hours are not enough. *)
Theorem inactive_from_501_days (clock : nat → Z) (r : nat) (u : user) (t : Z) (w : world) :
  users w !! r = Some u → last_login u = Some t →
  (get_inactive_users clock [r] w).1
  = Ok (if decide (501 * day ≤ clock (clock_reads w) - t) then [r] else []).
Proof.
  intros Hu Ht. unfold get_inactive_users. cbn [for_fold].
  rewrite run_bind, run_bind, run_deref, Hu, Ht. rewrite run_bind. cbn [datetime_now].
  destruct (decide _) as [Hd|Hd]; rewrite <- days_threshold in Hd.
  - apply Z.ltb_lt in Hd. rewrite Hd. reflexivity.
  - apply Z.ltb_nlt in Hd. rewrite Hd. reflexivity.
Qed.

Lemma inactive_from_501_days_witness :
  (get_inactive_users (λ _, 501 * day - 1) [0%nat] ex_world).1 = Ok []
  ∧ (get_inactive_users (λ _, 501 * day) [0%nat] ex_world).1 = Ok [0%nat].
Proof.
  split.
  - apply (inactive_from_501_days (λ _, 501 * day - 1) 0 (User "ann" "Viewer" (Some 0)) 0
             ex_world); reflexivity.
  - apply (inactive_from_501_days (λ _, 501 * day) 0 (User "ann" "Viewer" (Some 0)) 0
             ex_world); reflexivity.
Defined.

(** X5.  With a clock that does not run backwards, the selection is
    complete: it goes through (the references being valid), keeps the order
    of the viewers, and holds every viewer whose last sign-in is more than
    the threshold before the first reading of the clock. *)
Theorem long_inactive_viewers_are_selected (clock : nat → Z) (viewer_list : list nat)
    (w : world) :
  (∀ j k, (j ≤ k)%nat → clock j ≤ clock k) →
  (∀ i, i ∈ viewer_list → is_Some (users w !! i)) →
  ∃ inactive_users w',
    get_inactive_users clock viewer_list w = (Ok inactive_users, w')
    ∧ inactive_users `sublist_of` viewer_list
    ∧ ∀ i u t, i ∈ viewer_list → users w !! i = Some u → last_login u = Some t →
               INACTIVE_THRESHOLD < days (clock (clock_reads w)) t → i ∈ inactive_users.
Proof.
  intros Hmono Hvalid. unfold get_inactive_users.
  destruct (for_fold_ok (λ done acc w1,
      users w1 = users w ∧ (clock_reads w ≤ clock_reads w1)%nat
      ∧ acc `sublist_of` done
      ∧ ∀ i u t, i ∈ done → users w !! i = Some u → last_login u = Some t →
                 INACTIVE_THRESHOLD < days (clock (clock_reads w)) t → i ∈ acc)
    (λ inactive_users r,
       u ← deref r;
       match last_login u with
       | Some last =>
           now ← datetime_now clock;
           let days_inactive := days now last in
           if INACTIVE_THRESHOLD <? days_inactive then mret (inactive_users ++ [r])
           else mret inactive_users
       | None => mret inactive_users
       end) viewer_list [] w) as (acc & w' & Hrun & _ & _ & Hsub & Hall).
  - split_and!; [reflexivity|lia|reflexivity|].
    intros i u t Hi. now apply not_elem_of_nil in Hi.
  - intros done x rest acc w1 Hl (Hu & Hc & Hsub & Hall).
    destruct (Hvalid x) as [u Hx]; [rewrite Hl; set_solver|].
    rewrite run_bind, run_deref, Hu, Hx.
    destruct (last_login u) as [t|] eqn:Hlast.
    + rewrite run_bind. cbn [datetime_now].
      destruct (INACTIVE_THRESHOLD <? days (clock (clock_reads w1)) t) eqn:Hd.
      * eexists _, _. split; [reflexivity|]. cbn [users clock_reads].
        split_and!; [assumption|lia|now apply sublist_app|].
        intros i u' t' [Hi| ->%list_elem_of_singleton]%elem_of_app; [|set_solver].
        intros. apply elem_of_app. left. eauto.
      * eexists _, _. split; [reflexivity|]. cbn [users clock_reads].
        split_and!; [assumption|lia|now apply sublist_inserts_r|].
        intros i u' t' [Hi| ->%list_elem_of_singleton]%elem_of_app; [eauto|].
        intros Hx' Hlast' Hlong. rewrite Hx in Hx'. injection Hx' as <-.
        rewrite Hlast in Hlast'. injection Hlast' as <-.
        apply Z.ltb_nlt in Hd. exfalso. apply Hd.
        eapply Z.lt_le_trans; [exact Hlong|]. unfold days.
        apply Z.div_le_mono; [lia|]. pose proof (Hmono _ _ Hc). lia.
    + eexists _, _. split; [reflexivity|].
      split_and!; [assumption|lia|now apply sublist_inserts_r|].
      intros i u' t' [Hi| ->%list_elem_of_singleton]%elem_of_app; [eauto|].
      intros Hx'. rewrite Hx in Hx'. injection Hx' as <-. congruence.
  - exists acc, w'. split_and!; assumption.
Qed.

Lemma long_inactive_viewers_are_selected_witness :
  ∃ inactive_users w',
    get_inactive_users ex_clock [0; 1; 2]%nat ex_world = (Ok inactive_users, w')
    ∧ inactive_users `sublist_of` [0; 1; 2]%nat
    ∧ ∀ i u t, i ∈ [0; 1; 2]%nat → users ex_world !! i = Some u → last_login u = Some t →
               INACTIVE_THRESHOLD < days (ex_clock (clock_reads ex_world)) t →
               i ∈ inactive_users.
Proof.
  apply (long_inactive_viewers_are_selected ex_clock [0; 1; 2]%nat ex_world).
  - intros j k _. reflexivity.
  - intros i Hi. rewrite !elem_of_cons in Hi.
    destruct Hi as [->|[->|[->|Hi]]]; [eexists; reflexivity..|].
    now apply not_elem_of_nil in Hi.
Defined.

Lemma unlicensed_insert (l : list user) (x i : nat) (u : user) :
  l !! x = Some u →
  site_role <$> (<[x := User (name u) "Unlicensed" (last_login u)]> l) !! i
  = if decide (i = x) then Some "Unlicensed" else site_role <$> l !! i.
Proof.
  intros Hx. destruct (decide (i = x)) as [->|Hne].
  - rewrite list_lookup_insert_eq by (eapply lookup_lt_Some; eassumption). reflexivity.
  - now rewrite list_lookup_insert_ne by congruence.
Qed.

Lemma deactivations_snoc (w : world) (done : list nat) (x : nat) (u : user) :
  users w !! x = Some u →
  deactivations w (done ++ [x]) = deactivations w done ++ [deactivation u].
Proof.
  intros Hx. unfold deactivations. rewrite omap_app. cbn. now rewrite Hx.
Qed.

(** The calls and the users after [deactivate_users], whatever its outcome. *)
Lemma deactivate_users_run (inactive_users : list nat) (srv : server)
    (w : world) (r : result unit) (w' : world) :
  (∀ i, i ∈ inactive_users → is_Some (users w !! i)) →
  deactivate_users inactive_users srv w = (r, w') →
  match r with
  | Ok _ =>
      trace w' = trace w ++ deactivations w inactive_users
      ∧ ∀ i, i ∈ inactive_users → is_unlicensed w' i
  | Raise e =>
      e = ServerResponseError
      ∧ ∃ done x rest,
          inactive_users = done ++ x :: rest
          ∧ trace w' = trace w ++ deactivations w done
          ∧ (∀ i, i ∈ done → is_unlicensed w' i)
          ∧ is_unlicensed w' x
  end.
Proof.
  intros Hvalid Hrun. unfold deactivate_users in Hrun.
  destruct (length inactive_users =? 0)%nat eqn:Hlen.
  { injection Hrun as <- <-. apply Nat.eqb_eq, nil_length_inv in Hlen. subst.
    split; [now rewrite app_nil_r|]. intros i Hi. now apply not_elem_of_nil in Hi. }
  set (I := λ (done : list nat) (w1 : world),
        trace w1 = trace w ++ deactivations w done
        ∧ (∀ i, name <$> users w1 !! i = name <$> users w !! i)
        ∧ (∀ i, i ∈ done → is_unlicensed w1 i)).
  set (R := λ (e : exn) (w1 : world),
        e = ServerResponseError
        ∧ ∃ done x rest, inactive_users = done ++ x :: rest
            ∧ trace w1 = trace w ++ deactivations w done
            ∧ (∀ i, i ∈ done → is_unlicensed w1 i) ∧ is_unlicensed w1 x).
  assert (H : match r with Ok _ => I inactive_users w' | Raise e => R e w' end);
    [refine (for_each_ind_exn I R _ _ _ _ _ _ _ Hrun)|].
  - split_and!; [now rewrite app_nil_r|reflexivity|].
    intros i Hi. now apply not_elem_of_nil in Hi.
  - intros done x rest w1 r1 w1' Hl (Ht & Hn & Hdone) Hb.
    destruct (Hvalid x) as [u0 Hx0]; [rewrite Hl; set_solver|].
    assert (Hx : ∃ u, users w1 !! x = Some u ∧ name u = name u0).
    { specialize (Hn x). rewrite Hx0 in Hn. destruct (users w1 !! x) as [u|]; [|discriminate].
      exists u. split; [reflexivity|]. now injection Hn. }
    destruct Hx as (u & Hx & Hname).
    rewrite run_bind, run_deref, Hx, run_bind in Hb. cbn [modify] in Hb.
    unfold users_update in Hb.
    set (w2 := set_users _ w1) in Hb.
    assert (Hrole : ∀ i, site_role <$> users w2 !! i
                         = if decide (i = x) then Some "Unlicensed"
                           else site_role <$> users w1 !! i).
    { intros i. apply unlicensed_insert. exact Hx. }
    assert (Hdone2 : ∀ i, i ∈ done → is_unlicensed w2 i).
    { intros i Hi. unfold is_unlicensed. rewrite Hrole.
      destruct (decide (i = x)); [reflexivity|now apply Hdone]. }
    assert (Hx2 : is_unlicensed w2 x).
    { unfold is_unlicensed. rewrite Hrole. now rewrite decide_True. }
    destruct (accepts_user_update srv _); injection Hb as <- <-.
    + split_and!.
      * unfold w2. cbn [trace emit set_users].
        rewrite Ht, (deactivations_snoc w done x u0) by assumption.
        rewrite <- app_assoc. unfold deactivation. cbn [name]. now rewrite Hname.
      * intros i. cbn [users emit]. rewrite <- Hn. unfold w2. cbn [users set_users].
        destruct (decide (i = x)) as [->|Hne].
        -- rewrite list_lookup_insert_eq by (eapply lookup_lt_Some; eassumption).
           now rewrite Hx.
        -- now rewrite list_lookup_insert_ne by congruence.
      * intros i [Hi| ->%list_elem_of_singleton]%elem_of_app; [now apply Hdone2|exact Hx2].
    + split; [reflexivity|]. exists done, x, rest. split_and!; assumption.
  - destruct r as [[]|e]; [|exact H].
    destruct H as (Ht & _ & Hdone). split; assumption.
Qed.

(** X6.  [deactivate_users] sends the server one update for each user of
    the list, in the order of the list, each with the role "Unlicensed", and
    none for an empty list.  It stops at the first update the server refuses
    and takes nothing back: the users before it stay unlicensed on the
    server, and the refused user is already unlicensed in the script. *)
Theorem deactivate_users_calls (inactive_users : list nat) (srv : server)
    (w : world) (r : result unit) (w' : world) :
  (∀ i, i ∈ inactive_users → is_Some (users w !! i)) →
  deactivate_users inactive_users srv w = (r, w') →
  match r with
  | Ok _ =>
      trace w' = trace w ++ deactivations w inactive_users
      ∧ ∀ i, i ∈ inactive_users → is_unlicensed w' i
  | Raise e =>
      e = ServerResponseError
      ∧ ∃ done x rest,
          inactive_users = done ++ x :: rest
          ∧ trace w' = trace w ++ deactivations w done
          ∧ (∀ i, i ∈ done → is_unlicensed w' i)
          ∧ is_unlicensed w' x
  end.
Proof. apply deactivate_users_run. Qed.

Lemma deactivate_users_calls_witness :
  let run := deactivate_users [0; 2]%nat ex_server ex_world in
  trace run.2 = trace ex_world ++ deactivations ex_world [0; 2]%nat
  ∧ ∀ i, i ∈ [0; 2]%nat → is_unlicensed run.2 i.
Proof.
  apply (deactivate_users_calls [0; 2]%nat ex_server ex_world (Ok tt)
           (deactivate_users [0; 2]%nat ex_server ex_world).2).
  - intros i Hi. rewrite !elem_of_cons in Hi.
    destruct Hi as [->|[->|Hi]]; [eexists; reflexivity..|].
    now apply not_elem_of_nil in Hi.
  - vm_compute. reflexivity.
Defined.

Lemma calls_only_refl (P : event → Prop) (w : world) : calls_only P w w.
Proof. exists []. split; [now rewrite app_nil_r|constructor]. Qed.

Lemma calls_only_trans (P : event → Prop) (w1 w2 w3 : world) :
  calls_only P w1 w2 → calls_only P w2 w3 → calls_only P w1 w3.
Proof.
  intros (e1 & Ht1 & H1) (e2 & Ht2 & H2). exists (e1 ++ e2).
  split; [now rewrite Ht2, Ht1, app_assoc|now apply Forall_app].
Qed.

Lemma calls_only_same (P : event → Prop) (w w' : world) :
  trace w' = trace w → calls_only P w w'.
Proof. intros H. exists []. split; [now rewrite app_nil_r|constructor]. Qed.

Lemma calls_only_call (P : event → Prop) (e : event) (w w' : world) :
  trace w' = trace w ++ [e] → P e → calls_only P w w'.
Proof. intros Ht H. exists [e]. split; [exact Ht|now repeat constructor]. Qed.

(** A computation that raises at once never runs what follows it. *)
Lemma every_run_raise_bind {A B} (R : world → world → Prop) (e : exn) (k : A → M B) :
  (∀ w, R w w) → every_run R ((raise e : M A) ≫= k).
Proof. intros Hrefl w r w' [= <- <-]. apply Hrefl. Qed.

Lemma every_run_deref (P : event → Prop) (r : nat) : every_run (calls_only P) (deref r).
Proof.
  intros w res w'. rewrite run_deref. intros [= <- <-]. apply calls_only_refl.
Qed.

Lemma every_run_set_minimum_site_role (P : event → Prop) (srv : server)
    (role : option string) :
  P (UpdateGroup "All Users" role) →
  every_run (calls_only P) (set_minimum_site_role srv role).
Proof.
  intros HP. unfold set_minimum_site_role.
  destruct (groups_get srv) as [all_groups|];
    [|apply every_run_raise, calls_only_refl].
  apply every_run_for_each; [apply calls_only_refl|apply calls_only_trans|].
  intros g. destruct (decide (group_name g = "All Users")) as [Hg|Hg];
    [|apply every_run_ret, calls_only_refl].
  intros w r w'. unfold groups_update.
  destruct (accepts_group_update srv _); intros [= <- <-]; [|apply calls_only_refl].
  eapply calls_only_call; [reflexivity|]. cbn [group_name minimum_site_role]. now rewrite Hg.
Qed.

Lemma every_run_save_info (P : event → Prop) (inactive_users : list nat) :
  every_run (calls_only P) (save_info inactive_users).
Proof.
  unfold save_info. apply every_run_bind; [apply calls_only_trans| |].
  - apply every_run_for_fold; [apply calls_only_refl|apply calls_only_trans|].
    intros rows r. apply every_run_bind; [apply calls_only_trans|apply every_run_deref|].
    intros u. apply every_run_ret, calls_only_refl.
  - intros rows w r w' [= <- <-]. now apply calls_only_same.
Qed.

(** X7.  As it is written, the processing of a site never deactivates a
    user and never sets the minimum site role again: besides sign-in and
    sign-out, the only calls the server receives remove the minimum site role
    of the group "All Users".  (The call of [deactivate_users] lacks an
    argument and raises before the role is set again.) *)
Theorem site_is_left_without_minimum_role (clock : nat → Z) (srv : server)
    (w : world) (r : result unit) (w' : world) :
  process_site clock srv w = (r, w') → calls_only site_call w w'.
Proof.
  revert w r w'. change (every_run (calls_only site_call) (process_site clock srv)).
  unfold process_site.
  apply every_run_bind; [apply calls_only_trans| |intros _].
  { intros w r w'. unfold tableau_signin.
    destruct (accepts_token srv); intros [= <- <-]; [|apply calls_only_refl].
    eapply calls_only_call; [reflexivity|]. unfold site_call. auto. }
  apply every_run_try_finally; [apply calls_only_trans| |].
  - apply every_run_try_except; [apply calls_only_trans| |];
      [|intros e; apply every_run_ret, calls_only_refl].
    unfold site_tasks.
    apply every_run_bind; [apply calls_only_trans| |intros _].
    { apply every_run_set_minimum_site_role. unfold site_call. auto. }
    apply every_run_bind; [apply calls_only_trans| |intros user_list].
    { intros w r w'. unfold get_users.
      destruct (users_get srv); intros [= <- <-]; now apply calls_only_same. }
    apply every_run_bind; [apply calls_only_trans| |intros viewer_list].
    { intros w r w' H. apply viewers_spec in H as [-> _]. apply calls_only_refl. }
    apply every_run_bind; [apply calls_only_trans| |intros inactive_users].
    { intros w r w' H. apply get_inactive_users_spec in H as (_ & Ht & _).
      now apply calls_only_same. }
    apply every_run_bind; [apply calls_only_trans|apply every_run_save_info|intros _].
    apply every_run_raise_bind, calls_only_refl.
  - intros w r w' [= <- <-]. eapply calls_only_call; [reflexivity|].
    unfold site_call. auto.
Qed.

Lemma site_is_left_without_minimum_role_witness :
  calls_only site_call ex_world (process_site ex_clock ex_server ex_world).2.
Proof.
  apply (site_is_left_without_minimum_role ex_clock ex_server ex_world
           (process_site ex_clock ex_server ex_world).1).
  vm_compute. reflexivity.
Defined.

(** What [save_info] writes: the users behind the references, as they are
    at that moment, in the order of the list. *)
Lemma save_info_rows (inactive_users : list nat) (w : world) (r : result unit) (w' : world) :
  save_info inactive_users w = (r, w') →
  match r with
  | Ok _ => ∃ rows, users_info_csv w' = Some rows
                    ∧ Forall2 (λ i u, users w !! i = Some u) inactive_users rows
  | Raise _ => w' = w
  end.
Proof.
  unfold save_info. rewrite run_bind.
  destruct (for_fold inactive_users _ [] w) as [r1 w1] eqn:Hrows.
  assert (Hr : match r1 with
               | Ok rows => w1 = w ∧ Forall2 (λ i u, users w !! i = Some u) inactive_users rows
               | Raise _ => w1 = w
               end).
  { refine (for_fold_ind
      (λ done rows w2, w2 = w ∧ Forall2 (λ i u, users w !! i = Some u) done rows)
      (λ w2, w2 = w) _ _ _ _ _ _ _ _ Hrows); [split; [reflexivity|constructor]|].
    intros done x rest acc w2 r2 w2' _ [-> Hacc] Hb.
    rewrite run_bind, run_deref in Hb.
    destruct (users w !! x) as [u|] eqn:Hx; injection Hb as <- <-; [|reflexivity].
    split; [reflexivity|]. apply Forall2_app; [assumption|]. now repeat constructor. }
  destruct r1 as [rows|e].
  - destruct Hr as [-> Hr]. intros [= <- <-]. eauto.
  - subst w1. now intros [= <- <-].
Qed.

Lemma csv_kept_set_minimum_site_role (srv : server) (role : option string) :
  every_run (λ w w', users_info_csv w' = users_info_csv w) (set_minimum_site_role srv role).
Proof.
  unfold set_minimum_site_role. destruct (groups_get srv) as [all_groups|];
    [|now apply every_run_raise].
  apply every_run_for_each; [reflexivity|congruence|].
  intros g w r w'. unfold groups_update.
  destruct (decide _); [destruct (accepts_group_update srv _)|]; now intros [= <- <-].
Qed.

Lemma csv_kept_get_inactive_users (clock : nat → Z) (viewer_list : list nat) :
  every_run (λ w w', users_info_csv w' = users_info_csv w)
    (get_inactive_users clock viewer_list).
Proof.
  unfold get_inactive_users. apply every_run_for_fold; [reflexivity|congruence|].
  intros acc x w r w'. rewrite run_bind, run_deref.
  destruct (users w !! x) as [u|]; [|now intros [= <- <-]].
  destruct (last_login u); [|now intros [= <- <-]].
  rewrite run_bind. cbn [datetime_now]. destruct (_ <? _); now intros [= <- <-].
Qed.

(** X8.  The file of inactive users is written before any user is touched:
    when the processing of a site writes it, every row is a user of the
    site's list with the role "Viewer", who has signed in, the last time more
    than the threshold before a reading of the clock. *)
Theorem saved_rows_are_inactive_viewers (clock : nat → Z) (srv : server)
    (w : world) (r : result unit) (w' : world) :
  site_tasks clock srv w = (r, w') →
  users_info_csv w' = users_info_csv w
  ∨ ∃ all_users rows,
      users_get srv = Some all_users ∧ users_info_csv w' = Some rows
      ∧ Forall (λ u, u ∈ all_users ∧ inactive_viewer clock u) rows.
Proof.
  unfold site_tasks. rewrite run_bind.
  destruct (disable_minimum_site_role srv w) as [r1 w1] eqn:H1.
  apply csv_kept_set_minimum_site_role in H1 as Hcsv1.
  destruct r1 as [[]|e]; [|intros [= <- <-]; now left].
  rewrite run_bind. unfold get_users at 1.
  destruct (users_get srv) as [all_users|]; [|intros [= <- <-]; now left].
  set (w2 := set_users all_users w1).
  rewrite run_bind.
  destruct (viewers _ w2) as [r3 w3] eqn:H3. apply viewers_spec in H3 as [-> Hv].
  destruct r3 as [viewer_list|e]; [|intros [= <- <-]; now left].
  rewrite run_bind.
  destruct (get_inactive_users clock viewer_list w2) as [r4 w4] eqn:H4.
  pose proof (csv_kept_get_inactive_users _ _ _ _ _ H4) as Hcsv4.
  pose proof (get_inactive_users_spec _ _ _ _ _ H4) as (Hu4 & _ & Hi).
  destruct r4 as [inactive_users|e]; [|intros [= <- <-]; left; now rewrite Hcsv4].
  rewrite run_bind.
  destruct (save_info inactive_users w4) as [r5 w5] eqn:H5. apply save_info_rows in H5.
  destruct r5 as [[]|e]; [|subst w5; intros [= <- <-]; left; now rewrite Hcsv4].
  destruct H5 as (rows & Hcsv & Hrows). intros [= <- <-]. right.
  exists all_users, rows. split; [reflexivity|]. split; [exact Hcsv|].
  rewrite Hu4 in Hrows. specialize (Hi _ eq_refl). specialize (Hv _ eq_refl).
  change (users w2) with all_users in Hrows, Hi, Hv. clear -Hrows Hi Hv.
  induction Hrows as [|i u l rows Hiu Hrows IH]; constructor.
  - destruct (Hi i) as (Hin & u1 & t & k & E1 & Hlast & Hdays); [left|].
    destruct (Hv i Hin) as (u2 & E2 & Hrole).
    rewrite Hiu in E1, E2. injection E1 as <-. injection E2 as <-.
    split; [exact (list_elem_of_lookup_2 _ _ _ Hiu)|]. split; [exact Hrole|eauto].
  - apply IH. intros j Hj. apply Hi. now right.
Qed.

Lemma saved_rows_are_inactive_viewers_witness :
  let run := site_tasks ex_clock ex_server ex_world in
  users_info_csv run.2 = users_info_csv ex_world
  ∨ ∃ all_users rows,
      users_get ex_server = Some all_users ∧ users_info_csv run.2 = Some rows
      ∧ Forall (λ u, u ∈ all_users ∧ inactive_viewer ex_clock u) rows.
Proof.
  apply (saved_rows_are_inactive_viewers ex_clock ex_server ex_world
           (site_tasks ex_clock ex_server ex_world).1).
  vm_compute. reflexivity.
Defined.

Lemma set_minimum_site_role_calls (srv : server) (role : option string)
    (w : world) (r : result unit) (w' : world) :
  set_minimum_site_role srv role w = (r, w') →
  ∃ n, trace w' = trace w ++ replicate n (UpdateGroup "All Users" role)
       ∧ (is_ok r = true →
          ∃ all_groups, groups_get srv = Some all_groups
            ∧ n = length (filter (λ g, group_name g = "All Users") all_groups)).
Proof.
  unfold set_minimum_site_role. destruct (groups_get srv) as [all_groups|].
  2:{ intros [= <- <-]. exists 0%nat. split; [now rewrite app_nil_r|discriminate]. }
  intros Hrun.
  set (count := λ l : list group, length (filter (λ g, group_name g = "All Users") l)).
  assert (Hr : match r with
               | Ok _ => trace w' = trace w
                           ++ replicate (count all_groups) (UpdateGroup "All Users" role)
               | Raise _ => ∃ n, trace w' = trace w
                                   ++ replicate n (UpdateGroup "All Users" role)
               end).
  { refine (for_each_ind
      (λ done w1, trace w1 = trace w ++ replicate (count done) (UpdateGroup "All Users" role))
      (λ w1, ∃ n, trace w1 = trace w ++ replicate n (UpdateGroup "All Users" role))
      _ _ _ _ _ _ _ Hrun); [now rewrite app_nil_r|].
    intros done g rest w1 r1 w1' _ Ht. unfold count. rewrite filter_app, length_app.
    destruct (decide (group_name g = "All Users")) as [Hg|Hg].
    - rewrite filter_cons_True, filter_nil by assumption. unfold groups_update.
      destruct (accepts_group_update srv _); intros [= <- <-]; [|eauto].
      cbn [trace emit group_name minimum_site_role length].
      rewrite Ht, Hg, <- app_assoc. f_equal.
      rewrite Nat.add_1_r. symmetry. apply replicate_S_end.
    - rewrite filter_cons_False, filter_nil by assumption. intros [= <- <-].
      cbn [length]. now rewrite Nat.add_0_r. }
  destruct r as [[]|e].
  - exists (count all_groups). split; [exact Hr|]. intros _. eauto.
  - destruct Hr as [n Hn]. exists n. split; [exact Hn|discriminate].
Qed.

(** X9.  The two functions that set the minimum site role update the
    groups named "All Users" and no other group: one call for each such
    group when they return, and calls of the same kind only when they
    raise.  The first removes the role; the second sets "Viewer", whatever
    the role was before it was removed. *)
Theorem minimum_site_role_calls (srv : server)
    (w1 : world) (r1 : result unit) (w1' : world)
    (w2 : world) (r2 : result unit) (w2' : world) :
  disable_minimum_site_role srv w1 = (r1, w1') →
  enable_minimum_site_role srv w2 = (r2, w2') →
  (∃ n, trace w1' = trace w1 ++ replicate n (UpdateGroup "All Users" None)
        ∧ (is_ok r1 = true →
           ∃ all_groups, groups_get srv = Some all_groups
             ∧ n = length (filter (λ g, group_name g = "All Users") all_groups)))
  ∧ (∃ n, trace w2' = trace w2 ++ replicate n (UpdateGroup "All Users" (Some "Viewer"))
          ∧ (is_ok r2 = true →
             ∃ all_groups, groups_get srv = Some all_groups
               ∧ n = length (filter (λ g, group_name g = "All Users") all_groups))).
Proof.
  intros H1 H2. split; [exact (set_minimum_site_role_calls _ _ _ _ _ H1)|].
  exact (set_minimum_site_role_calls _ _ _ _ _ H2).
Qed.

Lemma minimum_site_role_calls_witness :
  let off := disable_minimum_site_role ex_server ex_world in
  let on := enable_minimum_site_role ex_server off.2 in
  (∃ n, trace off.2 = trace ex_world ++ replicate n (UpdateGroup "All Users" None)
        ∧ (is_ok off.1 = true →
           ∃ all_groups, groups_get ex_server = Some all_groups
             ∧ n = length (filter (λ g, group_name g = "All Users") all_groups)))
  ∧ (∃ n, trace on.2 = trace off.2 ++ replicate n (UpdateGroup "All Users" (Some "Viewer"))
          ∧ (is_ok on.1 = true →
             ∃ all_groups, groups_get ex_server = Some all_groups
               ∧ n = length (filter (λ g, group_name g = "All Users") all_groups))).
Proof.
  apply (minimum_site_role_calls ex_server
           ex_world (disable_minimum_site_role ex_server ex_world).1
           (disable_minimum_site_role ex_server ex_world).2
           (disable_minimum_site_role ex_server ex_world).2
           (enable_minimum_site_role ex_server
              (disable_minimum_site_role ex_server ex_world).2).1
           (enable_minimum_site_role ex_server
              (disable_minimum_site_role ex_server ex_world).2).2).
  - vm_compute. reflexivity.
  - vm_compute. reflexivity.
Defined.

(** X10.  A user that has been deactivated is not selected again: after
    [deactivate_users] has returned, the filter for viewers of the main
    program keeps none of its users, so a second pass leaves them alone. *)
Theorem deactivated_users_are_no_viewers (inactive_users : list nat) (srv : server)
    (w w' : world) (user_list viewer_list : list nat) (w'' : world) :
  (∀ i, i ∈ inactive_users → is_Some (users w !! i)) →
  deactivate_users inactive_users srv w = (Ok tt, w') →
  viewers user_list w' = (Ok viewer_list, w'') →
  Forall (λ i, i ∉ viewer_list) inactive_users.
Proof.
  intros Hvalid Hrun Hviewers. apply Forall_forall. intros i Hi Hin.
  apply deactivate_users_run in Hrun as [_ Hun]; [|exact Hvalid].
  apply viewers_spec in Hviewers as [_ Hv].
  destruct (Hv _ eq_refl i Hin) as (u & Hu & Hrole).
  specialize (Hun i Hi). unfold is_unlicensed in Hun. rewrite Hu in Hun.
  cbn in Hun. injection Hun as Hun. rewrite Hrole in Hun. discriminate Hun.
Qed.

Lemma deactivated_users_are_no_viewers_witness :
  (viewers [0; 1; 2]%nat (deactivate_users [0]%nat ex_server ex_world).2).1 = Ok [1]%nat
  ∧ Forall (λ i : nat, i ∉ [1]%nat) [0]%nat.
Proof.
  split; [vm_compute; reflexivity|].
  apply (deactivated_users_are_no_viewers [0]%nat ex_server ex_world
           (deactivate_users [0]%nat ex_server ex_world).2 [0; 1; 2]%nat [1]%nat
           (deactivate_users [0]%nat ex_server ex_world).2).
  - intros i ->%list_elem_of_singleton. eexists. reflexivity.
  - vm_compute. reflexivity.
  - vm_compute. reflexivity.
Defined.

(** X11.  The loop over the sites stops at the first site that refuses the
    sign-in: the sites before it are processed, each to its sign-out, and
    the loop then raises with the world those sites have left; no site after
    it is signed in to. *)
Theorem refused_site_ends_the_loop (clock : nat → Z) (sites : string → server)
    (before : list string) (refused : string) (after : list string) (w : world) :
  (∀ s, s ∈ before → accepts_token (sites s) = true) →
  accepts_token (sites refused) = false →
  ∃ w', for_each before (λ site, process_site clock (sites site)) w = (Ok tt, w')
        ∧ for_each (before ++ refused :: after) (λ site, process_site clock (sites site)) w
          = (Raise ServerResponseError, w').
Proof.
  intros Hbefore Hrefused.
  destruct (for_each_ok (λ _ _, True) (λ site, process_site clock (sites site)) before w I)
    as (w' & Hrun & _).
  { intros done s rest w1 Hl _.
    destruct (process_site clock (sites s) w1) as [r1 w1'] eqn:Hsite.
    pose proof (process_site_signs_out _ _ _ _ _ Hsite) as Hout.
    rewrite Hbefore in Hout by (rewrite Hl; set_solver).
    destruct Hout as (-> & _). eauto. }
  exists w'. split; [exact Hrun|].
  rewrite for_each_app, Hrun. unfold for_each. cbn [for_fold].
  apply run_bind_raise. unfold process_site. apply run_bind_raise.
  unfold tableau_signin. now rewrite Hrefused.
Qed.

Lemma refused_site_ends_the_loop_witness :
  let sites := λ s : string,
    if decide (s = "closed") then Server false None None (λ _, true) (λ _, true)
    else ex_server in
  ∃ w', for_each ["sales"] (λ site, process_site ex_clock (sites site)) ex_world
        = (Ok tt, w')
        ∧ for_each (["sales"] ++ "closed" :: ["ops"])
            (λ site, process_site ex_clock (sites site)) ex_world
          = (Raise ServerResponseError, w').
Proof.
  apply (refused_site_ends_the_loop ex_clock
           (λ s : string,
              if decide (s = "closed") then Server false None None (λ _, true) (λ _, true)
              else ex_server)
           ["sales"] "closed" ["ops"] ex_world).
  - intros s ->%list_elem_of_singleton. reflexivity.
  - reflexivity.
Defined.

End DeactivationFurther.

(** ** The stages of the export: tiles and documents *)

Section StagesFurther.
Import ExportAs.

(** A write that returns has put the file in place and changed nothing
    else. *)
Lemma write_file_ok_inv (p : path) (c : content) (w : world) (u : unit) (w' : world) :
  write_file p c w = (Ok u, w') → w' = set_fs <[p := File c]> w.
Proof.
  unfold write_file. destruct (negb _); [discriminate|].
  destruct p as [|x p]; [discriminate|].
  destruct (fs w !! (x :: p)) as [[|]|]; try discriminate; now intros [= <-].
Qed.

(** A write that raises has changed nothing. *)
Lemma write_file_raise_inv (p : path) (c : content) (w : world) (e : exn) (w' : world) :
  write_file p c w = (Raise e, w') → w' = w.
Proof.
  unfold write_file. destruct (negb _); [now intros [= <-]|].
  destruct p as [|x p]; [now intros [= <-]|].
  destruct (fs w !! (x :: p)) as [[|]|]; try discriminate; now intros [= <-].
Qed.

(** A save that returns has put the image in place and changed nothing
    else; one that raises [ValueError] on an empty image leaves a file that
    was there empty, and no new file. *)
Lemma Image_save_ok_inv (p : path) (size : Z * Z) (w : world) (u : unit) (w' : world) :
  Image_save p size w = (Ok u, w') →
  0 < size.1 ∧ 0 < size.2 ∧ w' = set_fs <[p := File (Png size.1 size.2)]> w.
Proof.
  unfold Image_save. destruct (0 <? size.1) eqn:H1; cbn [andb].
  - destruct (0 <? size.2) eqn:H2.
    + intros ->%write_file_ok_inv. split_and!; [lia|lia|reflexivity].
    + destruct (write_file p Empty w) as [[|] ?]; discriminate.
  - destruct (write_file p Empty w) as [[|] ?]; discriminate.
Qed.

(** The same for the output of a PDF document. *)
Lemma output_ok_inv (doc : FPDF) (p : path) (w : world) (u : unit) (w' : world) :
  output doc p w = (Ok u, w') → w' = set_fs <[p := File (Pdf (pdf_pages doc))]> w.
Proof.
  unfold output. destruct (forallb _ _); [apply write_file_ok_inv|discriminate].
Qed.

Lemma output_raise_inv (doc : FPDF) (p : path) (w : world) (e : exn) (w' : world) :
  output doc p w = (Raise e, w') → w' = w.
Proof.
  unfold output. destruct (forallb _ _); [apply write_file_raise_inv|now intros [= <-]].
Qed.

(** The names a round of the inner loop and a round of the outer loop of
    [split_image] add to the index. *)
Lemma tile_names_rounds (img_name : string) (rows cols : nat) :
  tile_names img_name rows cols =
    flat_map (λ row,
      flat_map (λ col, if ((row =? 0) && (col =? 1))%nat then []
                       else [export_name img_name row col]) (seq 0 cols)) (seq 0 rows).
Proof.
  unfold tile_names, grid.
  induction (seq 0 rows) as [|row l IH]; [reflexivity|].
  cbn [flat_map]. rewrite filter_app, map_app, IH. f_equal.
  clear. induction (seq 0 cols) as [|col l IH]; [reflexivity|].
  cbn [map flat_map]. rewrite <- IH.
  destruct (Nat.eqb_spec row 0) as [Hr|Hr]; destruct (Nat.eqb_spec col 1) as [Hc|Hc];
    cbn [andb app].
  - subst. now rewrite filter_cons_False by (intros H; now apply H).
  - rewrite filter_cons_True by congruence. reflexivity.
  - rewrite filter_cons_True by congruence. reflexivity.
  - rewrite filter_cons_True by congruence. reflexivity.
Qed.

Lemma length_row_names (img_name : string) (row start n : nat) :
  length (flat_map (λ col, if ((row =? 0) && (col =? 1))%nat then []
                           else [export_name img_name row col]) (seq start n))
  = (n - (if decide (row = 0 ∧ start ≤ 1 < start + n) then 1 else 0))%nat.
Proof.
  revert start. induction n as [|n IH]; intros start; [reflexivity|].
  cbn [seq flat_map]. rewrite length_app, IH.
  destruct (Nat.eqb_spec row 0) as [Hr|Hr]; destruct (Nat.eqb_spec start 1) as [Hc|Hc];
    cbn [andb length]; repeat destruct (decide _); lia.
Qed.

Lemma length_tile_names (img_name : string) (rows cols : nat) :
  length (tile_names img_name rows cols)
  = (rows * cols - (if decide (1 ≤ rows ∧ 2 ≤ cols) then 1 else 0))%nat.
Proof.
  rewrite tile_names_rounds.
  assert (Hrows : ∀ start n,
    length (flat_map (λ row,
      flat_map (λ col, if ((row =? 0) && (col =? 1))%nat then []
                       else [export_name img_name row col]) (seq 0 cols)) (seq start n))
    = (n * cols - (if decide (start = 0 ∧ 1 ≤ n ∧ 2 ≤ cols) then 1 else 0))%nat).
  { intros start n. revert start. induction n as [|n IH]; intros start; [reflexivity|].
    cbn [seq flat_map]. rewrite length_app, IH, length_row_names.
    repeat destruct (decide _); nia. }
  rewrite Hrows. repeat destruct (decide _); lia.
Qed.

(** X12.  [split_image] on a grid of any size: when it returns, it has
    added to the index the names of the cells in row-major order, the cell
    of row 0 and column 1 left out, that is one name less than there are
    cells when the grid has this cell; and every name it added is an image
    in the output directory. *)
Theorem split_image_grid (image_path output_dir : path) (rows cols : nat)
    (img_name : string) (tmp_index : list string) (w : world)
    (index : list string) (w' : world) :
  split_image image_path output_dir rows cols img_name tmp_index w = (Ok index, w') →
  index = tmp_index ++ tile_names img_name rows cols
  ∧ length (tile_names img_name rows cols)
    = (rows * cols - (if decide (1 ≤ rows ∧ 2 ≤ cols) then 1 else 0))%nat
  ∧ ∀ n, n ∈ tile_names img_name rows cols →
         ∃ W H, fs w' !! os_path_join output_dir n = Some (File (Png W H)).
Proof.
  intros Hrun. unfold split_image in Hrun.
  apply run_bind_ok_inv in Hrun as ([width height] & w1 & _ & Hrun).
  apply run_bind_ok_inv in Hrun as (tile_width & w2 & _ & Hrun).
  apply run_bind_ok_inv in Hrun as (tile_height & w3 & _ & Hrun).
  apply run_bind_ok_inv in Hrun as ([] & w4 & _ & Hrun).
  rewrite tile_names_rounds.
  set (present := λ (w : world) (n : string),
         ∃ W H, fs w !! os_path_join output_dir n = Some (File (Png W H))).
  set (cell := λ row col : nat, if ((row =? 0) && (col =? 1))%nat then []
                                else [export_name img_name row col]).
  assert (Hcell : ∀ row acc col w r w',
    (if ((row =? 0) && (col =? 1))%nat then mret acc
     else let tile := crop_size (tile_box width height tile_width tile_height row col) in
          let export_name := export_name img_name row col in
          let tile_path := os_path_join output_dir export_name in
          Image_save tile_path tile;;
          mret (acc ++ [export_name])) w = (Ok r, w') →
    r = acc ++ cell row col ∧ (∀ n, present w n → present w' n)
    ∧ (∀ n, n ∈ cell row col → present w' n)).
  { intros row acc col w0 r w0' Hcol. unfold cell.
    destruct ((row =? 0) && (col =? 1))%nat.
    - injection Hcol as <- <-. rewrite app_nil_r. split_and!; [reflexivity|auto|].
      intros n Hn. now apply not_elem_of_nil in Hn.
    - apply run_bind_ok_inv in Hcol as ([] & w5 & Hwrite & Hret).
      injection Hret as <- <-. apply Image_save_ok_inv in Hwrite as (_ & _ & ->).
      unfold present. cbn [fs set_fs]. split_and!; [reflexivity| |].
      + intros n (W & H & Hn).
        destruct (decide (os_path_join output_dir (export_name img_name row col)
                          = os_path_join output_dir n)) as [->|Hne].
        * rewrite lookup_insert_eq. eauto.
        * rewrite lookup_insert_ne by assumption. eauto.
      + intros n ->%list_elem_of_singleton. rewrite lookup_insert_eq. eauto. }
  assert (Hrow : ∀ acc row w r w',
    for_fold (seq 0 cols) (λ tmp_index col,
      if ((row =? 0) && (col =? 1))%nat then mret tmp_index
      else let tile := crop_size (tile_box width height tile_width tile_height row col) in
           let export_name := export_name img_name row col in
           let tile_path := os_path_join output_dir export_name in
           Image_save tile_path tile;;
           mret (tmp_index ++ [export_name])) acc w = (Ok r, w') →
    r = acc ++ flat_map (cell row) (seq 0 cols) ∧ (∀ n, present w n → present w' n)
    ∧ (∀ n, n ∈ flat_map (cell row) (seq 0 cols) → present w' n)).
  { intros acc row w0 r w0' Hr.
    exact (for_fold_collects present _ (cell row) _ _ _ _ _ (Hcell row) Hr). }
  destruct (for_fold_collects present _ (λ row, flat_map (cell row) (seq 0 cols))
              _ _ _ _ _ Hrow Hrun) as (Hidx & _ & Hfiles).
  split_and!; [exact Hidx|rewrite <- tile_names_rounds; apply length_tile_names|exact Hfiles].
Qed.

Lemma split_image_grid_witness :
  let run := split_image ["img"; "0b5e"; "Overview.png"] ["img"; "0b5e"; "slide_imgs"] 3 3
               "Overview" [] (initial_world ex_scratch) in
  ∃ index, run.1 = Ok index
    ∧ index = [] ++ tile_names "Overview" 3 3
    ∧ length (tile_names "Overview" 3 3)
      = (3 * 3 - (if decide (1 ≤ 3 ∧ 2 ≤ 3) then 1 else 0))%nat
    ∧ ∀ n, n ∈ tile_names "Overview" 3 3 →
           ∃ W H, fs run.2 !! os_path_join ["img"; "0b5e"; "slide_imgs"] n
                  = Some (File (Png W H)).
Proof.
  eexists. split; [vm_compute; reflexivity|].
  apply (split_image_grid ["img"; "0b5e"; "Overview.png"] ["img"; "0b5e"; "slide_imgs"] 3 3
           "Overview" [] (initial_world ex_scratch)).
  vm_compute. reflexivity.
Defined.

(** X13.  [split_image] with no row or no column raises [ZeroDivisionError]
    once it has opened the image, before it makes the output directory: the
    files are as they were. *)
Theorem split_image_without_cells (image_path output_dir : path) (rows cols : nat)
    (img_name : string) (tmp_index : list string) (w : world) (size : Z * Z) :
  Image_open image_path w = (Ok size, w) →
  rows = 0%nat ∨ cols = 0%nat →
  split_image image_path output_dir rows cols img_name tmp_index w
  = (Raise ZeroDivisionError, w).
Proof.
  intros Hopen Hzero. unfold split_image. destruct size as [width height].
  eapply run_bind_intro; [exact Hopen|].
  destruct cols as [|cols]; [reflexivity|].
  destruct Hzero as [->|[=]]. reflexivity.
Qed.

Lemma split_image_without_cells_witness :
  split_image ["img"; "0b5e"; "Overview.png"] ["img"; "0b5e"; "slide_imgs"] 2 0
    "Overview" [] (initial_world ex_scratch)
  = (Raise ZeroDivisionError, initial_world ex_scratch).
Proof.
  apply (split_image_without_cells _ _ 2 0 _ _ _ (1601, 901)); [reflexivity|now right].
Defined.

Lemma Image_open_world (p : path) (w : world) (r : result (Z * Z)) (w' : world) :
  Image_open p w = (r, w') → w' = w.
Proof.
  unfold Image_open. destruct p as [|x p]; [now intros [= _ <-]|].
  destruct (fs w !! (x :: p)) as [[[]|]|]; now intros [= _ <-].
Qed.

Lemma add_image_to_ppt_world (prs : presentation) (img_dir : path) (img_file : string)
    (w : world) (r : result presentation) (w' : world) :
  add_image_to_ppt prs img_dir img_file w = (r, w') →
  w' = w ∧ ∀ prs', r = Ok prs' →
             map slide_image (slides prs')
             = map slide_image (slides prs) ++ [Some (os_path_join img_dir img_file)].
Proof.
  unfold add_image_to_ppt. rewrite run_bind.
  destruct (Image_open _ w) as [[[img_width img_height]|e] w1] eqn:Hopen;
    apply Image_open_world in Hopen as ->; [|intros [= <- <-]; split; [reflexivity|discriminate]].
  rewrite run_bind. unfold lift at 1.
  destruct (add_image_to_ppt_placement _ _ _ _) as [place|e];
    intros [= <- <-]; (split; [reflexivity|]); [|discriminate].
  intros prs' [= <-]. cbn [add_slide slides]. now rewrite map_app.
Qed.

Lemma add_image_to_pdf_world (doc : FPDF) (img_path : path) (cfg : pdf_config)
    (w : world) (r : result FPDF) (w' : world) :
  add_image_to_pdf doc img_path cfg w = (r, w') →
  w' = w ∧ ∀ doc', r = Ok doc' →
             pdf_w doc' = pdf_w doc ∧ pdf_h doc' = pdf_h doc
             ∧ map page_image (pdf_pages doc')
               = map page_image (pdf_pages doc) ++ [Some img_path].
Proof.
  unfold add_image_to_pdf. rewrite run_bind.
  destruct (Image_open _ w) as [[[img_width img_height]|e] w1] eqn:Hopen;
    apply Image_open_world in Hopen as ->; [|intros [= <- <-]; split; [reflexivity|discriminate]].
  rewrite run_bind. unfold lift at 1.
  destruct (add_image_to_pdf_placement _ _ _ _) as [place|e];
    intros [= <- <-]; (split; [reflexivity|]); [|discriminate].
  intros doc' [= <-]. cbn [add_page pdf_pages pdf_w pdf_h]. now rewrite map_app.
Qed.

(** X14.  A document is written whole or not at all.  When [create_deck] or
    [export_as_pdf] returns, the only change is the document at its path,
    with the title and then the images of the index in order; when it
    raises, be it on an image of the index that is missing or on the target
    itself, no file has been written or changed. *)
Theorem document_is_written_whole (size : Z * Z) (page_size : Q * Q)
    (now project_name : string) (img_dir export_path : path) (workbook_name : string)
    (cfg : pdf_config) (w : world)
    (r1 : result unit) (w1 : world) (r2 : result unit) (w2 : world) :
  create_deck size now project_name img_dir export_path workbook_name w = (r1, w1) →
  export_as_pdf page_size now img_dir export_path cfg w = (r2, w2) →
  match r1 with
  | Ok _ => ∃ c, w1 = set_fs <[export_path := File c]> w
                 ∧ document_images c
                   = None :: map (λ n, Some (os_path_join img_dir n)) (img_indexing w)
  | Raise _ => w1 = w
  end
  ∧ match r2 with
    | Ok _ => ∃ c, w2 = set_fs <[export_path := File c]> w
                   ∧ document_images c
                     = None :: map (λ n, Some (os_path_join img_dir n)) (img_indexing w)
    | Raise _ => w2 = w
    end.
Proof.
  intros Hdeck Hpdf. split.
  - unfold create_deck in Hdeck. rewrite run_bind in Hdeck. cbn [get_images] in Hdeck.
    rewrite run_bind in Hdeck.
    destruct (for_fold (img_indexing w) _ _ w) as [rp wp] eqn:Hloop.
    assert (Hr : match rp with
                 | Ok prs => wp = w
                     ∧ map slide_image (slides prs)
                       = None :: map (λ n, Some (os_path_join img_dir n)) (img_indexing w)
                 | Raise _ => wp = w
                 end).
    { refine (for_fold_ind
        (λ done prs w3, w3 = w ∧ map slide_image (slides prs)
                                 = None :: map (λ n, Some (os_path_join img_dir n)) done)
        (λ w3, w3 = w) _ _ _ _ _ _ _ _ Hloop); [split; reflexivity|].
      intros done x rest prs w3 r3 w3' _ [-> Hslides] Hb.
      apply add_image_to_ppt_world in Hb as [-> Hb].
      destruct r3 as [prs'|e]; [|reflexivity]. split; [reflexivity|].
      rewrite (Hb _ eq_refl), Hslides, map_app. reflexivity. }
    destruct rp as [prs|e]; [|subst wp; now injection Hdeck as <- <-].
    destruct Hr as [-> Hslides]. destruct r1 as [[]|e].
    + apply write_file_ok_inv in Hdeck as ->. eexists. split; [reflexivity|exact Hslides].
    + now apply write_file_raise_inv in Hdeck.
  - unfold export_as_pdf in Hpdf. rewrite run_bind in Hpdf. cbn [get_images] in Hpdf.
    rewrite run_bind in Hpdf.
    destruct (for_fold (img_indexing w) _ _ w) as [rp wp] eqn:Hloop.
    assert (Hr : match rp with
                 | Ok doc => wp = w
                     ∧ map page_image (pdf_pages doc)
                       = None :: map (λ n, Some (os_path_join img_dir n)) (img_indexing w)
                 | Raise _ => wp = w
                 end).
    { refine (for_fold_ind
        (λ done doc w3, w3 = w ∧ map page_image (pdf_pages doc)
                                 = None :: map (λ n, Some (os_path_join img_dir n)) done)
        (λ w3, w3 = w) _ _ _ _ _ _ _ _ Hloop); [split; reflexivity|].
      intros done x rest doc w3 r3 w3' _ [-> Hpages] Hb.
      apply add_image_to_pdf_world in Hb as [-> Hb].
      destruct r3 as [doc'|e]; [|reflexivity]. split; [reflexivity|].
      destruct (Hb _ eq_refl) as (_ & _ & ->). rewrite Hpages, map_app. reflexivity. }
    destruct rp as [doc|e]; [|subst wp; now injection Hpdf as <- <-].
    destruct Hr as [-> Hpages]. destruct r2 as [[]|e].
    + apply output_ok_inv in Hpdf as ->. eexists. split; [reflexivity|exact Hpages].
    + now apply output_raise_inv in Hpdf.
Qed.

Lemma document_is_written_whole_witness :
  let w := World ex_scratch ["Overview.png"] true [SignIn] in
  let deck := create_deck (9144000, 6858000) "2024-03-22" "Prod" ["img"; "0b5e"]
                ["Sales.pptx"] "Sales" w in
  let doc := export_as_pdf (297#1, 210#1)%Q "2024-03-22" ["img"; "0b5e"]
               ["Sales.pptx"] (PdfConfig "Sales" (Some "Prod")) w in
  match deck.1 with
  | Ok _ => ∃ c, deck.2 = set_fs <[["Sales.pptx"] := File c]> w
                 ∧ document_images c
                   = None :: map (λ n, Some (os_path_join ["img"; "0b5e"] n)) (img_indexing w)
  | Raise _ => deck.2 = w
  end
  ∧ match doc.1 with
    | Ok _ => ∃ c, doc.2 = set_fs <[["Sales.pptx"] := File c]> w
                   ∧ document_images c
                     = None :: map (λ n, Some (os_path_join ["img"; "0b5e"] n)) (img_indexing w)
    | Raise _ => doc.2 = w
    end.
Proof.
  cbv zeta.
  apply (document_is_written_whole (9144000, 6858000) (297#1, 210#1)%Q
           "2024-03-22" "Prod" ["img"; "0b5e"] ["Sales.pptx"] "Sales"
           (PdfConfig "Sales" (Some "Prod"))
           (World ex_scratch ["Overview.png"] true [SignIn])).
  - vm_compute. reflexivity.
  - vm_compute. reflexivity.
Defined.

(** X15.  The tiles of a view are named after the part of the view's name
    before its first ".": for a name without "." that is the name itself
    (the image name, split at ".", gives the view name back), and a view
    whose name goes on after a "." gets the tile names of the view named by
    the part before it. *)
Theorem tile_base_name (view_name rest : string) :
  has_dot view_name = false →
  split_dot_0 (png view_name) = view_name
  ∧ split_dot_0 (png (view_name +:+ "." +:+ rest)) = view_name
  ∧ tiles_of (png (view_name +:+ "." +:+ rest)) = tiles_of (png view_name).
Proof.
  intros H.
  assert (E : split_dot_0 (png (view_name +:+ "." +:+ rest)) = view_name).
  { unfold png. rewrite !string_app_assoc, string_app_cons, string_app_nil.
    now apply split_dot_0_dot. }
  split_and!; [now apply split_dot_0_png|exact E|].
  unfold tiles_of. now rewrite E, split_dot_0_png.
Qed.

Lemma tile_base_name_witness :
  split_dot_0 (png "Sales") = "Sales"
  ∧ split_dot_0 (png ("Sales" +:+ "." +:+ "2024")) = "Sales"
  ∧ tiles_of (png ("Sales" +:+ "." +:+ "2024")) = tiles_of (png "Sales").
Proof. apply (tile_base_name "Sales" "2024"). reflexivity. Defined.

(** X16.  Views with different names without "." never share a tile: the
    tile index of their images has no name twice, so no tile file is written
    twice. *)
Theorem distinct_views_distinct_tiles (names : list string) :
  NoDup names → (∀ n, n ∈ names → has_dot n = false) →
  NoDup (tile_index (map png names)).
Proof. apply NoDup_tile_index. Qed.

Lemma distinct_views_distinct_tiles_witness :
  NoDup (tile_index (map png ["Overview"; "Detail"])).
Proof.
  apply (distinct_views_distinct_tiles ["Overview"; "Detail"]).
  - compute_done.
  - intros n Hn. rewrite !elem_of_cons in Hn.
    destruct Hn as [->|[->|Hn]]; [reflexivity..|]. now apply not_elem_of_nil in Hn.
Defined.

(** X17.  Whatever the outcome of [export_images], the index has grown by
    the images of the first requested views of the workbook, in the order of
    the workbook (all of them when it returns), and the server has been
    asked for requested views of the workbook only. *)
Theorem export_images_any_outcome (wb : workbook) (opts : ImageRequestOptions)
    (img_dir : path) (ppt_slides : list string) (w : world) (r : result unit) (w' : world) :
  export_images wb opts img_dir ppt_slides w = (r, w') →
  ∃ names evs,
    names `prefix_of` exported ppt_slides (wb_views wb)
    ∧ (is_ok r = true → names = exported ppt_slides (wb_views wb))
    ∧ img_indexing w' = img_indexing w ++ map png names
    ∧ trace w' = trace w ++ evs
    ∧ Forall (λ e, ∃ n, n ∈ exported ppt_slides (wb_views wb) ∧ render_call n e) evs.
Proof.
  intros Hrun. unfold export_images in Hrun.
  set (asked := λ evs : list event,
         Forall (λ e, ∃ n, n ∈ exported ppt_slides (wb_views wb) ∧ render_call n e) evs).
  set (I := λ (done : list view) (w1 : world),
         img_indexing w1 = img_indexing w ++ map png (exported ppt_slides done)
         ∧ ∃ evs, trace w1 = trace w ++ evs ∧ asked evs).
  set (R := λ w1 : world,
         ∃ names evs, names `prefix_of` exported ppt_slides (wb_views wb)
           ∧ img_indexing w1 = img_indexing w ++ map png names
           ∧ trace w1 = trace w ++ evs ∧ asked evs).
  assert (H : match r with Ok _ => I (wb_views wb) w' | Raise _ => R w' end);
    [refine (for_each_ind I R _ _ _ _ _ _ _ Hrun)|].
  - split; [now rewrite app_nil_r|]. exists []. split; [now rewrite app_nil_r|constructor].
  - unfold I, R. intros done v rest w1 r1 w1' Hl (Hi & evs & Ht & Hevs).
    assert (Hpre : exported ppt_slides done `prefix_of` exported ppt_slides (wb_views wb)).
    { rewrite Hl, exported_app. now apply prefix_app_r. }
    destruct (bool_decide_reflect (view_name v ∈ ppt_slides)) as [Hreq|Hreq]; cbn [negb].
    2:{ intros [= <- <-]. rewrite exported_app, (exported_skipped _ _ Hreq), app_nil_r.
        split; [exact Hi|eauto]. }
    assert (Hpre' : exported ppt_slides (done ++ [v])
                    `prefix_of` exported ppt_slides (wb_views wb)).
    { rewrite Hl, (exported_app _ done), (exported_app _ done (v :: rest)).
      apply prefix_app. change (v :: rest) with ([v] ++ rest).
      rewrite exported_app. now apply prefix_app_r. }
    assert (Hv : view_name v ∈ exported ppt_slides (wb_views wb)).
    { unfold exported. apply list_elem_of_filter. split; [exact Hreq|].
      apply list_elem_of_fmap. exists v. split; [reflexivity|]. rewrite Hl. set_solver. }
    assert (Hi' : ∀ w2, img_indexing w2 = img_indexing w1 ++ [view_name v +:+ ".png"] →
              img_indexing w2 = img_indexing w ++ map png (exported ppt_slides (done ++ [v]))).
    { intros w2 ->. rewrite Hi, exported_app, (exported_requested _ _ Hreq), map_app.
      now rewrite <- app_assoc. }
    assert (Hask1 : asked (evs ++ [PopulateImage (view_name v)])).
    { apply Forall_app. split; [exact Hevs|]. repeat constructor.
      exists (view_name v). split; [exact Hv|now left]. }
    assert (Hask2 : asked ((evs ++ [PopulateImage (view_name v)]) ++ [PopulateCsv (view_name v)])).
    { apply Forall_app. split; [exact Hask1|]. repeat constructor.
      exists (view_name v). split; [exact Hv|now right]. }
    rewrite run_bind. unfold populate_image at 1.
    destruct (view_image v opts) as [[width height]|].
    2:{ intros [= <- <-]. exists (exported ppt_slides done), (evs ++ [PopulateImage (view_name v)]).
        split_and!; [exact Hpre|exact Hi| |exact Hask1].
        cbn [trace emit]. now rewrite Ht, <- app_assoc. }
    rewrite run_bind. cbn [modify]. rewrite run_bind.
    set (w2 := set_img_indexing _ _).
    assert (Hi2 : img_indexing w2
                  = img_indexing w ++ map png (exported ppt_slides (done ++ [v])))
      by (apply Hi'; reflexivity).
    assert (Ht2 : trace w2 = trace w ++ evs ++ [PopulateImage (view_name v)]).
    { unfold w2. cbn [trace set_img_indexing emit]. now rewrite Ht, <- app_assoc. }
    destruct (write_file _ (Png width height) w2) as [[[]|e] w3] eqn:Hpng.
    2:{ apply write_file_raise_inv in Hpng as ->. intros [= <- <-].
        exists (exported ppt_slides (done ++ [v])), (evs ++ [PopulateImage (view_name v)]).
        split_and!; assumption. }
    apply write_file_ok_inv in Hpng as ->.
    rewrite run_bind.
    destruct (write_file _ Empty _) as [[[]|e] w3] eqn:Hcsv.
    2:{ apply write_file_raise_inv in Hcsv as ->. intros [= <- <-].
        exists (exported ppt_slides (done ++ [v])), (evs ++ [PopulateImage (view_name v)]).
        split_and!; assumption. }
    apply write_file_ok_inv in Hcsv as ->.
    rewrite run_bind. unfold populate_csv at 1.
    destruct (view_csv v opts).
    2:{ intros [= <- <-].
        exists (exported ppt_slides (done ++ [v])),
               ((evs ++ [PopulateImage (view_name v)]) ++ [PopulateCsv (view_name v)]).
        split_and!; [exact Hpre'|exact Hi2| |exact Hask2].
        cbn [trace emit set_fs]. now rewrite Ht2, <- !app_assoc. }
    intros [= <- <-]. split; [exact Hi2|].
    exists ((evs ++ [PopulateImage (view_name v)]) ++ [PopulateCsv (view_name v)]).
    split; [|exact Hask2]. cbn [trace emit set_fs]. now rewrite Ht2, <- !app_assoc.
  - unfold I, R in H. destruct r as [[]|e].
    + destruct H as (Hi & evs & Ht & Hevs).
      exists (exported ppt_slides (wb_views wb)), evs. split_and!; auto.
    + destruct H as (names & evs & Hp & Hi & Ht & Hevs).
      exists names, evs. split_and!; auto. discriminate.
Qed.

Lemma export_images_any_outcome_witness :
  let w := World (<[["img"; "0b5e"] := Dir]> (<[["img"] := Dir]> ∅)) [] true [SignIn] in
  let wb := Workbook "Sales" "Prod" [ex_view "Overview"; ex_broken_view "Detail"] in
  let run := export_images wb [] ["img"; "0b5e"] ex_slide_views w in
  ∃ names evs,
    names `prefix_of` exported ex_slide_views (wb_views wb)
    ∧ (is_ok run.1 = true → names = exported ex_slide_views (wb_views wb))
    ∧ img_indexing run.2 = img_indexing w ++ map png names
    ∧ trace run.2 = trace w ++ evs
    ∧ Forall (λ e, ∃ n, n ∈ exported ex_slide_views (wb_views wb) ∧ render_call n e) evs.
Proof.
  cbv zeta.
  apply (export_images_any_outcome
           (Workbook "Sales" "Prod" [ex_view "Overview"; ex_broken_view "Detail"])
           [] ["img"; "0b5e"] ex_slide_views
           (World (<[["img"; "0b5e"] := Dir]> (<[["img"] := Dir]> ∅)) [] true [SignIn])
           (export_images
              (Workbook "Sales" "Prod" [ex_view "Overview"; ex_broken_view "Detail"])
              [] ["img"; "0b5e"] ex_slide_views
              (World (<[["img"; "0b5e"] := Dir]> (<[["img"] := Dir]> ∅)) [] true [SignIn])).1).
  vm_compute. reflexivity.
Defined.

End StagesFurther.

(** ** A whole run: the paths it touches, and a run without views *)

Section Touched.
Import ExportAs.
Context (S : path → Prop).

Lemma unchanged_outside_refl (w : world) : unchanged_outside S w w.
Proof. now intros p _. Qed.

Lemma unchanged_outside_trans (w1 w2 w3 : world) :
  unchanged_outside S w1 w2 → unchanged_outside S w2 w3 → unchanged_outside S w1 w3.
Proof. intros H1 H2 p Hp. now rewrite H2, H1. Qed.

Lemma unchanged_outside_same (w w' : world) : fs w' = fs w → unchanged_outside S w w'.
Proof. intros E p _. now rewrite E. Qed.

Lemma touches_write_file (p : path) (c : content) :
  S p → every_run (unchanged_outside S) (write_file p c).
Proof.
  intros Hp w r w' Hrun. destruct r as [[]|e].
  - apply write_file_ok_inv in Hrun as ->. intros q Hq. cbn [fs set_fs].
    apply lookup_insert_ne. now intros ->.
  - apply write_file_raise_inv in Hrun as ->. apply unchanged_outside_refl.
Qed.

Lemma touches_put (p : path) (x : node) :
  S p → every_run (unchanged_outside S) (modify (set_fs <[p := x]>)).
Proof.
  intros Hp w r w' [= <- <-]. intros q Hq. cbn [fs set_fs].
  apply lookup_insert_ne. now intros ->.
Qed.

Lemma touches_Image_save (p : path) (size : Z * Z) :
  S p → every_run (unchanged_outside S) (Image_save p size).
Proof.
  intros Hp w r w'. unfold Image_save.
  destruct ((0 <? size.1) && (0 <? size.2)); [now apply touches_write_file|].
  destruct (write_file p Empty w) as [[[]|e] w1] eqn:Hwrite.
  - apply write_file_ok_inv in Hwrite as ->. intros [= <- <-].
    destruct (decide _); [|apply unchanged_outside_refl].
    intros q Hq. cbn [fs set_fs]. apply lookup_insert_ne. now intros ->.
  - apply write_file_raise_inv in Hwrite as ->. intros [= <- <-].
    apply unchanged_outside_refl.
Qed.

Lemma touches_output (doc : FPDF) (p : path) :
  S p → every_run (unchanged_outside S) (output doc p).
Proof.
  intros Hp. unfold output. destruct (forallb _ _); [now apply touches_write_file|].
  intros w r w' [= <- <-]. apply unchanged_outside_refl.
Qed.

Lemma touches_makedirs (p : path) :
  (∀ q, q ∈ prefixes p → S q) → every_run (unchanged_outside S) (makedirs p).
Proof.
  intros Hp w r w' Hrun. unfold makedirs in Hrun.
  assert (H : match r with
              | Ok _ => unchanged_outside S w w'
              | Raise _ => unchanged_outside S w w'
              end); [|now destruct r].
  refine (for_each_ind (λ _ w1, unchanged_outside S w w1) (λ w1, unchanged_outside S w w1)
            _ _ _ _ _ _ _ Hrun); [apply unchanged_outside_refl|].
  intros done x rest w1 r1 w1' Hl Hw. unfold mkdir_exist_ok.
  assert (Hx : S x) by (apply Hp; rewrite Hl; set_solver).
  destruct (fs w1 !! x) as [[|]|]; [destruct (decide _)| |destruct (is_dir _ _)];
    intros [= <- <-]; try exact Hw.
  intros q Hq. cbn [fs set_fs]. rewrite lookup_insert_ne by now intros ->. now apply Hw.
Qed.

Lemma touches_Image_open (p : path) : every_run (unchanged_outside S) (Image_open p).
Proof. intros w r w' H. apply Image_open_world in H as ->. apply unchanged_outside_refl. Qed.

Lemma touches_listdir (p : path) : every_run (unchanged_outside S) (listdir p).
Proof.
  intros w r w'. unfold listdir. destruct (is_dir _ _); [|destruct (fs w !! _)];
    intros [= <- <-]; apply unchanged_outside_refl.
Qed.

Lemma touches_remove (p : path) : S p → every_run (unchanged_outside S) (remove p).
Proof.
  intros Hp w r w'. unfold remove.
  destruct (fs w !! p) as [[|]|]; intros [= <- <-]; try apply unchanged_outside_refl.
  intros q Hq. cbn [fs set_fs]. apply lookup_delete_ne. now intros ->.
Qed.

Lemma touches_rmdir (p : path) : S p → every_run (unchanged_outside S) (rmdir p).
Proof.
  intros Hp w r w'. unfold rmdir.
  destruct (fs w !! p) as [[|]|]; [|destruct (children _ _)|];
    intros [= <- <-]; try apply unchanged_outside_refl.
  intros q Hq. cbn [fs set_fs]. apply lookup_delete_ne. now intros ->.
Qed.

Lemma touches_connect (srv : server) : every_run (unchanged_outside S) (connect_tableau srv).
Proof.
  intros w r w'. unfold connect_tableau.
  destruct (accepts_token srv); intros [= <- <-]; now apply unchanged_outside_same.
Qed.

Lemma touches_populate_image (v : view) (opts : ImageRequestOptions) :
  every_run (unchanged_outside S) (populate_image v opts).
Proof.
  intros w r w'. unfold populate_image.
  destruct (view_image v opts); intros [= <- <-]; now apply unchanged_outside_same.
Qed.

Lemma touches_populate_csv (v : view) (opts : ImageRequestOptions) :
  every_run (unchanged_outside S) (populate_csv v opts).
Proof.
  intros w r w'. unfold populate_csv.
  destruct (view_csv v opts); intros [= <- <-]; now apply unchanged_outside_same.
Qed.

Lemma touches_modify (g : world → world) :
  (∀ w, fs (g w) = fs w) → every_run (unchanged_outside S) (modify g).
Proof. intros Hg w r w' [= <- <-]. now apply unchanged_outside_same. Qed.

Lemma touches_read {A} (g : world → A) :
  every_run (unchanged_outside S) (λ w, (Ok (g w), w)).
Proof. intros w r w' [= <- <-]. apply unchanged_outside_refl. Qed.

End Touched.

Section RunFurther.
Import ExportAs.

Ltac touch_steps :=
  repeat first
    [ match goal with |- every_run _ (makedirs _) => apply touches_makedirs end
    | match goal with |- every_run _ (write_file _ _) => apply touches_write_file end
    | match goal with |- every_run _ (Image_save _ _) => apply touches_Image_save end
    | match goal with |- every_run _ (output _ _) => apply touches_output end
    | match goal with |- every_run _ (modify (set_fs _)) => apply touches_put end
    | match goal with |- every_run _ (remove _) => apply touches_remove end
    | match goal with |- every_run _ (rmdir _) => apply touches_rmdir end
    | apply every_run_bind; [apply unchanged_outside_trans| |intros ?]
    | apply every_run_for_fold;
        [apply unchanged_outside_refl|apply unchanged_outside_trans|intros ? ?]
    | apply every_run_for_each;
        [apply unchanged_outside_refl|apply unchanged_outside_trans|intros ?]
    | apply every_run_ret; apply unchanged_outside_refl
    | apply every_run_lift; apply unchanged_outside_refl
    | apply every_run_raise; apply unchanged_outside_refl
    | apply touches_Image_open
    | apply touches_listdir
    | apply touches_connect
    | apply touches_populate_image
    | apply touches_populate_csv
    | apply touches_modify; reflexivity
    | apply (touches_read _ img_indexing)
    | progress cbv zeta
    | match goal with |- every_run _ (match ?x with _ => _ end) => destruct x end
    | match goal with |- every_run _ (if ?x then _ else _) => destruct x end ].

Lemma run_path_scratch (a : args) (q : path) : q ∈ prefixes (scratch_dir a) → run_path a q.
Proof.
  rewrite prefixes_scratch_dir, !elem_of_cons.
  intros [->|[->|[]%not_elem_of_nil]]; [now left|right; now left].
Qed.

Lemma run_path_tile_dir (a : args) (q : path) :
  q ∈ prefixes (scratch_dir a ++ ["slide_imgs"]) → run_path a q.
Proof.
  intros [->|Hq]%elem_of_prefixes_snoc; [|now apply run_path_scratch].
  right; left. now apply prefix_app_r.
Qed.

Lemma run_path_output (a : args) (q : path) : q ∈ prefixes (output_dir a) → run_path a q.
Proof.
  rewrite prefixes_output_dir. intros ->%list_elem_of_singleton. right; now right.
Qed.

Lemma touches_pipeline (srv : server) (a : args) :
  every_run (unchanged_outside (run_path a)) (pipeline srv a).
Proof.
  unfold pipeline, load_config.
  assert (Hout : output_dir a
                 = os_path_join ppt_location
                     (match export_type a with ppt => "ppt" | pdf => "pdf" end))
    by reflexivity.
  destruct (export_type a); touch_steps;
    first
      [ intros q Hq;
        first [ now apply run_path_scratch
              | now apply run_path_tile_dir
              | rewrite <- Hout in Hq; now apply run_path_output ]
      | right; left; eexists; cbn; reflexivity
      | right; right; rewrite Hout; eexists; cbn; reflexivity ].
Qed.

(** The value the clean-up step is given: the directory of the tiles. *)
Lemma pipeline_returns (srv : server) (a : args) (w : world) (d : path) (w' : world) :
  pipeline srv a w = (Ok d, w') → d = tile_dir a.
Proof.
  unfold pipeline. intros H.
  do 7 (apply run_bind_ok_inv in H as (? & ? & _ & H)). cbv zeta in H.
  do 2 (apply run_bind_ok_inv in H as (? & ? & _ & H)).
  apply run_bind_ok_inv in H as (d0 & ? & Hgen & H).
  apply run_bind_ok_inv in H as (? & ? & _ & H). injection H as <- _.
  unfold generate_slide_imgs in Hgen.
  do 3 (apply run_bind_ok_inv in Hgen as (? & ? & _ & Hgen)).
  now injection Hgen as <- _.
Qed.

Lemma touches_cleanup (S : path → Prop) (img_dir : path) :
  S img_dir → (∀ n, S (img_dir ++ [n])) →
  every_run (unchanged_outside S) (cleanup img_dir).
Proof. intros Hd Hin. unfold cleanup. touch_steps; first [exact Hd | apply Hin]. Qed.

(** X18.  Whatever its outcome, a run whose names are plain (its
    identifier, the workbook name of its configuration and the names of the
    views on the server) changes no file or directory besides the directory
    [img], its own scratch directory with what is below it, and its output
    directory with what is below it.  In particular it leaves the scratch
    directory of every other run, under its other identifier, as it is. *)
Theorem run_touches_its_own_paths (srv : server) (a : args)
    (w : world) (r : result unit) (w' : world) :
  plain_names srv a = true →
  main srv a w = (r, w') →
  (∀ p, plain_path p = true → ¬ run_path a p → fs w' !! p = fs w !! p)
  ∧ (∀ other p, dir_name other = true → other ≠ export_id a → plain_path p = true →
                os_path_join img_export other `prefix_of` p →
                fs w' !! p = fs w !! p).
Proof.
  intros _ Hrun.
  assert (Hmain : unchanged_outside (run_path a) w w').
  { revert Hrun. unfold main. rewrite run_bind.
    destruct (pipeline srv a w) as [[d|e] w1] eqn:Hpipe.
    - pose proof (pipeline_returns _ _ _ _ _ Hpipe) as ->.
      apply touches_pipeline in Hpipe. intros Hrest.
      eapply unchanged_outside_trans; [exact Hpipe|].
      assert (Hrest' : every_run (unchanged_outside (run_path a))
                         (cleanup (tile_dir a) ≫= λ _, sign_out));
        [|exact (Hrest' _ _ _ Hrest)].
      apply every_run_bind; [apply unchanged_outside_trans| |intros _].
      + apply touches_cleanup.
        * right; left. now apply prefix_app_r.
        * intros n. right; left. unfold tile_dir, os_path_join.
          rewrite <- app_assoc. now apply prefix_app_r.
      + apply touches_modify. reflexivity.
    - intros [= <- <-]. now apply touches_pipeline in Hpipe. }
  split; [intros p _; apply Hmain|].
  intros other p _ Hother _ [k ->]. apply Hmain.
  unfold run_path, scratch_dir, output_dir, img_export, ppt_location, os_path_join.
  intros [E|[[k' E]|[k' E]]].
  - discriminate E.
  - cbn in E. injection E as E _. congruence.
  - destruct (export_type a); discriminate E.
Qed.

Lemma run_touches_its_own_paths_witness :
  let w := initial_world (<[["img"; "77aa"; "Overview.png"] := File (Png 10 10)]> ∅) in
  let run := main ex_server (ex_args ex_config ppt) w in
  (∀ p, plain_path p = true → ¬ run_path (ex_args ex_config ppt) p →
        fs run.2 !! p = fs w !! p)
  ∧ (∀ other p, dir_name other = true → other ≠ export_id (ex_args ex_config ppt) →
                plain_path p = true →
                os_path_join img_export other `prefix_of` p →
                fs run.2 !! p = fs w !! p).
Proof.
  apply (run_touches_its_own_paths ex_server (ex_args ex_config ppt)
           (initial_world (<[["img"; "77aa"; "Overview.png"] := File (Png 10 10)]> ∅))
           (main ex_server (ex_args ex_config ppt)
              (initial_world (<[["img"; "77aa"; "Overview.png"] := File (Png 10 10)]> ∅))).1).
  - reflexivity.
  - vm_compute. reflexivity.
Defined.

(** X19.  A run whose configuration names no view of the workbook does not
    go through, when the identifier of the run names a directory, the name
    of the workbook is a file name and the texts of the title are
    printable.  It signs in, asks the server for nothing, makes the scratch
    directory but not the tile directory, writes a document that has its
    title and no image, and then raises [FileNotFoundError] when the
    clean-up step lists the tile directory: it ends signed in. *)
Theorem run_without_requested_view (srv : server) (a : args) (f : gmap path node)
    (workbook_name project_name : string) (ppt_slides : list string)
    (filters : filters_value) (wb : workbook) :
  accepts_token srv = true →
  config_file a = Parsed (JObject (Config (Some workbook_name) (Some project_name)
                                          (Some ppt_slides) (Some filters))) →
  matching_workbooks srv workbook_name project_name = [wb] →
  exported ppt_slides (wb_views wb) = [] →
  dir_name (export_id a) = true →
  file_name workbook_name = true →
  printable project_name = true →
  printable (now a) = true →
  (f !! img_export = None ∨ f !! img_export = Some Dir) →
  (∀ p, scratch_dir a `prefix_of` p → f !! p = None) →
  (f !! output_dir a = None ∨ f !! output_dir a = Some Dir) →
  f !! (output_dir a ++ [output_file a workbook_name]) ≠ Some Dir →
  ∃ w', main srv a (initial_world f) = (Raise FileNotFoundError, w')
        ∧ trace w' = [SignIn] ∧ signed_in w' = true
        ∧ img_indexing w' = []
        ∧ (∃ c, fs w' !! (output_dir a ++ [output_file a workbook_name]) = Some (File c)
                ∧ document_images c = [None])
        ∧ fs w' !! scratch_dir a = Some Dir
        ∧ fs w' !! tile_dir a = None.
Proof.
  intros Htoken Hconfig Hwb Hnone _ Hwname Hpname Hnow Himg Hscratch Hodir Hofile.
  set (D := scratch_dir a) in *. set (T := tile_dir a). set (O := output_dir a) in *.
  set (w0 := emit SignIn (set_signed_in true (initial_world f))).
  (* the scratch directory *)
  destruct (run_makedirs D w0) as (f1 & Hmk1 & Hin1 & Hout1).
  { unfold D. rewrite prefixes_scratch_dir.
    intros q [->|[->|[]%not_elem_of_nil]%elem_of_cons]%elem_of_cons.
    - exact Himg.
    - left. now apply Hscratch. }
  assert (HD1 : f1 !! D = Some Dir).
  { apply Hin1. unfold D. rewrite prefixes_scratch_dir, !elem_of_cons. auto. }
  assert (Hunder1 : ∀ p, D `prefix_of` p → p ≠ D → f1 !! p = None).
  { intros p Hp Hne. rewrite Hout1; [now apply Hscratch|].
    unfold D. rewrite prefixes_scratch_dir.
    intros [->|[E|[]%not_elem_of_nil]%elem_of_cons]%elem_of_cons.
    - apply prefix_length in Hp. cbn in Hp. lia.
    - contradiction. }
  (* no view is exported *)
  destruct (export_images_spec wb (get_image_export filters) D ppt_slides
              (set_fs (λ _, f1) w0)) as (w3 & Hexp & Hi3 & Ht3 & Hs3 & Hw3 & _).
  { now apply is_dir_Some. }
  { intros n. cbn [fs set_fs]. rewrite Hunder1; [discriminate|now apply prefix_app_r|].
    apply not_eq_sym, join_ne_self. }
  { intros v Hv Hreq. exfalso.
    assert (Hx : view_name v ∈ exported ppt_slides (wb_views wb)).
    { unfold exported. apply list_elem_of_filter. split; [exact Hreq|].
      apply list_elem_of_fmap. eauto. }
    rewrite Hnone in Hx. now apply not_elem_of_nil in Hx. }
  rewrite Hnone in Hi3, Ht3.
  cbn [fs set_fs img_indexing trace signed_in w0 emit set_signed_in initial_world
       app map render_calls flat_map] in Hi3, Ht3, Hs3, Hw3.
  (* no image is split *)
  destruct (generate_slide_imgs_spec D w3) as (w4 & Hgen & Hi4 & Ht4 & Hs4 & Hsame & _ & _).
  { rewrite Hi3. intros n Hn. now apply not_elem_of_nil in Hn. }
  { intros q Hq. rewrite (proj1 Hw3).
    - now apply Hin1.
    - intros n ->. now apply join_not_prefix in Hq. }
  { destruct (proj2 Hw3 "slide_imgs") as [->|(c & _ & Hc)].
    - apply Hunder1; [now apply prefix_app_r|apply not_eq_sym, join_ne_self].
    - now apply exported_file_not_slide_imgs in Hc. }
  { intros n. rewrite (proj1 Hw3) by (intros m; apply not_eq_sym, join_join_ne).
    apply Hunder1.
    - rewrite <- app_assoc. now apply prefix_app_r.
    - rewrite <- app_assoc. intros E. apply (f_equal length) in E.
      rewrite length_app in E. cbn in E. lia. }
  specialize (Hsame Hi3). rewrite Hi3 in Hi4. cbn in Hi4.
  assert (HT4 : fs w4 !! (D ++ ["slide_imgs"]) = None).
  { rewrite Hsame. destruct (proj2 Hw3 "slide_imgs") as [->|(c & _ & Hc)].
    - apply Hunder1; [now apply prefix_app_r|apply not_eq_sym, join_ne_self].
    - now apply exported_file_not_slide_imgs in Hc. }
  change (D ++ ["slide_imgs"]) with T in *.
  assert (HD4 : fs w4 !! D = Some Dir).
  { rewrite Hsame, (proj1 Hw3); [exact HD1|]. intros n. apply join_ne_self. }
  (* the document *)
  assert (Hout4 : ∀ p, O `prefix_of` p → fs w4 !! p = f !! p).
  { intros p Hp. destruct (output_not_scratch a p Hp) as (H1 & H2 & _ & _).
    rewrite Hsame, (proj1 Hw3), Hout1 by assumption. reflexivity. }
  destruct (write_document a workbook_name project_name T w4)
    as (c & f6 & Hdoc & Hc6 & Himgs & _ & Hrest6).
  { now apply file_name_latin_1. }
  { now apply printable_latin_1. }
  { now apply printable_latin_1. }
  { rewrite Hi4. intros n Hn. now apply not_elem_of_nil in Hn. }
  { now rewrite Hout4. }
  { rewrite Hout4 by now apply prefix_app_r. assumption. }
  { intros n E. destruct (output_not_scratch a O) as (_ & _ & _ & H4); [reflexivity|].
    now apply (H4 n). }
  rewrite Hi4 in Himgs. cbn [map] in Himgs.
  assert (Hkeep6 : ∀ p, D `prefix_of` p → f6 !! p = fs w4 !! p).
  { intros p Hp. apply Hrest6; intros ->; apply (scratch_not_output a _ Hp);
      [reflexivity|now apply prefix_app_r]. }
  assert (HT6 : f6 !! T = None).
  { rewrite Hkeep6; [exact HT4|]. now apply prefix_app_r. }
  exists (set_fs (λ _, f6) w4). split.
  { unfold main. eapply run_bind_intro.
    { unfold pipeline.
      eapply run_bind_intro;
        [unfold connect_tableau; rewrite Htoken; reflexivity|]. fold w0.
      rewrite Hconfig. cbn [load_config].
      eapply run_bind_intro; [reflexivity|].
      eapply run_bind_intro; [reflexivity|].
      eapply run_bind_intro; [reflexivity|].
      eapply run_bind_intro; [reflexivity|].
      eapply run_bind_intro;
        [unfold lift; rewrite get_workbook_cases, Hwb; reflexivity|].
      eapply run_bind_intro; [reflexivity|]. cbv zeta.
      eapply run_bind_intro; [exact Hmk1|].
      eapply run_bind_intro; [exact Hexp|].
      eapply run_bind_intro; [exact Hgen|].
      eapply run_bind_intro; [exact Hdoc|]. reflexivity. }
    apply run_bind_raise. unfold cleanup. apply run_bind_raise.
    unfold listdir, is_dir. cbn [fs set_fs]. rewrite HT6.
    unfold T, tile_dir, os_path_join. destruct (scratch_dir a ++ ["slide_imgs"]) eqn:E;
      [now destruct (scratch_dir a)|reflexivity]. }
  cbn [fs set_fs img_indexing trace signed_in].
  split_and!.
  - now rewrite Ht4, Ht3.
  - now rewrite Hs4, Hs3.
  - exact Hi4.
  - exists c. split; assumption.
  - rewrite Hkeep6; [exact HD4|reflexivity].
  - exact HT6.
Qed.

Lemma run_without_requested_view_witness :
  ∃ w', main ex_server (ex_args ex_config_no_view pdf) (initial_world ∅)
        = (Raise FileNotFoundError, w')
        ∧ trace w' = [SignIn] ∧ signed_in w' = true
        ∧ img_indexing w' = []
        ∧ (∃ c, fs w' !! (output_dir (ex_args ex_config_no_view pdf)
                           ++ [output_file (ex_args ex_config_no_view pdf) "Sales"])
                = Some (File c)
                ∧ document_images c = [None])
        ∧ fs w' !! scratch_dir (ex_args ex_config_no_view pdf) = Some Dir
        ∧ fs w' !! tile_dir (ex_args ex_config_no_view pdf) = None.
Proof.
  apply (run_without_requested_view ex_server (ex_args ex_config_no_view pdf) ∅
           "Sales" "Prod" ["Summary"] FiltersNull ex_workbook).
  - reflexivity.
  - reflexivity.
  - reflexivity.
  - reflexivity.
  - reflexivity.
  - reflexivity.
  - reflexivity.
  - reflexivity.
  - now left.
  - intros p _. apply lookup_empty.
  - left. apply lookup_empty.
  - rewrite lookup_empty. discriminate.
Defined.

End RunFurther.

(** ** The replication of permissions: groups, rules and server calls *)

Section ReplicationFurther.
Import ReplicatePermissions.

Lemma startswith_app (s p : string) :
  startswith s p = true → ∃ rest, s = p +:+ rest.
Proof.
  unfold startswith. revert s. induction p as [|c p IH]; intros s.
  - intros _. exists s. reflexivity.
  - destruct s as [|c' s]; cbn [String.prefix]; [discriminate|].
    destruct (ascii_dec c c') as [<-|]; [|discriminate].
    intros [rest ->]%IH. exists rest. reflexivity.
Qed.

Lemma replace_prod (rest : string) :
  replace ("prod" +:+ rest) "prod" "dev" = "dev" +:+ replace rest "prod" "dev".
Proof. destruct rest; reflexivity. Qed.

Lemma not_prod_dev (rest : string) : startswith ("dev" +:+ rest) "prod" = false.
Proof. reflexivity. Qed.

(** What [get_dev_group] finds. *)
Lemma get_dev_group_spec (group : GroupItem) (group_index : dict GroupItem)
    (dev_group : GroupItem) :
  get_dev_group group group_index = Some dev_group →
  dev_group ∈ values group_index
  ∧ lower (name dev_group) = dev_name group
  ∧ check_prod_group dev_group = false
  ∧ (check_prod_group group = true →
     ∃ rest, lower (name group) = "prod" +:+ rest
             ∧ lower (name dev_group) = "dev" +:+ replace rest "prod" "dev").
Proof.
  unfold get_dev_group. intros Hfind. apply find_some in Hfind as [Hin Hname].
  apply bool_decide_eq_true in Hname. fold (dev_name group) in Hname.
  assert (Hprod : check_prod_group group = true →
            ∃ rest, lower (name group) = "prod" +:+ rest
                    ∧ dev_name group = "dev" +:+ replace rest "prod" "dev").
  { unfold check_prod_group, dev_name.
    destruct (startswith (lower (name group)) "prod") eqn:Hs; [|discriminate].
    intros _. destruct (startswith_app _ _ Hs) as [rest E]. exists rest.
    split; [exact E|]. rewrite E. apply replace_prod. }
  split_and!.
  - now apply list_elem_of_In.
  - exact Hname.
  - unfold check_prod_group in *. rewrite Hname. cbv zeta in *.
    destruct (startswith (lower (name group)) "prod") eqn:Hg.
    + destruct (Hprod eq_refl) as (rest & _ & ->). now rewrite not_prod_dev.
    + unfold dev_name. now rewrite Hg, Hg.
  - intros Hg. destruct (Hprod Hg) as (rest & E & E'). exists rest. now rewrite Hname.
Qed.

(** X20.  The group [get_dev_group] finds is a group of the index whose
    name, in lower case, is the name it looks for, and it is never a
    production group.  For a production group the name it looks for is the
    name in lower case with "dev" in place of the leading "prod" and of
    every later "prod" as well. *)
Theorem dev_group_is_no_production_group (group : GroupItem)
    (group_index : dict GroupItem) (dev_group : GroupItem) :
  get_dev_group group group_index = Some dev_group →
  dev_group ∈ values group_index
  ∧ lower (name dev_group) = dev_name group
  ∧ check_prod_group dev_group = false
  ∧ (check_prod_group group = true →
     ∃ rest, lower (name group) = "prod" +:+ rest
             ∧ lower (name dev_group) = "dev" +:+ replace rest "prod" "dev").
Proof. apply get_dev_group_spec. Qed.

Lemma dev_group_is_no_production_group_witness :
  let idx := index_by group_id ex_groups in
  Group "g2" "DEV-sales" ∈ values idx
  ∧ lower "DEV-sales" = dev_name (Group "g1" "Prod-Sales")
  ∧ check_prod_group (Group "g2" "DEV-sales") = false
  ∧ (check_prod_group (Group "g1" "Prod-Sales") = true →
     ∃ rest, lower "Prod-Sales" = "prod" +:+ rest
             ∧ lower "DEV-sales" = "dev" +:+ replace rest "prod" "dev").
Proof.
  apply (dev_group_is_no_production_group (Group "g1" "Prod-Sales")
           (index_by group_id ex_groups) (Group "g2" "DEV-sales")).
  reflexivity.
Defined.

Lemma prod_rule_app (groups : dict GroupItem) (l1 l2 : list PermissionsRule) :
  List.filter (prod_rule groups) (l1 ++ l2)
  = List.filter (prod_rule groups) l1 ++ List.filter (prod_rule groups) l2.
Proof. apply List.filter_app. Qed.

Lemma get_prod_permissions_world (project : ProjectItem) (groups : dict GroupItem)
    (w : world) (r : result (list PermissionsRule)) (w' : world) :
  get_prod_permissions project groups w = (r, w') → w' = w.
Proof.
  intros Hrun. unfold get_prod_permissions in Hrun.
  assert (H : match r with Ok _ => w' = w | Raise _ => w' = w end); [|now destruct r].
  refine (for_fold_ind (λ _ _ w1, w1 = w) (λ w1, w1 = w) _ _ _ _ _ _ _ _ Hrun);
    [reflexivity|].
  intros done p rest acc w1 r1 w1' _ ->.
  destruct (negb _); [now intros [= <- <-]|].
  rewrite run_bind. unfold lift at 1. destruct (getitem _ _) as [g|e]; [|now intros [= <- <-]].
  destruct (check_prod_group g); now intros [= <- <-].
Qed.

(** What [get_prod_permissions] returns, and where it raises. *)
Lemma get_prod_permissions_run (project : ProjectItem) (groups : dict GroupItem)
    (w : world) (r : result (list PermissionsRule)) (w' : world) :
  get_prod_permissions project groups w = (r, w') →
  w' = w
  ∧ match r with
    | Ok prod_permissions =>
        prod_permissions = List.filter (prod_rule groups) (permissions project)
        ∧ ∀ p, p ∈ permissions project → group_rule p = true →
               is_Some (lookup_key groups (grantee_id (perm_grantee p)))
    | Raise e =>
        ∃ done p rest,
          permissions project = done ++ p :: rest
          ∧ group_rule p = true
          ∧ lookup_key groups (grantee_id (perm_grantee p)) = None
          ∧ e = KeyError (grantee_id (perm_grantee p))
          ∧ ∀ q, q ∈ done → group_rule q = true →
                 is_Some (lookup_key groups (grantee_id (perm_grantee q)))
    end.
Proof.
  intros Hrun. unfold get_prod_permissions in Hrun.
  set (known := λ l : list PermissionsRule,
         ∀ p, p ∈ l → group_rule p = true →
              is_Some (lookup_key groups (grantee_id (perm_grantee p)))).
  set (I := λ (done : list PermissionsRule) (acc : list PermissionsRule) (w1 : world),
         w1 = w ∧ acc = List.filter (prod_rule groups) done ∧ known done).
  set (R := λ (e : exn) (w1 : world),
         w1 = w ∧ ∃ done p rest,
           permissions project = done ++ p :: rest ∧ group_rule p = true
           ∧ lookup_key groups (grantee_id (perm_grantee p)) = None
           ∧ e = KeyError (grantee_id (perm_grantee p)) ∧ known done).
  assert (H : match r with Ok acc => I (permissions project) acc w' | Raise e => R e w' end);
    [refine (for_fold_ind_exn I R _ _ _ _ _ _ _ _ Hrun)|].
  - split_and!; [reflexivity..|]. intros p Hp. now apply not_elem_of_nil in Hp.
  - unfold I, R, known. intros done p rest acc w1 r1 w1' Hl (-> & -> & Hknown).
    rewrite prod_rule_app. cbn [List.filter].
    destruct (decide (tag_name (perm_grantee p) = "group")) as [Htag|Htag].
    2:{ rewrite (bool_decide_eq_false_2 _ Htag). cbn [negb]. intros [= <- <-].
        assert (Hp : prod_rule groups p = false).
        { unfold prod_rule, group_rule. now rewrite (bool_decide_eq_false_2 _ Htag). }
        rewrite Hp, app_nil_r. split_and!; [reflexivity..|].
        intros q [Hq| ->%list_elem_of_singleton]%elem_of_app; [auto|].
        unfold group_rule. rewrite (bool_decide_eq_false_2 _ Htag). discriminate. }
    rewrite (bool_decide_eq_true_2 _ Htag). cbn [negb].
    rewrite run_bind. unfold lift at 1, getitem.
    destruct (lookup_key groups (grantee_id (perm_grantee p))) as [g|] eqn:Hg.
    + assert (Hknown' : ∀ q, q ∈ done ++ [p] → group_rule q = true →
                is_Some (lookup_key groups (grantee_id (perm_grantee q)))).
      { intros q [Hq| ->%list_elem_of_singleton]%elem_of_app; [auto|]. rewrite Hg. eauto. }
      assert (Hp : prod_rule groups p = check_prod_group g).
      { unfold prod_rule, group_rule. now rewrite (bool_decide_eq_true_2 _ Htag), Hg. }
      rewrite Hp. destruct (check_prod_group g); intros [= <- <-];
        (split_and!; [reflexivity| |exact Hknown']); [reflexivity|now rewrite app_nil_r].
    + intros [= <- <-]. split; [reflexivity|]. exists done, p, rest.
      split_and!; auto. unfold group_rule. now apply bool_decide_eq_true.
  - unfold I, R, known in H. destruct r as [acc|e].
    + destruct H as (-> & -> & Hknown). auto.
    + destruct H as (-> & done & p & rest & H). split; [reflexivity|].
      exists done, p, rest. exact H.
Qed.

(** X21.  [get_prod_permissions] returns the rules of the project whose
    grantee is a group that the index knows as a production group, in the
    order of the project; rules for users are passed over without a look at
    the index.  It raises [KeyError] for the first rule whose grantee
    is a group the index does not have, and it changes nothing. *)
Theorem get_prod_permissions_selects (project : ProjectItem) (groups : dict GroupItem)
    (w : world) (r : result (list PermissionsRule)) (w' : world) :
  get_prod_permissions project groups w = (r, w') →
  w' = w
  ∧ match r with
    | Ok prod_permissions =>
        prod_permissions = List.filter (prod_rule groups) (permissions project)
        ∧ ∀ p, p ∈ permissions project → group_rule p = true →
               is_Some (lookup_key groups (grantee_id (perm_grantee p)))
    | Raise e =>
        ∃ done p rest,
          permissions project = done ++ p :: rest
          ∧ group_rule p = true
          ∧ lookup_key groups (grantee_id (perm_grantee p)) = None
          ∧ e = KeyError (grantee_id (perm_grantee p))
          ∧ ∀ q, q ∈ done → group_rule q = true →
                 is_Some (lookup_key groups (grantee_id (perm_grantee q)))
    end.
Proof. apply get_prod_permissions_run. Qed.

Lemma get_prod_permissions_selects_witness :
  let run := get_prod_permissions ex_project (index_by group_id ex_groups) ex_world in
  run.2 = ex_world
  ∧ match run.1 with
    | Ok prod_permissions =>
        prod_permissions
        = List.filter (prod_rule (index_by group_id ex_groups)) (permissions ex_project)
        ∧ ∀ p, p ∈ permissions ex_project → group_rule p = true →
               is_Some (lookup_key (index_by group_id ex_groups)
                          (grantee_id (perm_grantee p)))
    | Raise e =>
        ∃ done p rest,
          permissions ex_project = done ++ p :: rest
          ∧ group_rule p = true
          ∧ lookup_key (index_by group_id ex_groups) (grantee_id (perm_grantee p)) = None
          ∧ e = KeyError (grantee_id (perm_grantee p))
          ∧ ∀ q, q ∈ done → group_rule q = true →
                 is_Some (lookup_key (index_by group_id ex_groups)
                            (grantee_id (perm_grantee q)))
    end.
Proof.
  apply (get_prod_permissions_selects ex_project (index_by group_id ex_groups) ex_world).
  vm_compute. reflexivity.
Defined.

Lemma lookup_key_setitem {V} (d : dict V) (k k' : string) (v : V) :
  lookup_key (setitem d k v) k' = if decide (k' = k) then Some v else lookup_key d k'.
Proof.
  unfold lookup_key. induction d as [|[k0 v0] d IH]; cbn [setitem List.find].
  - cbn [fst]. destruct (decide (k' = k)) as [->|Hne].
    + now rewrite bool_decide_eq_true_2.
    + rewrite bool_decide_eq_false_2 by congruence. reflexivity.
  - destruct (decide (k0 = k)) as [->|Hk0]; cbn [List.find fst].
    + destruct (decide (k' = k)) as [->|Hne].
      * now rewrite bool_decide_eq_true_2.
      * rewrite !bool_decide_eq_false_2 by congruence. reflexivity.
    + destruct (decide (k0 = k')) as [->|Hk0'].
      * rewrite bool_decide_eq_true_2 by reflexivity.
        now rewrite decide_False by congruence.
      * rewrite bool_decide_eq_false_2 by assumption. exact IH.
Qed.

Lemma setitem_new {V} (d : dict V) (k : string) (v : V) :
  k ∉ map fst d → setitem d k v = d ++ [(k, v)].
Proof.
  induction d as [|[k0 v0] d IH]; cbn [setitem map fst app]; [reflexivity|].
  intros Hk. apply not_elem_of_cons in Hk as [Hne Hk].
  rewrite decide_False by congruence. now rewrite IH.
Qed.

Lemma index_by_snoc {V} (key : V → string) (l : list V) (x : V) :
  index_by key (l ++ [x]) = setitem (index_by key l) (key x) x.
Proof. unfold index_by. now rewrite foldl_app. Qed.

Lemma lookup_key_index_by {V} (key : V → string) (l : list V) (k : string) :
  lookup_key (index_by key l) k = last (filter (λ x, key x = k) l).
Proof.
  induction l as [|x l IH] using rev_ind; [reflexivity|].
  rewrite index_by_snoc, lookup_key_setitem, filter_app.
  destruct (decide (k = key x)) as [->|Hne].
  - rewrite filter_cons_True, filter_nil by reflexivity. now rewrite last_snoc.
  - rewrite filter_cons_False, filter_nil, app_nil_r by congruence. exact IH.
Qed.

Lemma keys_index_by {V} (key : V → string) (l : list V) (k : string) :
  k ∈ map fst (index_by key l) → k ∈ map key l.
Proof.
  intros Hk. apply list_elem_of_fmap in Hk as ([k0 v] & -> & Hin). cbn [fst].
  assert (Hl : is_Some (lookup_key (index_by key l) k0)).
  { unfold lookup_key. destruct (List.find _ _) as [kv|] eqn:E; [now eexists|].
    exfalso. apply list_elem_of_In in Hin.
    apply (find_none _ _ E) in Hin. cbn [fst] in Hin.
    now rewrite bool_decide_eq_true_2 in Hin. }
  rewrite lookup_key_index_by in Hl. destruct Hl as [x Hx].
  apply last_Some_elem_of, list_elem_of_filter in Hx as [<- Hx].
  apply list_elem_of_fmap. eauto.
Qed.

Lemma values_index_by {V} (key : V → string) (l : list V) :
  NoDup (map key l) → values (index_by key l) = l.
Proof.
  induction l as [|x l IH] using rev_ind; [reflexivity|].
  rewrite map_app, NoDup_app. intros (Hnd & Hnew & _).
  rewrite index_by_snoc, setitem_new.
  - unfold values in *. rewrite map_app, IH by assumption. reflexivity.
  - intros Hk%keys_index_by. apply (Hnew _ Hk). now left.
Qed.

Lemma run_index_by {V} (key : V → string) (l : list V) (w : world) :
  for_fold l (λ d x, mret (setitem d (key x) x)) [] w = (Ok (index_by key l), w).
Proof.
  unfold index_by. generalize (@nil (string * V)).
  induction l as [|x l IH]; intros d; cbn [for_fold foldl]; [reflexivity|].
  eapply run_bind_intro; [reflexivity|]. apply IH.
Qed.

(** X22.  The two functions that list the groups and the projects return an
    index by id: an id is mapped to the last item of the server's list that
    has it, an id that no item has is not a key, and when the ids are all
    different the values of the index are the list, in its order. *)
Theorem items_are_indexed_by_id (srv : server) (w : world) :
  match groups_get srv with
  | Some all_groups =>
      ∃ groups, get_all_groups srv w = (Ok groups, w)
        ∧ (∀ k, lookup_key groups k = last (filter (λ g, group_id g = k) all_groups))
        ∧ (NoDup (map group_id all_groups) → values groups = all_groups)
  | None => get_all_groups srv w = (Raise ServerResponseError, w)
  end
  ∧ match projects_get srv with
    | Some all_projects =>
        ∃ projects, get_projects srv w = (Ok projects, w)
          ∧ (∀ k, lookup_key projects k
                  = last (filter (λ p, project_id p = k) all_projects))
          ∧ (NoDup (map project_id all_projects) → values projects = all_projects)
    | None => get_projects srv w = (Raise ServerResponseError, w)
    end.
Proof.
  unfold get_all_groups, get_projects. split.
  - destruct (groups_get srv) as [all_groups|]; [|reflexivity].
    exists (index_by group_id all_groups). split_and!.
    + apply run_index_by.
    + apply lookup_key_index_by.
    + apply values_index_by.
  - destruct (projects_get srv) as [all_projects|]; [|reflexivity].
    exists (index_by project_id all_projects). split_and!.
    + apply run_index_by.
    + apply lookup_key_index_by.
    + apply values_index_by.
Qed.

Lemma server_call_inv (srv : server) (c : call) (w : world) (r : result unit) (w' : world) :
  server_call srv c w = (r, w') →
  signed_in w' = signed_in w
  ∧ trace w' = trace w ++ [c]
  ∧ match r with Ok _ => True | Raise e => e = ServerResponseError end.
Proof.
  unfold server_call. cbv zeta.
  destruct (accepts_call srv (trace w) c); intros [= <- <-]; auto.
Qed.

(** The calls of [apply_permissions], whatever its outcome. *)
Lemma apply_permissions_run (srv : server) (project : ProjectItem)
    (dev_group : GroupItem) (permission : PermissionsRule)
    (w : world) (r : result unit) (w' : world) :
  apply_permissions srv project dev_group permission w = (r, w') →
  ∃ sent, trace w' = trace w ++ sent
          ∧ sent `prefix_of` updates project dev_group permission
          ∧ match r with
            | Ok _ => sent = updates project dev_group permission
            | Raise e => e = ServerResponseError ∧ sent ≠ []
            end.
Proof.
  unfold apply_permissions, get_permission_rule. cbv zeta. rewrite run_bind.
  destruct (server_call srv _ w) as [[[]|e] w1] eqn:H1;
    apply server_call_inv in H1 as (_ & H1 & He1).
  2:{ intros [= <- <-]. eexists [_]. split; [exact H1|]. split; [now eexists|].
      split; [exact He1|discriminate]. }
  rewrite run_bind.
  destruct (server_call srv _ w1) as [[[]|e] w2] eqn:H2;
    apply server_call_inv in H2 as (_ & H2 & He2).
  2:{ intros [= <- <-]. eexists [_; _].
      split; [rewrite H2, H1, <- app_assoc; reflexivity|]. split; [now eexists|].
      split; [exact He2|discriminate]. }
  intros H3. apply server_call_inv in H3 as (_ & H3 & He3).
  eexists. split; [rewrite H3, H2, H1, <- !app_assoc; reflexivity|].
  split; [reflexivity|]. destruct r as [[]|e]; [reflexivity|].
  split; [exact He3|discriminate].
Qed.

(** X23.  [apply_permissions] sends three updates for the development
    group, in this order: the rule of the project with the capabilities of
    the production group's rule, then the default rules for workbooks and
    for data sources with the capabilities of the production group's
    default rules in this project (none when it has no such rule).  It
    stops at the first update that fails: the updates made are then the
    first ones of the three, the failed one the last of them. *)
Theorem apply_permissions_calls (srv : server) (project : ProjectItem)
    (dev_group : GroupItem) (permission : PermissionsRule)
    (w : world) (r : result unit) (w' : world) :
  apply_permissions srv project dev_group permission w = (r, w') →
  ∃ sent, trace w' = trace w ++ sent
          ∧ sent `prefix_of` updates project dev_group permission
          ∧ match r with
            | Ok _ => sent = updates project dev_group permission
            | Raise e => e = ServerResponseError ∧ sent ≠ []
            end.
Proof. apply apply_permissions_run. Qed.

Lemma apply_permissions_calls_witness :
  let run := apply_permissions ex_server ex_project (Group "g2" "DEV-sales")
               (Rule (Grantee "group" "g1") [("Read", "Allow")]) ex_world in
  ∃ sent, trace run.2 = trace ex_world ++ sent
          ∧ sent `prefix_of` updates ex_project (Group "g2" "DEV-sales")
                               (Rule (Grantee "group" "g1") [("Read", "Allow")])
          ∧ sent = updates ex_project (Group "g2" "DEV-sales")
                     (Rule (Grantee "group" "g1") [("Read", "Allow")]).
Proof.
  apply (apply_permissions_calls ex_server ex_project (Group "g2" "DEV-sales")
           (Rule (Grantee "group" "g1") [("Read", "Allow")]) ex_world (Ok tt)).
  vm_compute. reflexivity.
Defined.

Lemma updates_only_refl (P : call → Prop) (w : world) : calls_only P w w.
Proof. exists []. split; [now rewrite app_nil_r|constructor]. Qed.

Lemma updates_only_trans (P : call → Prop) (w1 w2 w3 : world) :
  calls_only P w1 w2 → calls_only P w2 w3 → calls_only P w1 w3.
Proof.
  intros (c1 & Ht1 & H1) (c2 & Ht2 & H2). exists (c1 ++ c2).
  split; [now rewrite Ht2, Ht1, app_assoc|now apply Forall_app].
Qed.

Lemma updates_only_server_call (P : call → Prop) (srv : server) (c : call) :
  P c → every_run (calls_only P) (server_call srv c).
Proof.
  intros HP w r w' H. apply server_call_inv in H as (_ & H & _).
  exists [c]. split; [exact H|now repeat constructor].
Qed.

Lemma updates_only_for_calls {A} (P : call → Prop) (l : list A) (body : A → M ending) :
  (∀ x, every_run (calls_only P) (body x)) → every_run (calls_only P) (for_calls l body).
Proof.
  intros Hbody. induction l as [|x l IH]; cbn [for_calls].
  - apply every_run_ret, updates_only_refl.
  - apply every_run_bind; [apply updates_only_trans|apply Hbody|].
    intros [|]; [exact IH|apply every_run_ret, updates_only_refl].
Qed.

Lemma updates_only_rounds (P : call → Prop) (srv : server) (project : ProjectItem)
    (groups : dict GroupItem) :
  (∀ group dev_group permission, get_dev_group group groups = Some dev_group →
     every_run (calls_only P) (apply_permissions srv project dev_group permission)) →
  ∀ valid_permisssions group_name,
    every_run (calls_only P) (rounds srv project groups group_name valid_permisssions).
Proof.
  intros Happly valid_permisssions.
  induction valid_permisssions as [|permission rest IH]; intros group_name; cbn [rounds].
  - apply every_run_ret, updates_only_refl.
  - destruct (getitem groups _) as [group|err].
    + cbv zeta. apply every_run_bind; [apply updates_only_trans| |intros _; apply IH].
      apply every_run_try_except; [apply updates_only_trans| |];
        [|intros e; apply every_run_raise, updates_only_refl].
      apply every_run_bind; [apply updates_only_trans| |intros group'].
      { apply every_run_lift, updates_only_refl. }
      destruct (get_dev_group group' groups) as [dev_group|] eqn:Hdev;
        [eapply Happly, Hdev|apply every_run_ret, updates_only_refl].
    + unfold handler.
      destruct group_name; [apply every_run_raise|apply every_run_ret];
        apply updates_only_refl.
Qed.

(** X24.  The script never changes the rules of a production group: from
    sign-in to the end, whatever the outcome, every update the script sends
    is for a group that is not a production group. *)
Theorem production_groups_are_never_updated (srv : server)
    (w : world) (r : result ending) (w' : world) :
  main srv w = (r, w') →
  calls_only (λ c, ∀ g, g ∈ updated_groups c → check_prod_group g = false) w w'.
Proof.
  set (P := λ c, ∀ g, g ∈ updated_groups c → check_prod_group g = false).
  revert w r w'. change (every_run (calls_only P) (main srv)).
  assert (Hnone : ∀ c, updated_groups c = [] → P c).
  { intros c E g Hg. rewrite E in Hg. now apply not_elem_of_nil in Hg. }
  assert (Hone : ∀ c g, updated_groups c = [g] → check_prod_group g = false → P c).
  { intros c g E Hg g' Hg'. rewrite E in Hg'. now apply list_elem_of_singleton in Hg' as ->. }
  assert (Hindex : ∀ V (key : V → string) (l : list V),
            every_run (calls_only P)
              (for_fold l (λ d x, mret (setitem d (key x) x)) [])).
  { intros V key l w r w' H. rewrite run_index_by in H. injection H as <- <-.
    apply updates_only_refl. }
  unfold main.
  apply every_run_bind; [apply updates_only_trans| |intros _].
  { intros w r w'. unfold connect_tableau.
    destruct (accepts_token srv); intros [= <- <-]; [|apply updates_only_refl].
    exists [SignedIn]. split; [reflexivity|]. repeat constructor. now apply Hnone. }
  apply every_run_bind; [apply updates_only_trans| |intros all_projects].
  { unfold get_projects. destruct (projects_get srv);
      [apply Hindex|apply every_run_raise, updates_only_refl]. }
  apply every_run_bind; [apply updates_only_trans| |intros all_groups].
  { unfold get_all_groups. destruct (groups_get srv);
      [apply Hindex|apply every_run_raise, updates_only_refl]. }
  unfold init_replicate.
  apply every_run_bind; [apply updates_only_trans| |intros _].
  { apply every_run_for_each; [apply updates_only_refl|apply updates_only_trans|].
    intros [project_id_ project].
    repeat (apply every_run_bind; [apply updates_only_trans| |intros _]);
      apply updates_only_server_call; now apply Hnone. }
  apply updates_only_for_calls. intros [project_id_ project].
  apply every_run_bind; [apply updates_only_trans| |intros valid_permisssions].
  { intros w r w' H. apply get_prod_permissions_world in H as ->. apply updates_only_refl. }
  destruct (length valid_permisssions =? 0)%nat; [apply every_run_ret, updates_only_refl|].
  unfold replicate_dev_permissions. cbv zeta. apply updates_only_rounds.
  intros group dev_group permission Hdev.
  apply get_dev_group_spec in Hdev as (_ & _ & Hdev & _).
  unfold apply_permissions. cbv zeta.
  repeat (apply every_run_bind; [apply updates_only_trans| |intros _]);
    apply updates_only_server_call; now apply (Hone _ dev_group).
Qed.

Lemma production_groups_are_never_updated_witness :
  calls_only (λ c, ∀ g, g ∈ updated_groups c → check_prod_group g = false)
    ex_world (main ex_server ex_world).2.
Proof.
  apply (production_groups_are_never_updated ex_server ex_world (main ex_server ex_world).1).
  vm_compute. reflexivity.
Defined.

(** One round of the loop of [replicate_dev_permissions] for a rule whose
    group is in the index. *)
Lemma replicate_round (srv : server) (project : ProjectItem) (groups : dict GroupItem)
    (permission : PermissionsRule) (group : GroupItem)
    (w : world) (r : result unit) (w' : world) :
  lookup_key groups (grantee_id (perm_grantee permission)) = Some group →
  try_except
    (group ← lift (getitem groups (grantee_id (perm_grantee permission)));
     match get_dev_group group groups with
     | None => mret tt
     | Some dev_group => apply_permissions srv project dev_group permission
     end)
    (λ err, raise err) w = (r, w') →
  ∃ sent, trace w' = trace w ++ sent
          ∧ sent `prefix_of` replication project groups permission
          ∧ match r with
            | Ok _ => sent = replication project groups permission
            | Raise e => e = ServerResponseError
            end.
Proof.
  intros Hg. unfold try_except, replication. rewrite run_bind.
  unfold lift at 1, getitem at 1. rewrite Hg.
  destruct (get_dev_group group groups) as [dev_group|].
  2:{ intros [= <- <-]. exists []. rewrite app_nil_r. split; [reflexivity|].
      split; reflexivity. }
  destruct (apply_permissions srv project dev_group permission w) as [r2 w2] eqn:Happly.
  apply apply_permissions_run in Happly as (sent & Hsent & Hpre & Hr).
  destruct r2 as [[]|e]; intros [= <- <-]; exists sent.
  - split; [exact Hsent|]. split; [exact Hpre|exact Hr].
  - split; [exact Hsent|]. split; [exact Hpre|]. apply Hr.
Qed.

(** The rounds of the loop, from any state of [group_name]. *)
Lemma rounds_run (srv : server) (project : ProjectItem) (groups : dict GroupItem)
    (valid_permisssions : list PermissionsRule) (group_name : option string)
    (w : world) (r : result ending) (w' : world) :
  rounds srv project groups group_name valid_permisssions w = (r, w') →
  match r with
  | Ok Returned =>
      trace w' = trace w ++ flat_map (replication project groups) valid_permisssions
  | Ok UnboundLocalError =>
      group_name = None ∧ w' = w
      ∧ ∃ p rest, valid_permisssions = p :: rest
                  ∧ lookup_key groups (grantee_id (perm_grantee p)) = None
  | Raise e =>
      ∃ done p rest sent,
        valid_permisssions = done ++ p :: rest
        ∧ trace w' = trace w ++ flat_map (replication project groups) done ++ sent
        ∧ sent `prefix_of` replication project groups p
        ∧ (e = ServerResponseError
           ∨ e = KeyError (grantee_id (perm_grantee p))
             ∧ lookup_key groups (grantee_id (perm_grantee p)) = None
             ∧ (done ≠ [] ∨ is_Some group_name))
  end.
Proof.
  revert group_name w.
  induction valid_permisssions as [|permission rest IH]; intros group_name w Hrun.
  - cbn in Hrun. injection Hrun as <- <-. now rewrite app_nil_r.
  - cbn [rounds] in Hrun. unfold getitem at 1 in Hrun.
    destruct (lookup_key groups (grantee_id (perm_grantee permission))) as [group|] eqn:Hg.
    + cbv zeta in Hrun. rewrite run_bind in Hrun.
      destruct (try_except _ _ w) as [r1 w1] eqn:Hround.
      apply (replicate_round _ _ _ _ _ _ _ _ Hg) in Hround as (sent & Hsent & Hpre & Hr1).
      destruct r1 as [[]|e1].
      * apply IH in Hrun. destruct r as [[|]|e].
        -- cbn [flat_map]. now rewrite Hrun, Hsent, Hr1, <- app_assoc.
        -- now destruct Hrun as (? & _).
        -- destruct Hrun as (done & p & rest' & sent' & -> & Ht & Hp & He).
           exists (permission :: done), p, rest', sent'. split; [reflexivity|].
           split; [cbn [flat_map]; now rewrite Ht, Hsent, Hr1, <- !app_assoc|].
           split; [exact Hp|]. destruct He as [He|(He & Hl & _)]; [now left|right].
           split_and!; [exact He|exact Hl|now left].
      * injection Hrun as <- <-. exists [], permission, rest, sent.
        split; [reflexivity|]. split; [exact Hsent|]. split; [exact Hpre|now left].
    + unfold handler in Hrun. destruct group_name as [n|]; injection Hrun as <- <-.
      * exists [], permission, rest, []. split; [reflexivity|].
        split; [cbn; now rewrite app_nil_r|]. split; [apply prefix_nil|right].
        split_and!; [reflexivity|exact Hg|right; now eexists].
      * split_and!; [reflexivity..|]. now exists permission, rest.
Qed.

(** X25.  [replicate_dev_permissions] goes through the rules in order: for
    a rule whose group has a development group in the index it sends the
    three updates of [apply_permissions], for a rule whose group has none it
    sends nothing and goes on.  It stops at the first update that fails,
    and at the first rule whose group is not in the index: with [KeyError] when a rule
    before it has been gone through, and with the [UnboundLocalError] of the
    handler, which prints a local that is not bound yet, when this is the
    first rule. *)
Theorem replicate_dev_permissions_calls (srv : server) (project : ProjectItem)
    (valid_permisssions : list PermissionsRule) (groups : dict GroupItem)
    (w : world) (r : result ending) (w' : world) :
  replicate_dev_permissions srv project valid_permisssions groups w = (r, w') →
  match r with
  | Ok Returned =>
      trace w' = trace w ++ flat_map (replication project groups) valid_permisssions
  | Ok UnboundLocalError =>
      w' = w
      ∧ ∃ p rest, valid_permisssions = p :: rest
                  ∧ lookup_key groups (grantee_id (perm_grantee p)) = None
  | Raise e =>
      ∃ done p rest sent,
        valid_permisssions = done ++ p :: rest
        ∧ trace w' = trace w ++ flat_map (replication project groups) done ++ sent
        ∧ sent `prefix_of` replication project groups p
        ∧ (e = ServerResponseError
           ∨ e = KeyError (grantee_id (perm_grantee p))
             ∧ lookup_key groups (grantee_id (perm_grantee p)) = None
             ∧ done ≠ [])
  end.
Proof.
  unfold replicate_dev_permissions. cbv zeta. intros Hrun. apply rounds_run in Hrun.
  destruct r as [[|]|e].
  - exact Hrun.
  - now destruct Hrun as (_ & ? & ?).
  - destruct Hrun as (done & p & rest & sent & Hl & Ht & Hp & He).
    exists done, p, rest, sent. split_and!; [exact Hl|exact Ht|exact Hp|].
    destruct He as [He|(He & Hk & [Hd|[n Hn]])]; [now left|now right|discriminate Hn].
Qed.

Lemma replicate_dev_permissions_calls_witness :
  let groups := index_by group_id ex_groups in
  let run := replicate_dev_permissions ex_server ex_project
               (List.filter (prod_rule groups) (permissions ex_project)) groups ex_world in
  (replicate_dev_permissions ex_server ex_project [Rule (Grantee "group" "g9") []]
     groups ex_world).1 = Ok UnboundLocalError
  ∧ trace run.2
    = trace ex_world
      ++ flat_map (replication ex_project groups)
           (List.filter (prod_rule groups) (permissions ex_project)).
Proof.
  split; [vm_compute; reflexivity|].
  apply (replicate_dev_permissions_calls ex_server ex_project
           (List.filter (prod_rule (index_by group_id ex_groups)) (permissions ex_project))
           (index_by group_id ex_groups) ex_world (Ok Returned)).
  vm_compute. reflexivity.
Defined.

Lemma prod_rule_known (groups : dict GroupItem) (p : PermissionsRule) :
  prod_rule groups p = true → is_Some (lookup_key groups (grantee_id (perm_grantee p))).
Proof.
  unfold prod_rule. destruct (lookup_key _ _); [eauto|]. now rewrite andb_false_r.
Qed.

Lemma for_calls_ends {A} (Q : exn → Prop) (l : list A) (body : A → M ending) :
  (∀ x w r w', x ∈ l → body x w = (r, w') →
     match r with Ok e => e = Returned | Raise e => Q e end) →
  ∀ w r w', for_calls l body w = (r, w') →
            match r with Ok e => e = Returned | Raise e => Q e end.
Proof.
  induction l as [|x l IH]; intros Hbody w r w' Hrun; cbn [for_calls] in Hrun.
  - now injection Hrun as <- <-.
  - rewrite run_bind in Hrun. destruct (body x w) as [[e|e] w1] eqn:Hb.
    + pose proof (Hbody x w _ _ ltac:(left) Hb) as ->.
      apply (IH (λ y w2 r2 w2' Hy, Hbody y w2 r2 w2' ltac:(now right)) _ _ _ Hrun).
    + injection Hrun as <- <-. apply (Hbody x w _ _ ltac:(left) Hb).
Qed.

Lemma elem_of_setitem {V} (d : dict V) (k : string) (v : V) (kv : string * V) :
  kv ∈ setitem d k v → kv = (k, v) ∨ kv ∈ d.
Proof.
  induction d as [|[k0 v0] d IH]; cbn [setitem].
  - intros ->%list_elem_of_singleton. now left.
  - destruct (decide (k0 = k)) as [->|Hne].
    + intros [->|H]%elem_of_cons; [now left|right; now right].
    + intros [->|H]%elem_of_cons; [right; now left|].
      destruct (IH H) as [->|H']; [now left|right; now right].
Qed.

Lemma elem_of_index_by {V} (key : V → string) (l : list V) (kv : string * V) :
  kv ∈ index_by key l → kv.2 ∈ l.
Proof.
  induction l as [|x l IH] using rev_ind.
  - intros H. now apply not_elem_of_nil in H.
  - rewrite index_by_snoc. intros [->|H]%elem_of_setitem; apply elem_of_app;
      [right; now left|left; auto].
Qed.

(** How [init_replicate] can end. *)
Lemma init_replicate_ends (srv : server) (all_projects : dict ProjectItem)
    (all_groups : dict GroupItem) (w : world) (r : result ending) (w' : world) :
  init_replicate srv all_projects all_groups w = (r, w') →
  match r with
  | Ok e => e = Returned
  | Raise e =>
      e = ServerResponseError
      ∨ ∃ kp p, kp ∈ items all_projects ∧ p ∈ permissions kp.2
                ∧ group_rule p = true
                ∧ lookup_key all_groups (grantee_id (perm_grantee p)) = None
                ∧ e = KeyError (grantee_id (perm_grantee p))
  end.
Proof.
  unfold init_replicate. rewrite run_bind.
  destruct (for_each _ _ w) as [[[]|e] w1] eqn:Hpop.
  2:{ intros [= <- <-]. left.
      refine (for_each_ind_exn (λ _ _, True) (λ e _, e = ServerResponseError)
                _ _ _ I _ _ _ Hpop).
      intros done [project_id_ project] rest w2 r2 w2' _ _. rewrite run_bind.
      destruct (server_call srv _ w2) as [[[]|e2] w3] eqn:H1;
        apply server_call_inv in H1 as (_ & _ & H1);
        [|intros [= <- <-]; apply H1].
      rewrite run_bind.
      destruct (server_call srv _ w3) as [[[]|e3] w4] eqn:H2;
        apply server_call_inv in H2 as (_ & _ & H2);
        [|intros [= <- <-]; apply H2].
      intros H3. apply server_call_inv in H3 as (_ & _ & H3).
      destruct r2; [exact I|apply H3]. }
  apply for_calls_ends. clear. intros [project_id_ project] w r w' Hin. rewrite run_bind.
  destruct (get_prod_permissions project all_groups w) as [[valid_permisssions|e] w1] eqn:Hget;
    apply get_prod_permissions_run in Hget as [-> Hget].
  2:{ intros [= <- <-]. right.
      destruct Hget as (done & p & rest & Hl & Hgr & Hk & -> & _).
      exists (project_id_, project), p. split_and!; auto. cbn [snd]. rewrite Hl.
      apply elem_of_app. right. now left. }
  destruct Hget as [-> _].
  destruct (length _ =? 0)%nat; [now intros [= <- <-]|].
  unfold replicate_dev_permissions. cbv zeta. intros Hrun. apply rounds_run in Hrun.
  assert (Hknown : ∀ p, p ∈ List.filter (prod_rule all_groups) (permissions project) →
                        lookup_key all_groups (grantee_id (perm_grantee p)) ≠ None).
  { intros p Hp%list_elem_of_In%filter_In Hnone. destruct Hp as [_ Hp].
    apply prod_rule_known in Hp as [g Hg]. congruence. }
  destruct r as [[|]|e]; [reflexivity| |].
  - destruct Hrun as (_ & _ & p & rest & Hl & Hnone). exfalso.
    apply (Hknown p); [rewrite Hl; now left|exact Hnone].
  - destruct Hrun as (done & p & rest & sent & Hl & _ & _ & [He|(_ & Hnone & _)]);
      [now left|]. exfalso.
    apply (Hknown p); [rewrite Hl; apply elem_of_app; right; now left|exact Hnone].
Qed.

(** X26.  A run of the script returns or raises; it never ends in the
    [UnboundLocalError] of the handler of [replicate_dev_permissions].  When
    it raises, a request or a call on the server has failed, or a project
    has a rule for a group whose id is not among the groups the server has
    listed: then the exception is the [KeyError] of that id. *)
Theorem replication_ends (srv : server) (w : world) (r : result ending) (w' : world) :
  main srv w = (r, w') →
  match r with
  | Ok e => e = Returned
  | Raise e =>
      e = ServerResponseError
      ∨ ∃ all_projects all_groups project p,
          projects_get srv = Some all_projects ∧ groups_get srv = Some all_groups
          ∧ project ∈ all_projects ∧ p ∈ permissions project
          ∧ group_rule p = true
          ∧ (∀ g, g ∈ all_groups → group_id g ≠ grantee_id (perm_grantee p))
          ∧ e = KeyError (grantee_id (perm_grantee p))
  end.
Proof.
  unfold main. rewrite run_bind. unfold connect_tableau at 1.
  destruct (accepts_token srv); [|intros [= <- <-]; now left].
  rewrite run_bind. unfold get_projects at 1.
  destruct (projects_get srv) as [all_projects|] eqn:Hprojects;
    [|intros [= <- <-]; now left].
  rewrite run_index_by, run_bind. unfold get_all_groups at 1.
  destruct (groups_get srv) as [all_groups|] eqn:Hgroups;
    [|intros [= <- <-]; now left].
  rewrite run_index_by. intros Hrun. apply init_replicate_ends in Hrun.
  destruct r as [e|e]; [exact Hrun|]. destruct Hrun as [He|(kp & p & Hkp & Hp & Hgr & Hk & He)];
    [now left|right].
  exists all_projects, all_groups, kp.2, p.
  split_and!; [reflexivity..| |exact Hp|exact Hgr| |exact He].
  - now apply (elem_of_index_by project_id).
  - intros g Hg Hid. rewrite lookup_key_index_by in Hk. apply last_None in Hk.
    assert (Hin : g ∈ filter (λ g, group_id g = grantee_id (perm_grantee p)) all_groups)
      by now apply list_elem_of_filter.
    rewrite Hk in Hin. now apply not_elem_of_nil in Hin.
Qed.

Lemma replication_ends_witness :
  let srv := Server true (Some [Project "p1" "Sales" [Rule (Grantee "group" "g9") []] [] []])
               (Some ex_groups) (λ _ _, true) in
  (main srv ex_world).1 = Raise (KeyError "g9")
  ∧ (KeyError "g9" = ServerResponseError
     ∨ ∃ all_projects all_groups project p,
         projects_get srv = Some all_projects ∧ groups_get srv = Some all_groups
         ∧ project ∈ all_projects ∧ p ∈ permissions project
         ∧ group_rule p = true
         ∧ (∀ g, g ∈ all_groups → group_id g ≠ grantee_id (perm_grantee p))
         ∧ KeyError "g9" = KeyError (grantee_id (perm_grantee p))).
Proof.
  split; [vm_compute; reflexivity|].
  apply (replication_ends
           (Server true (Some [Project "p1" "Sales" [Rule (Grantee "group" "g9") []] [] []])
              (Some ex_groups) (λ _ _, true))
           ex_world (Raise (KeyError "g9"))
           (World true [SignedIn; PopulatePermissions "p1";
                        PopulateWorkbookDefaultPermissions "p1";
                        PopulateDatasourceDefaultPermissions "p1"])).
  vm_compute. reflexivity.
Defined.

End ReplicationFurther.
